(** * golc3: the LC-3 assembler and virtual machine, embedded in Rocq

    A shallow embedding of [pkg/encoding], [pkg/machine] and
    [pkg/assembler] of lassandro/golc3, of the hooks of [pkg/debugger],
    of the [break] command of [cmd/golc3] and of the output file of
    [cmd/golc3-asm], followed by the properties of the toolchain that
    were checked against it.

    Conventions.
    - A Go [uint16] is a [Z] in [0, 2^16); every operation that can leave
      the range is followed by an explicit [wrap16].  [int16] values are
      signed [Z]s, [uint32] values are wrapped with [wrap32].
    - A Go [string] is a Rocq [string] (a sequence of octets).
    - The arrays [Registers [8]uint16] and [Memory [1<<16]uint16] are total
      functions on their index; the indices the code uses are always
      masked to the array's size.
    - A Go [panic] is the [Panic] outcome of [result]. *)

From Stdlib Require Import ZArith Lia Bool List Ascii String.
From stdpp Require Import base option gmap strings.
Import ListNotations.

Local Open Scope string_scope.
Local Open Scope list_scope.
Local Open Scope Z_scope.

(** ** Machine integers *)

Definition wrap16 (x : Z) : Z := x mod 65536.
Definition wrap32 (x : Z) : Z := x mod 4294967296.

(** [int16(x)] for an [x] already reduced to 16 bits. *)
Definition to_int16 (x : Z) : Z :=
  let y := wrap16 x in if y <? 32768 then y else y - 65536.

(** Assignment to one cell of an array. *)
Definition upd (f : Z -> Z) (i v : Z) : Z -> Z :=
  fun j => if j =? i then v else f j.

Definition byteZ (c : ascii) : Z := Z.of_N (N_of_ascii c).

Fixpoint bytesZ (s : string) : list Z :=
  match s with
  | EmptyString => []
  | String c rest => byteZ c :: bytesZ rest
  end.

Definition strlen (s : string) : Z := Z.of_nat (String.length s).

(** ** Outcomes of code that may panic *)

Inductive result (A : Type) : Type :=
| Ok (a : A)
| Panic (why : string).
Arguments Ok {A} a.
Arguments Panic {A} why.

Definition bind {A B : Type} (r : result A) (k : A -> result B) : result B :=
  match r with
  | Ok a => k a
  | Panic why => Panic why
  end.

Notation "'do' x <- c1 ; c2" := (bind c1 (fun x => c2))
  (at level 10, x name, c1 at level 100, c2 at level 200).
Notation "'do' ' pat <- c1 ; c2" :=
  (bind c1 (fun x => match x with pat => c2 end))
  (at level 10, pat pattern, c1 at level 100, c2 at level 200).

(** ** The parts of Go's [strconv] and [strings] that the code calls *)

Module Strconv.

Inductive numError : Type := ErrSyntax | ErrRange | ErrBase | ErrBitSize.

(** [lower(c)] is [c | ('x' - 'X')]. *)
Definition lower (c : Z) : Z := Z.lor c 32.

Inductive digit : Type := Underscore | Digit (d : Z) | BadChar.

Definition classify (base0 : bool) (c : Z) : digit :=
  if (c =? 95) && base0 then Underscore
  else if (48 <=? c) && (c <=? 57) then Digit (c - 48)
  else if (97 <=? lower c) && (lower c <=? 122) then Digit (lower c - 97 + 10)
  else BadChar.

(** The digit loop of [ParseUint].  [n] is kept unbounded: the two overflow
    tests of the library ([n >= cutoff], then [n1 < n || n1 > maxVal]) fire
    exactly when [n * base + d] exceeds [maxVal]. *)
Fixpoint parseDigits (base0 : bool) (base maxVal : Z) (s : list Z)
    (n : Z) (underscores : bool) : Z * bool * option numError :=
  match s with
  | [] => (n, underscores, None)
  | c :: rest =>
      match classify base0 c with
      | Underscore => parseDigits base0 base maxVal rest n true
      | BadChar => (0, underscores, Some ErrSyntax)
      | Digit d =>
          if base <=? d then (0, underscores, Some ErrSyntax)
          else if maxVal <? n * base + d then (maxVal, underscores, Some ErrRange)
          else parseDigits base0 base maxVal rest (n * base + d) underscores
      end
  end.

Inductive seen : Type := SawStart | SawDigit | SawUnderscore | SawOther.

Definition seen_eqb (a b : seen) : bool :=
  match a, b with
  | SawStart, SawStart | SawDigit, SawDigit
  | SawUnderscore, SawUnderscore | SawOther, SawOther => true
  | _, _ => false
  end.

Fixpoint underscoreLoop (hex : bool) (s : list Z) (saw : seen) : bool :=
  match s with
  | [] => negb (seen_eqb saw SawUnderscore)
  | c :: rest =>
      if ((48 <=? c) && (c <=? 57))
         || (hex && (97 <=? lower c) && (lower c <=? 102))
      then underscoreLoop hex rest SawDigit
      else if c =? 95 then
        if seen_eqb saw SawDigit then underscoreLoop hex rest SawUnderscore
        else false
      else if seen_eqb saw SawUnderscore then false
      else underscoreLoop hex rest SawOther
  end.

Definition isBasePrefix (c : Z) : bool :=
  (lower c =? 98) || (lower c =? 111) || (lower c =? 120).

Definition underscoreOK (s : list Z) : bool :=
  let s := match s with
           | c :: rest => if (c =? 45) || (c =? 43) then rest else s
           | [] => s
           end in
  match s with
  | c0 :: c1 :: rest =>
      if (c0 =? 48) && isBasePrefix c1
      then underscoreLoop (lower c1 =? 120) rest SawDigit
      else underscoreLoop false s SawStart
  | _ => underscoreLoop false s SawStart
  end.

(** [strconv.ParseUint(s, base, bitSize)]: the value and the error. *)
Definition ParseUint (s : list Z) (base bitSize : Z) : Z * option numError :=
  match s with
  | [] => (0, Some ErrSyntax)
  | c0 :: _ =>
      let base0 := base =? 0 in
      let prefixed : option (Z * list Z) :=
        if (2 <=? base) && (base <=? 36) then Some (base, s)
        else if base0 then
          if c0 =? 48 then
            match s with
            | _ :: c1 :: (_ :: _) as digits =>
                if lower c1 =? 98 then Some (2, digits)
                else if lower c1 =? 111 then Some (8, digits)
                else if lower c1 =? 120 then Some (16, digits)
                else Some (8, tl s)
            | _ => Some (8, tl s)
            end
          else Some (10, s)
        else None in
      match prefixed with
      | None => (0, Some ErrBase)
      | Some (b, digits) =>
          let bitSize := if bitSize =? 0 then 64 else bitSize in
          if (bitSize <? 0) || (64 <? bitSize) then (0, Some ErrBitSize)
          else
            let maxVal := 2 ^ bitSize - 1 in
            match parseDigits base0 b maxVal digits 0 false with
            | (n, _, Some e) => (n, Some e)
            | (n, underscores, None) =>
                if underscores && negb (underscoreOK s) then (0, Some ErrSyntax)
                else (n, None)
            end
      end
  end.

Definition isRangeOrNone (e : option numError) : bool :=
  match e with
  | None | Some ErrRange => true
  | _ => false
  end.

(** [strconv.ParseInt(s, base, bitSize)]. *)
Definition ParseInt (s : list Z) (base bitSize : Z) : Z * option numError :=
  match s with
  | [] => (0, Some ErrSyntax)
  | c0 :: rest =>
      let '(neg, digits) :=
        if c0 =? 43 then (false, rest)
        else if c0 =? 45 then (true, rest)
        else (false, s) in
      let '(un, err) := ParseUint digits base 64 in
      if negb (isRangeOrNone err) then (0, err)
      else
        let bitSize := if bitSize =? 0 then 64 else bitSize in
        let cutoff := 2 ^ (bitSize - 1) in
        if negb neg && (cutoff <=? un) then (cutoff - 1, Some ErrRange)
        else if neg && (cutoff <? un) then (- cutoff, Some ErrRange)
        else (if neg then - un else un, None)
  end.

(** [strings.IndexAny(s, "xX")], as an index or [-1]. *)
Fixpoint indexAny_xX (s : list Z) (i : Z) : Z :=
  match s with
  | [] => -1
  | c :: rest => if (c =? 120) || (c =? 88) then i else indexAny_xX rest (i + 1)
  end.

Definition containsAny_xX (s : list Z) : bool := negb (indexAny_xX s 0 =? -1).

End Strconv.

(** ** [pkg/encoding] *)

Module Encoding.

(** Decodes a hexadecimal string in the formats 0xFFFF, xFFFF, 0xFF, xFF. *)
Definition DecodeHex (s : string) : option Z :=
  let bytes := bytesZ s in
  let i := Strconv.indexAny_xX bytes 0 in
  let prefixed : option (list Z) :=
    if i =? 0 then Some (48 :: bytes)
    else if (i =? -1) || negb (i =? 1) then None
    else Some bytes in
  match prefixed with
  | None => None
  | Some s' =>
      match Strconv.ParseUint s' 0 16 with
      | (result, None) => Some (wrap16 result)
      | (_, Some _) => None
      end
  end.

(** Decodes a base-10 string in the formats #123, 123; the result is an
    [int16]. *)
Definition DecodeInt (s : string) : option Z :=
  let bytes := bytesZ s in
  let bytes := match bytes with
               | 35 :: rest => rest
               | _ => bytes
               end in
  match Strconv.ParseInt bytes 10 16 with
  | (result, None) => Some result
  | (_, Some _) => None
  end.

Definition SwapEndian (value : Z) : Z :=
  Z.lor (Z.shiftr value 8) (wrap16 (Z.shiftl value 8)).

(** The shift count [bitcount - 1] is a [uint16] as well. *)
Definition SignExtend (value bitcount : Z) : Z :=
  if Z.land (Z.shiftr value (wrap16 (bitcount - 1))) 1 =? 1
  then Z.lor value (wrap16 (Z.shiftl 0xFFFF bitcount))
  else value.

Definition ZeroExtend (value bitcount : Z) : Z :=
  if Z.land (Z.shiftr value (wrap16 (bitcount - 1))) 1 =? 1
  then Z.lor value (wrap16 (Z.shiftl 0x0000 bitcount))
  else value.

End Encoding.

(** ** [pkg/machine] *)

Module Machine.

Definition FLAG_POS : Z := 1.
Definition FLAG_ZERO : Z := 2.
Definition FLAG_NEG : Z := 4.

Definition MEMSPACE_TRAP_TABLE : Z := 0x0000.
Definition MEMSPACE_INT_TABLE : Z := 0x0100.
Definition MEMSPACE_SUPERVISOR : Z := 0x0200.
Definition MEMSPACE_USER : Z := 0x3000.
Definition MEMSPACE_DEVICES : Z := 0xFE00.

Definition DEV_KBSR : Z := 0xFE00.
Definition DEV_KBDR : Z := 0xFE02.
Definition DEV_DSR : Z := 0xFE04.
Definition DEV_DDR : Z := 0xFE06.

Definition OP_ADD : Z := 1.
Definition OP_AND : Z := 5.
Definition OP_BR : Z := 0.
Definition OP_JMP : Z := 12.
Definition OP_JSR : Z := 4.
Definition OP_LD : Z := 2.
Definition OP_LDI : Z := 10.
Definition OP_LDR : Z := 6.
Definition OP_LEA : Z := 14.
Definition OP_NOT : Z := 9.
Definition OP_RTI : Z := 8.
Definition OP_ST : Z := 3.
Definition OP_STI : Z := 11.
Definition OP_STR : Z := 7.
Definition OP_TRAP : Z := 15.
Definition OP_RES : Z := 13.

(** *** Device endpoints

    The keyboard is a [bufio.Reader]: the octets not yet consumed, in
    order.  [ReadByte] on an exhausted stream is [io.EOF]; the streams the
    machine is given (a terminal in raw mode, a [bytes.Reader]) report no
    other error.  The display is a [bufio.Writer]: a buffer of [capacity]
    octets in front of a sink, which may be [broken] (every write to it
    fails). *)

Record Reader : Type := { pending : list Z }.

Record Writer : Type :=
  { capacity : Z; buffered : list Z; flushed : list Z; broken : bool }.

Definition ReadByte (r : Reader) : option Z * Reader :=
  match pending r with
  | [] => (None, r)
  | b :: rest => (Some b, {| pending := rest |})
  end.

(** [Peek(1)] succeeds when an octet is available. *)
Definition Peek1 (r : Reader) : bool :=
  match pending r with
  | [] => false
  | _ :: _ => true
  end.

Definition Available (w : Writer) : Z := capacity w - Z.of_nat (length (buffered w)).

Definition Flush (w : Writer) : option Writer :=
  match buffered w with
  | [] => Some w
  | _ :: _ =>
      if broken w then None
      else Some {| capacity := capacity w; buffered := [];
                   flushed := flushed w ++ buffered w; broken := broken w |}
  end.

Definition WriteByte (w : Writer) (c : Z) : option Writer :=
  let put (w : Writer) :=
    {| capacity := capacity w; buffered := buffered w ++ [c];
       flushed := flushed w; broken := broken w |} in
  if Available w <=? 0 then
    match Flush w with
    | None => None
    | Some w' => Some (put w')
    end
  else Some (put w).

Record DeviceHandler : Type :=
  { Keyboard : option Reader; Display : option Writer }.

Record MachineState : Type :=
  { Registers : Z -> Z;
    Program : Z;
    Procstat : Z;
    Stack : Z;
    Memory : Z -> Z }.

Record Machine : Type :=
  { Devices : option DeviceHandler; State : MachineState }.

(** The [MachineDebugger] interface: three hooks that receive the machine
    and may change it (or never give control back to the caller normally). *)
Record MachineDebugger : Type :=
  { dbgStep : Machine -> result Machine;
    dbgRead : Z -> Machine -> result Machine;
    dbgWrite : Z -> Machine -> result Machine }.

Definition setRegister (mc : Machine) (i v : Z) : Machine :=
  let st := State mc in
  {| Devices := Devices mc;
     State := {| Registers := upd (Registers st) i v; Program := Program st;
                 Procstat := Procstat st; Stack := Stack st;
                 Memory := Memory st |} |}.

Definition setMemory (mc : Machine) (a v : Z) : Machine :=
  let st := State mc in
  {| Devices := Devices mc;
     State := {| Registers := Registers st; Program := Program st;
                 Procstat := Procstat st; Stack := Stack st;
                 Memory := upd (Memory st) a v |} |}.

Definition setProgram (mc : Machine) (v : Z) : Machine :=
  let st := State mc in
  {| Devices := Devices mc;
     State := {| Registers := Registers st; Program := v;
                 Procstat := Procstat st; Stack := Stack st;
                 Memory := Memory st |} |}.

Definition setProcstat (mc : Machine) (v : Z) : Machine :=
  let st := State mc in
  {| Devices := Devices mc;
     State := {| Registers := Registers st; Program := Program st;
                 Procstat := v; Stack := Stack st; Memory := Memory st |} |}.

Definition setStack (mc : Machine) (v : Z) : Machine :=
  let st := State mc in
  {| Devices := Devices mc;
     State := {| Registers := Registers st; Program := Program st;
                 Procstat := Procstat st; Stack := v; Memory := Memory st |} |}.

Definition setDevices (mc : Machine) (dh : option DeviceHandler) : Machine :=
  {| Devices := dh; State := State mc |}.

Definition reg (mc : Machine) (i : Z) : Z := Registers (State mc) i.
Definition mem (mc : Machine) (a : Z) : Z := Memory (State mc) a.

Definition Reset (st : MachineState) : MachineState :=
  {| Registers := upd (fun _ => 0) 6 MEMSPACE_USER;
     Program := MEMSPACE_SUPERVISOR;
     Procstat := 0x8000;
     Stack := MEMSPACE_DEVICES;
     Memory := fun _ => 0 |}.

(** The loop of [LoadBin].  The reader is the octet stream that is left;
    [Read] into the two-octet scratch buffer takes what is there, at most
    two octets. *)
Fixpoint loadLoop (reader : list Z) (index : Z) (memory : Z -> Z)
    : (Z -> Z) * option string :=
  if index <? 65535 then
    match reader with
    | [] => (memory, None)
    | [_] => (memory, Some "Error reading binary")
    | b0 :: b1 :: rest =>
        loadLoop rest (index + 1) (upd memory index (b0 * 256 + b1))
    end
  else (memory, None).

Definition LoadBin (mc : Machine) (reader : list Z) : Machine * option string :=
  let st := Reset (State mc) in
  let '(memory, err) := loadLoop reader 0 (Memory st) in
  ({| Devices := Devices mc;
      State := {| Registers := Registers st; Program := Program st;
                  Procstat := Procstat st; Stack := Stack st;
                  Memory := memory |} |}, err).

Definition keyboardOf (mc : Machine) : option Reader :=
  match Devices mc with
  | Some dh => Keyboard dh
  | None => None
  end.

Definition displayOf (mc : Machine) : option Writer :=
  match Devices mc with
  | Some dh => Display dh
  | None => None
  end.

Definition setKeyboard (mc : Machine) (r : Reader) : Machine :=
  match Devices mc with
  | Some dh => setDevices mc (Some {| Keyboard := Some r; Display := Display dh |})
  | None => mc
  end.

Definition setDisplay (mc : Machine) (w : Writer) : Machine :=
  match Devices mc with
  | Some dh => setDevices mc (Some {| Keyboard := Keyboard dh; Display := Some w |})
  | None => mc
  end.

Definition getPrivilege (mc : Machine) : bool :=
  Z.shiftr (Procstat (State mc)) 15 =? 1.

Definition getPriority (mc : Machine) : Z :=
  Z.land (Z.shiftr (Procstat (State mc)) 8) 7.

Definition setPrivilege (mc : Machine) (privileged : bool) : Machine :=
  let mc :=
    if negb (Bool.eqb privileged (getPrivilege mc)) then
      let currentStack := reg mc 6 in
      setStack (setRegister mc 6 (Stack (State mc))) currentStack
    else mc in
  if privileged
  then setProcstat mc (Z.lor (Procstat (State mc)) 0x8000)
  else setProcstat mc (Z.land (Procstat (State mc)) 0x7FFF).

Definition setPriority (mc : Machine) (value : Z) : result Machine :=
  if 7 <? value then Panic "Invalid priority value"
  else
    let mc := setProcstat mc (Z.land (Procstat (State mc)) 0xF8FF) in
    Ok (setProcstat mc
          (Z.lor (Procstat (State mc)) (wrap16 (Z.shiftl (Z.land value 7) 8)))).

Definition setFlags (mc : Machine) (value : Z) : Machine :=
  let mc := setProcstat mc (Z.land (Procstat (State mc)) 0xFFF8) in
  if value =? 0 then setProcstat mc (Z.lor (Procstat (State mc)) FLAG_ZERO)
  else if Z.shiftr value 15 =? 1
  then setProcstat mc (Z.lor (Procstat (State mc)) FLAG_NEG)
  else setProcstat mc (Z.lor (Procstat (State mc)) FLAG_POS).

Section Stepper.

Variable Debugger : option MachineDebugger.

Definition read (mc : Machine) (addr : Z) : result (Z * Machine) :=
  let mc :=
    if addr =? DEV_KBSR then
      let '(key, mc) :=
        match keyboardOf mc with
        | Some r => let '(key, r') := ReadByte r in (key, setKeyboard mc r')
        | None => (None, mc)
        end in
      match key with
      | Some key => setMemory (setMemory mc DEV_KBSR 0x8000) DEV_KBDR key
      | None => setMemory mc DEV_KBSR 0
      end
    else if addr =? DEV_DSR then
      match displayOf mc with
      | Some w =>
          if 0 <? Available w then setMemory mc DEV_DSR 0x8000
          else setMemory mc DEV_DSR 0
      | None => setMemory mc DEV_DSR 0
      end
    else mc in
  do mc <- match Debugger with
           | Some dbg => dbgRead dbg addr mc
           | None => Ok mc
           end;
  if negb (addr =? DEV_DDR) then Ok (mem mc addr, mc) else Ok (0, mc).

Definition write (mc : Machine) (addr value : Z) : result Machine :=
  do mc <- (if addr =? DEV_DDR then
              match displayOf mc with
              | None => Panic "invalid memory address or nil pointer dereference"
              | Some w =>
                  match WriteByte w (Z.land value 0xFF) with
                  | None => Panic "display write failed"
                  | Some w =>
                      match Flush w with
                      | None => Panic "display flush failed"
                      | Some w => Ok (setDisplay mc w)
                      end
                  end
              end
            else Ok mc);
  let mc := if negb (addr =? DEV_KBDR) then setMemory mc addr value else mc in
  match Debugger with
  | Some dbg => dbgWrite dbg addr mc
  | None => Ok mc
  end.

Definition push (mc : Machine) (value : Z) : result Machine :=
  let mc := setRegister mc 6 (wrap16 (reg mc 6 - 2)) in
  write mc (reg mc 6) value.

Definition pop (mc : Machine) : result (Z * Machine) :=
  do '(value, mc) <- read mc (reg mc 6);
  Ok (value, setRegister mc 6 (wrap16 (reg mc 6 + 2))).

Definition raiseException (mc : Machine) (vector priority : Z) : result Machine :=
  do mc <- push mc (Procstat (State mc));
  do mc <- push mc (Program (State mc));
  do mc <- setPriority mc priority;
  let mc := setPrivilege mc true in
  do '(handler, mc) <- read mc (Z.lor MEMSPACE_INT_TABLE vector);
  Ok (setProgram mc handler).

(** The three phases of [Step]: the fetch (with the increment of the
    program counter), the [switch] on the opcode, and the keyboard
    interrupt check that follows it. *)

Definition fetch (mc : Machine) : result (Z * Machine) :=
  do '(instruction, mc) <- read mc (Program (State mc));
  Ok (instruction, setProgram mc (wrap16 (Program (State mc) + 1))).

Definition execute (instruction : Z) (mc : Machine) : result Machine :=
  let opcode := Z.shiftr instruction 12 in
  if opcode =? OP_ADD then
    let dest := Z.land (Z.shiftr instruction 9) 7 in
    let src1 := Z.land (Z.shiftr instruction 6) 7 in
    let mc :=
      if Z.land (Z.shiftr instruction 5) 1 =? 1 then
        let imm5 := Encoding.SignExtend (Z.land instruction 0x1F) 5 in
        setRegister mc dest (wrap16 (reg mc src1 + imm5))
      else
        let src2 := Z.land instruction 7 in
        setRegister mc dest (wrap16 (reg mc src1 + reg mc src2)) in
    Ok (setFlags mc (reg mc dest))
  else if opcode =? OP_AND then
    let dest := Z.land (Z.shiftr instruction 9) 7 in
    let src1 := Z.land (Z.shiftr instruction 6) 7 in
    let mc :=
      if Z.land (Z.shiftr instruction 5) 1 =? 1 then
        let imm5 := Encoding.SignExtend (Z.land instruction 0x1F) 5 in
        setRegister mc dest (Z.land (reg mc src1) imm5)
      else
        let src2 := Z.land instruction 3 in
        setRegister mc dest (Z.land (reg mc src1) (reg mc src2)) in
    Ok (setFlags mc (reg mc dest))
  else if opcode =? OP_BR then
    let flags := Z.land (Z.shiftr instruction 9) 7 in
    if (flags =? 0) || (0 <? Z.land flags (Z.land (Procstat (State mc)) 7))
    then Ok (setProgram mc
               (wrap16 (Program (State mc)
                        + Encoding.SignExtend (Z.land instruction 0x1FF) 9)))
    else Ok mc
  else if opcode =? OP_JMP then
    let src := Z.land (Z.shiftr instruction 6) 7 in
    let mc := setProgram mc (reg mc src) in
    if Z.land instruction 1 =? 1 then
      if getPrivilege mc then Ok (setPrivilege mc false)
      else raiseException mc 0x00 (getPriority mc)
    else Ok mc
  else if opcode =? OP_JSR then
    let mc := setRegister mc 7 (Program (State mc)) in
    if Z.land (Z.shiftr instruction 11) 1 =? 1 then
      Ok (setProgram mc
            (wrap16 (Program (State mc)
                     + Encoding.SignExtend (Z.land instruction 0x7FF) 11)))
    else
      let src := Z.land (Z.shiftr instruction 6) 7 in
      Ok (setProgram mc (reg mc src))
  else if opcode =? OP_LD then
    let dest := Z.land (Z.shiftr instruction 9) 7 in
    let addr := wrap16 (Program (State mc)
                        + Encoding.SignExtend (Z.land instruction 0x1FF) 9) in
    do '(value, mc) <- read mc addr;
    let mc := setRegister mc dest value in
    Ok (setFlags mc (reg mc dest))
  else if opcode =? OP_LDI then
    let dest := Z.land (Z.shiftr instruction 9) 7 in
    let addr := wrap16 (Program (State mc)
                        + Encoding.SignExtend (Z.land instruction 0x1FF) 9) in
    do '(pointer, mc) <- read mc addr;
    do '(value, mc) <- read mc pointer;
    let mc := setRegister mc dest value in
    Ok (setFlags mc (reg mc dest))
  else if opcode =? OP_LDR then
    let dest := Z.land (Z.shiftr instruction 9) 7 in
    let src := Z.land (Z.shiftr instruction 6) 7 in
    let addr := wrap16 (reg mc src
                        + Encoding.SignExtend (Z.land instruction 0x3F) 6) in
    do '(value, mc) <- read mc addr;
    let mc := setRegister mc dest value in
    Ok (setFlags mc (reg mc dest))
  else if opcode =? OP_LEA then
    let dest := Z.land (Z.shiftr instruction 9) 7 in
    let addr := wrap16 (Program (State mc)
                        + Encoding.SignExtend (Z.land instruction 0x1FF) 9) in
    let mc := setRegister mc dest addr in
    Ok (setFlags mc (reg mc dest))
  else if opcode =? OP_NOT then
    let dest := Z.land (Z.shiftr instruction 9) 7 in
    let src := Z.land (Z.shiftr instruction 6) 7 in
    let mc := setRegister mc dest (Z.lxor (reg mc src) 0xFFFF) in
    Ok (setFlags mc (reg mc dest))
  else if opcode =? OP_RTI then
    if getPrivilege mc then
      let mc := setPrivilege mc false in
      do '(program, mc) <- pop mc;
      let mc := setProgram mc program in
      do '(procstat, mc) <- pop mc;
      Ok (setProcstat mc procstat)
    else raiseException mc 0x00 (getPriority mc)
  else if opcode =? OP_ST then
    let src := Z.land (Z.shiftr instruction 9) 7 in
    let addr := wrap16 (Program (State mc)
                        + Encoding.SignExtend (Z.land instruction 0x1FF) 9) in
    write mc addr (reg mc src)
  else if opcode =? OP_STI then
    let src := Z.land (Z.shiftr instruction 9) 7 in
    let addr := wrap16 (Program (State mc)
                        + Encoding.SignExtend (Z.land instruction 0x1FF) 9) in
    do '(pointer, mc) <- read mc addr;
    write mc pointer (reg mc src)
  else if opcode =? OP_STR then
    let src := Z.land (Z.shiftr instruction 9) 7 in
    let dest := Z.land (Z.shiftr instruction 6) 7 in
    let addr := wrap16 (reg mc dest
                        + Encoding.SignExtend (Z.land instruction 0x3F) 6) in
    write mc addr (reg mc src)
  else if opcode =? OP_TRAP then
    let call := Z.land instruction 0xFF in
    let mc := setPrivilege mc true in
    let mc := setRegister mc 7 (Program (State mc)) in
    do '(handler, mc) <- read mc (Encoding.ZeroExtend call 8);
    Ok (setProgram mc handler)
  else raiseException mc 0x01 (getPriority mc).

Definition keyboardInterrupt (mc : Machine) : result Machine :=
  match keyboardOf mc with
  | Some r =>
      if Peek1 r && (getPriority mc <? 4) then raiseException mc 0x80 4
      else Ok mc
  | None => Ok mc
  end.

Definition Step (mc : Machine) : result Machine :=
  do '(instruction, mc) <- fetch mc;
  do mc <- execute instruction mc;
  do mc <- keyboardInterrupt mc;
  match Debugger with
  | Some dbg => dbgStep dbg mc
  | None => Ok mc
  end.

Fixpoint Steps (n : nat) (mc : Machine) : result Machine :=
  match n with
  | O => Ok mc
  | S n' => do mc <- Step mc; Steps n' mc
  end.

End Stepper.

End Machine.

(** ** What the assembler takes from Go's [unicode/utf8], [unicode],
       [strings] and [strconv] *)

Module Utf8.

Definition RuneError : Z := 0xFFFD.
Definition RuneSelf : Z := 0x80.

Definition continuation (b : Z) : bool := (0x80 <=? b) && (b <=? 0xBF).

(** [utf8.DecodeRune]: the rune at the head of a non-empty octet sequence
    and its width; an invalid or truncated encoding is [RuneError] of
    width 1. *)
Definition decodeRune (s : list Z) : Z * nat :=
  match s with
  | [] => (RuneError, 0%nat)
  | b0 :: rest =>
      if b0 <? 0x80 then (b0, 1%nat)
      else if b0 <? 0xC2 then (RuneError, 1%nat)
      else if b0 <? 0xE0 then
        match rest with
        | b1 :: _ =>
            if continuation b1
            then (Z.lor (Z.shiftl (Z.land b0 0x1F) 6) (Z.land b1 0x3F), 2%nat)
            else (RuneError, 1%nat)
        | _ => (RuneError, 1%nat)
        end
      else if b0 <? 0xF0 then
        let lo := if b0 =? 0xE0 then 0xA0 else 0x80 in
        let hi := if b0 =? 0xED then 0x9F else 0xBF in
        match rest with
        | b1 :: b2 :: _ =>
            if (lo <=? b1) && (b1 <=? hi) && continuation b2
            then (Z.lor (Z.shiftl (Z.land b0 0x0F) 12)
                    (Z.lor (Z.shiftl (Z.land b1 0x3F) 6) (Z.land b2 0x3F)), 3%nat)
            else (RuneError, 1%nat)
        | _ => (RuneError, 1%nat)
        end
      else if b0 <? 0xF5 then
        let lo := if b0 =? 0xF0 then 0x90 else 0x80 in
        let hi := if b0 =? 0xF4 then 0x8F else 0xBF in
        match rest with
        | b1 :: b2 :: b3 :: _ =>
            if (lo <=? b1) && (b1 <=? hi) && continuation b2 && continuation b3
            then (Z.lor (Z.shiftl (Z.land b0 0x07) 18)
                    (Z.lor (Z.shiftl (Z.land b1 0x3F) 12)
                       (Z.lor (Z.shiftl (Z.land b2 0x3F) 6) (Z.land b3 0x3F))),
                  4%nat)
            else (RuneError, 1%nat)
        | _ => (RuneError, 1%nat)
        end
      else (RuneError, 1%nat)
  end.

(** [for i, r := range s]: the octet index and the rune of every
    iteration.  [skip] counts the octets of the current rune that are
    still to be passed over. *)
Fixpoint rangeString (s : list Z) (skip : nat) (i : Z) : list (Z * Z) :=
  match s with
  | [] => []
  | _ :: rest =>
      match skip with
      | S k => rangeString rest k (i + 1)
      | O =>
          let '(r, size) := decodeRune s in
          (i, r) :: rangeString rest (Nat.pred size) (i + 1)
      end
  end.

Definition runes (s : list Z) : list Z := map snd (rangeString s 0 0).

(** [utf8.AppendRune], which [strings.Builder.WriteRune] uses. *)
Definition encodeRune (r : Z) : list Z :=
  if (0 <=? r) && (r <? 0x80) then [r]
  else if (0 <=? r) && (r <? 0x800) then
    [Z.lor 0xC0 (Z.shiftr r 6); Z.lor 0x80 (Z.land r 0x3F)]
  else if (r <? 0) || (0x10FFFF <? r) || ((0xD800 <=? r) && (r <=? 0xDFFF)) then
    [0xEF; 0xBF; 0xBD]
  else if r <? 0x10000 then
    [Z.lor 0xE0 (Z.shiftr r 12); Z.lor 0x80 (Z.land (Z.shiftr r 6) 0x3F);
     Z.lor 0x80 (Z.land r 0x3F)]
  else
    [Z.lor 0xF0 (Z.shiftr r 18); Z.lor 0x80 (Z.land (Z.shiftr r 12) 0x3F);
     Z.lor 0x80 (Z.land (Z.shiftr r 6) 0x3F); Z.lor 0x80 (Z.land r 0x3F)].

End Utf8.

(** The Unicode range tables beyond Latin-1 and the escape-sequence
    branch of [strconv.Unquote] are taken as given. *)
Record GoLibrary : Type :=
  { unicode_White_Space : Z -> bool;
    unicode_Digit : Z -> bool;
    unicode_Letter : Z -> bool;
    strconv_unquoteEscaped : string -> option string }.

Module GoText.

Definition charZ (b : Z) : ascii := ascii_of_N (Z.to_N b).

Fixpoint stringOfBytes (s : list Z) : string :=
  match s with
  | [] => EmptyString
  | b :: rest => String (charZ b) (stringOfBytes rest)
  end.

Definition MaxLatin1 : Z := 0xFF.
Definition MaxASCII : Z := 0x7F.

Definition IsSpace (lib : GoLibrary) (r : Z) : bool :=
  if (0 <=? r) && (r <=? MaxLatin1) then
    ((9 <=? r) && (r <=? 13)) || (r =? 32) || (r =? 0x85) || (r =? 0xA0)
  else unicode_White_Space lib r.

Definition IsDigit (lib : GoLibrary) (r : Z) : bool :=
  if r <=? MaxLatin1 then (48 <=? r) && (r <=? 57)
  else unicode_Digit lib r.

Definition IsLetter (lib : GoLibrary) (r : Z) : bool :=
  if (0 <=? r) && (r <=? MaxLatin1) then
    ((65 <=? r) && (r <=? 90)) || ((97 <=? r) && (r <=? 122))
    || (r =? 0xAA) || (r =? 0xB5) || (r =? 0xBA)
    || ((0xC0 <=? r) && (r <=? 0xD6)) || ((0xD8 <=? r) && (r <=? 0xF6))
    || ((0xF8 <=? r) && (r <=? 0xFF))
  else unicode_Letter lib r.

(** The representative of a rune's orbit under [unicode.SimpleFold], for
    the orbits that contain an ASCII letter: upper and lower case, with the
    Kelvin sign in the orbit of K and the long s in the orbit of S. *)
Definition foldRune (r : Z) : Z :=
  if (65 <=? r) && (r <=? 90) then r + 32
  else if r =? 0x212A then 107
  else if r =? 0x17F then 115
  else r.

Fixpoint eqbList (a b : list Z) : bool :=
  match a, b with
  | [], [] => true
  | x :: a', y :: b' => (x =? y) && eqbList a' b'
  | _, _ => false
  end.

(** [strings.EqualFold(s, t)] for an ASCII [t]: equality rune by rune up to
    simple case folding. *)
Definition EqualFold (s t : string) : bool :=
  eqbList (map foldRune (Utf8.runes (bytesZ s))) (map foldRune (bytesZ t)).

Definition allASCII (s : list Z) : bool := forallb (fun b => b <? Utf8.RuneSelf) s.

Definition contains (s : list Z) (c : Z) : bool := existsb (fun b => b =? c) s.

(** [strconv.Unquote].  A double-quoted string without backslash, inner
    quote or newline is its own content; every other form goes through
    the library's escape handling. *)
Definition Unquote (lib : GoLibrary) (s : string) : option string :=
  let bytes := bytesZ s in
  match bytes with
  | 34 :: rest =>
      match rev rest with
      | 34 :: inner_rev =>
          let inner := rev inner_rev in
          if negb (contains inner 92) && negb (contains inner 34)
             && negb (contains inner 10) && allASCII inner
          then Some (stringOfBytes inner)
          else strconv_unquoteEscaped lib s
      | _ => strconv_unquoteEscaped lib s
      end
  | _ => strconv_unquoteEscaped lib s
  end.

(** [bufio.ScanLines] under [bufio.Scanner]: the lines of the input without
    their terminators; a trailing carriage return is dropped; scanning
    stops without a token at a line that does not fit the scanner's
    buffer of [MaxScanTokenSize] octets. *)
Definition MaxScanTokenSize : Z := 65536.

Definition dropCR (line : list Z) : list Z :=
  match rev line with
  | 13 :: init_rev => rev init_rev
  | _ => line
  end.

Fixpoint scanLines (input : list Z) (current : list Z) : list (list Z) :=
  match input with
  | [] =>
      match current with
      | [] => []
      | _ :: _ =>
          if Z.of_nat (length current) <? MaxScanTokenSize
          then [dropCR (rev current)] else []
      end
  | b :: rest =>
      if b =? 10 then
        if Z.of_nat (length current) <? MaxScanTokenSize
        then dropCR (rev current) :: scanLines rest []
        else []
      else scanLines rest (b :: current)
  end.

End GoText.

(** ** [pkg/assembler] *)

Module Assembler.

Import GoText.

Inductive TokenType : Type :=
| TOKEN_NONE | TOKEN_IDENT | TOKEN_DIRECTIVE | TOKEN_STRING | TOKEN_LITERAL.

Definition LITERAL_IMM5 : Z := 5.
Definition LITERAL_OFFSET6 : Z := 6.
Definition LITERAL_TRAPVEC8 : Z := 8.
Definition LITERAL_PCOFFSET9 : Z := 9.
Definition LITERAL_PCOFFSET11 : Z := 11.
Definition LITERAL_WORD : Z := 16.

Inductive InstructionType : Type :=
| INSTRUCTION_INVALID
| INSTRUCTION_ADD | INSTRUCTION_AND
| INSTRUCTION_BR | INSTRUCTION_BRn | INSTRUCTION_BRz | INSTRUCTION_BRp
| INSTRUCTION_BRnz | INSTRUCTION_BRzp | INSTRUCTION_BRnp | INSTRUCTION_BRnzp
| INSTRUCTION_JMP | INSTRUCTION_JMPT | INSTRUCTION_JSR | INSTRUCTION_JSRR
| INSTRUCTION_LD | INSTRUCTION_LDI | INSTRUCTION_LDR | INSTRUCTION_LEA
| INSTRUCTION_NOT | INSTRUCTION_RET | INSTRUCTION_RTI | INSTRUCTION_RTT
| INSTRUCTION_ST | INSTRUCTION_STI | INSTRUCTION_STR | INSTRUCTION_TRAP
| INSTRUCTION_GETC | INSTRUCTION_OUT | INSTRUCTION_PUTS | INSTRUCTION_IN
| INSTRUCTION_PUTSP | INSTRUCTION_HALT.

Inductive DirectiveType : Type :=
| DIRECTIVE_INVALID
| DIRECTIVE_ORIG | DIRECTIVE_FILL | DIRECTIVE_BLKW | DIRECTIVE_STRINGZ
| DIRECTIVE_END.

Record Cursor : Type :=
  { Line : Z; Column : Z; Byte : Z; Size : Z; LineByte : Z }.

(** The field [Type] of the source is [TType] here. *)
Record Token : Type :=
  { TType : TokenType; Position : Cursor; Value : string }.

Inductive error : Type :=
| InvalidOperandError (position : Cursor) (required : list TokenType)
    (received : TokenType)
| InvalidNumArgumentsError (position : Cursor) (required received : Z)
| OversizedLabelError (position : Cursor) (required received : Z)
| InvalidLiteralError (position : Cursor)
| InvalidStringError (position : Cursor)
| OversizedLiteralError (position : Cursor) (required received : Z)
| InvalidRegisterError (position : Cursor)
| UnexpectedCharacterError (position : Cursor) (received : Z)
| OversizedCharacterError (position : Cursor)
| RedeclaredLabelError (position : Cursor) (received : string)
| UnknownLabelError (position : Cursor) (received : string)
| UnknownIdentifierError (position : Cursor) (received : string)
| OversizedBinaryError.

Definition tokenType_eqb (a b : TokenType) : bool :=
  match a, b with
  | TOKEN_NONE, TOKEN_NONE | TOKEN_IDENT, TOKEN_IDENT
  | TOKEN_DIRECTIVE, TOKEN_DIRECTIVE | TOKEN_STRING, TOKEN_STRING
  | TOKEN_LITERAL, TOKEN_LITERAL => true
  | _, _ => false
  end.

Definition parseDirective (ident : string) : DirectiveType :=
  if EqualFold ident ".ORIG" then DIRECTIVE_ORIG
  else if EqualFold ident ".FILL" then DIRECTIVE_FILL
  else if EqualFold ident ".BLKW" then DIRECTIVE_BLKW
  else if EqualFold ident ".STRINGZ" then DIRECTIVE_STRINGZ
  else if EqualFold ident ".END" then DIRECTIVE_END
  else DIRECTIVE_INVALID.

Definition parseInstruction (ident : string) : InstructionType :=
  if EqualFold ident "ADD" then INSTRUCTION_ADD
  else if EqualFold ident "AND" then INSTRUCTION_AND
  else if EqualFold ident "BR" then INSTRUCTION_BR
  else if EqualFold ident "BRn" then INSTRUCTION_BRn
  else if EqualFold ident "BRz" then INSTRUCTION_BRz
  else if EqualFold ident "BRp" then INSTRUCTION_BRp
  else if EqualFold ident "BRnz" then INSTRUCTION_BRnz
  else if EqualFold ident "BRzp" then INSTRUCTION_BRzp
  else if EqualFold ident "BRnp" then INSTRUCTION_BRnp
  else if EqualFold ident "BRnzp" then INSTRUCTION_BRnzp
  else if EqualFold ident "JMP" then INSTRUCTION_JMP
  else if EqualFold ident "JMPT" then INSTRUCTION_JMPT
  else if EqualFold ident "JSR" then INSTRUCTION_JSR
  else if EqualFold ident "JSRR" then INSTRUCTION_JSRR
  else if EqualFold ident "LD" then INSTRUCTION_LD
  else if EqualFold ident "LDI" then INSTRUCTION_LDI
  else if EqualFold ident "LDR" then INSTRUCTION_LDR
  else if EqualFold ident "LEA" then INSTRUCTION_LEA
  else if EqualFold ident "NOT" then INSTRUCTION_NOT
  else if EqualFold ident "RET" then INSTRUCTION_RET
  else if EqualFold ident "RTI" then INSTRUCTION_RTI
  else if EqualFold ident "RTT" then INSTRUCTION_RTT
  else if EqualFold ident "ST" then INSTRUCTION_ST
  else if EqualFold ident "STI" then INSTRUCTION_STI
  else if EqualFold ident "STR" then INSTRUCTION_STR
  else if EqualFold ident "TRAP" then INSTRUCTION_TRAP
  else if EqualFold ident "GETC" then INSTRUCTION_GETC
  else if EqualFold ident "OUT" then INSTRUCTION_OUT
  else if EqualFold ident "PUTS" then INSTRUCTION_PUTS
  else if EqualFold ident "IN" then INSTRUCTION_IN
  else if EqualFold ident "PUTSP" then INSTRUCTION_PUTSP
  else if EqualFold ident "HALT" then INSTRUCTION_HALT
  else INSTRUCTION_INVALID.

(** [parseLiteral] on the token's text and position.  The hexadecimal
    branch computes in [uint16], the decimal branch in [int16]; in the
    decimal branch [result&(1<<bits) - 1] parses as
    [(result & (1<<bits)) - 1]. *)
Definition parseLiteral (token : Token) (bits : Z) : Z * option error :=
  if Strconv.containsAny_xX (bytesZ (Value token)) then
    match Encoding.DecodeHex (Value token) with
    | None => (0, Some (InvalidLiteralError (Position token)))
    | Some result =>
        if bits <? 16 then
          let limit := wrap16 (Z.shiftl 1 bits) in
          if limit <=? result
          then (0, Some (OversizedLiteralError (Position token) limit result))
          else if negb (Z.land result limit =? 0)
          then (Z.lor result (wrap16 (wrap16 (Z.shiftl 1 bits) - 1)), None)
          else (result, None)
        else (result, None)
    end
  else
    match Encoding.DecodeInt (Value token) with
    | None => (0, Some (InvalidLiteralError (Position token)))
    | Some result =>
        if bits <? 16 then
          let limit := to_int16 (to_int16 (Z.shiftl 1 bits) - 1) in
          if (result <? to_int16 (- limit)) || (limit <=? result)
          then (0, Some (OversizedLiteralError (Position token) limit result))
          else
            let result :=
              if negb (to_int16 (Z.land result (to_int16 (Z.shiftl 1 bits)) - 1) =? 0)
              then Z.land result (to_int16 (to_int16 (Z.shiftl 1 bits) - 1))
              else result in
            (wrap16 result, None)
        else (wrap16 result, None)
    end.

Definition parseRegister (token : Token) : Z * bool :=
  let ident := Value token in
  if EqualFold ident "R0" then (0, true)
  else if EqualFold ident "R1" then (1, true)
  else if EqualFold ident "R2" then (2, true)
  else if EqualFold ident "R3" then (3, true)
  else if EqualFold ident "R4" then (4, true)
  else if EqualFold ident "R5" then (5, true)
  else if EqualFold ident "R6" then (6, true)
  else if EqualFold ident "R7" then (7, true)
  else (0, false).

Record LabelRef : Type :=
  { refLabel : string; refAddr : Z; refSize : Z; refPosition : Cursor }.

Record FillRef : Type :=
  { fillLabel : string; fillAddr : Z; fillPosition : Cursor }.

(** *** The lexer: the loop over the runes of one line *)

Record LexState : Type :=
  { tokens : list Token;
    tokenStart : Z;
    tokenType : TokenType;
    lexErrs : list error;
    builder : list Z;
    lexCursor : Cursor }.

Definition withColumn (c : Cursor) (column : Z) : Cursor :=
  {| Line := Line c; Column := column; Byte := Byte c; Size := Size c;
     LineByte := LineByte c |}.

(** What the [switch] on the rune decides. *)
Record Decision : Type :=
  { dSkipRest : bool;   (* the [continue] of the whitespace case *)
    dFlush : bool;
    dSkip : bool;
    dType : TokenType;
    dErrs : list error }.

Definition decide_none (t : TokenType) : Decision :=
  {| dSkipRest := false; dFlush := false; dSkip := false; dType := t; dErrs := [] |}.

Definition decide_flush (t : TokenType) (skip : bool) : Decision :=
  {| dSkipRest := false; dFlush := true; dSkip := skip; dType := t; dErrs := [] |}.

Definition decide_errs (t : TokenType) (es : list error) : Decision :=
  {| dSkipRest := false; dFlush := false; dSkip := false; dType := t; dErrs := es |}.

Definition isNone (t : TokenType) : bool := tokenType_eqb t TOKEN_NONE.
Definition isString (t : TokenType) : bool := tokenType_eqb t TOKEN_STRING.

Definition classifyRune (lib : GoLibrary) (cursor : Cursor) (t : TokenType)
    (char : Z) : Decision :=
  let unexpected := UnexpectedCharacterError cursor char in
  if IsSpace lib char then
    if isNone t then
      {| dSkipRest := true; dFlush := false; dSkip := false; dType := t;
         dErrs := [] |}
    else if negb (isString t) then decide_flush t false
    else decide_none t
  else if char =? 59 then                              (* ; *)
    if isNone t then
      {| dSkipRest := false; dFlush := false; dSkip := true; dType := t;
         dErrs := [] |}
    else if negb (isString t) then decide_flush t true
    else decide_none t
  else if char =? 46 then                              (* . *)
    if isNone t then decide_none TOKEN_DIRECTIVE
    else if negb (isString t) then decide_errs t [unexpected]
    else decide_none t
  else if char =? 44 then                              (* , *)
    if negb (isString t) then decide_flush t false else decide_none t
  else if (char =? 120) || (char =? 88) then           (* x X *)
    if isNone t then decide_none TOKEN_LITERAL else decide_none t
  else if char =? 35 then                              (* # *)
    if isNone t then decide_none TOKEN_LITERAL
    else if negb (isString t) then decide_errs t [unexpected]
    else decide_none t
  else if char =? 34 then                              (* quote *)
    if isNone t then decide_none TOKEN_STRING
    else if isString t then decide_flush t false
    else decide_errs t [unexpected]
  else if IsDigit lib char then
    if isNone t then decide_none TOKEN_LITERAL else decide_none t
  else if char =? 45 then                              (* - *)
    if negb (tokenType_eqb t TOKEN_LITERAL) then decide_errs t [unexpected]
    else decide_none t
  else if char =? 95 then                              (* _ *)
    if isNone t then decide_none TOKEN_IDENT
    else if negb (tokenType_eqb t TOKEN_IDENT) && negb (isString t)
    then decide_errs t [unexpected]
    else decide_none t
  else if IsLetter lib char then
    decide_errs (if isNone t then TOKEN_IDENT else t)
      (if MaxASCII <? char then [OversizedCharacterError cursor] else [])
  else
    decide_errs t
      ((if MaxASCII <? char then [OversizedCharacterError cursor] else [])
       ++ (if negb (isString t) then [unexpected] else [])).

(** One iteration of the loop; the boolean is the [break] after a
    comment. *)
Definition lexRune (lib : GoLibrary) (lineLen : Z) (st : LexState)
    (column char : Z) : LexState * bool :=
  let cursor := withColumn (lexCursor st) (column + 1) in
  let start := if isNone (tokenType st) then Column cursor else tokenStart st in
  let d := classifyRune lib cursor (tokenType st) char in
  if dSkipRest d then
    ({| tokens := tokens st; tokenStart := start; tokenType := tokenType st;
        lexErrs := lexErrs st; builder := builder st; lexCursor := cursor |},
     false)
  else
    let t := dType d in
    let errs := lexErrs st ++ dErrs d in
    let '(flush, errs, text) :=
      if Column cursor =? lineLen then
        let errs :=
          if isString t then
            if negb (char =? 34) || (start =? Column cursor)
            then errs ++ [InvalidStringError cursor] else errs
          else
            if char =? 44
            then errs ++ [UnexpectedCharacterError cursor char] else errs in
        (true, errs, builder st ++ Utf8.encodeRune char)
      else if dFlush d && isString t && (char =? 34)
      then (dFlush d, errs, builder st ++ Utf8.encodeRune char)
      else (dFlush d, errs, builder st) in
    if flush then
      let toks :=
        if 0 <? Z.of_nat (length text) then
          tokens st ++
            [{| TType := t;
                Position := {| Line := Line cursor; Column := start;
                               Byte := Byte cursor + (start - 1);
                               Size := Z.of_nat (length text);
                               LineByte := Byte cursor |};
                Value := stringOfBytes text |}]
        else tokens st in
      ({| tokens := toks; tokenStart := start; tokenType := TOKEN_NONE;
          lexErrs := errs;
          builder := if 0 <? Z.of_nat (length text) then [] else text;
          lexCursor := cursor |}, dSkip d)
    else
      ({| tokens := tokens st; tokenStart := start; tokenType := t;
          lexErrs := errs;
          builder := if negb (dSkip d) then text ++ Utf8.encodeRune char else text;
          lexCursor := cursor |}, dSkip d).

Fixpoint lexRunes (lib : GoLibrary) (lineLen : Z) (st : LexState)
    (rs : list (Z * Z)) : LexState :=
  match rs with
  | [] => st
  | (column, char) :: rest =>
      let '(st, stop) := lexRune lib lineLen st column char in
      if stop then st else lexRunes lib lineLen st rest
  end.

(** The tokens of one line; the builder and the cursor are the ones the
    assembler carries from line to line. *)
Definition lexLine (lib : GoLibrary) (cursor : Cursor) (text : list Z)
    (line : list Z) : LexState :=
  lexRunes lib (Z.of_nat (length line))
    {| tokens := []; tokenStart := 0; tokenType := TOKEN_NONE; lexErrs := [];
       builder := text; lexCursor := cursor |}
    (Utf8.rangeString line 0 0).

(** *** The encoder *)

(** The state of [AssembleLC3Source] between two lines.  [image] is the
    slice [result] of the source, of length [1 << 16]; [text] is the
    [strings.Builder], which outlives the line. *)
Record AsmState : Type :=
  { labels : gmap string Z;
    labelRefs : list LabelRef;
    fillRefs : list FillRef;
    program : Z;
    image : Z -> Z;
    errs : list error;
    cursor : Cursor;
    text : list Z }.

(** [result[program] = value], with the bounds check of the slice. *)
Definition store (image : Z -> Z) (program value : Z) : result (Z -> Z) :=
  if (0 <=? program) && (program <? 65536) then Ok (upd image program value)
  else Panic "index out of range".

Definition count (operands : list Token) : Z := Z.of_nat (length operands).

Definition operand (operands : list Token) (i : nat) : result Token :=
  match nth_error operands i with
  | Some t => Ok t
  | None => Panic "index out of range"
  end.

Definition keywordPosition (keyword : option Token) : result Cursor :=
  match keyword with
  | Some k => Ok (Position k)
  | None => Panic "invalid memory address or nil pointer dereference"
  end.

Definition optErr (e : option error) : list error :=
  match e with
  | Some e => [e]
  | None => []
  end.

Fixpoint storeRunes (image : Z -> Z) (program : Z) (rs : list Z)
    : result ((Z -> Z) * Z) :=
  match rs with
  | [] => Ok (image, program)
  | c :: rest =>
      do image <- store image program (wrap16 c);
      storeRunes image (wrap32 (program + 1)) rest
  end.

Section Directives.

Variable lib : GoLibrary.
Variable labels_ : gmap string Z.
Variable keyword : option Token.
Variable operands : list Token.

(** The [switch directive] statement; it yields the program cursor, the
    image, the errors and the deferred fills. *)
Definition assembleDirective (directive : DirectiveType)
    (program : Z) (image : Z -> Z) (errs : list error) (fills : list FillRef)
    : result (Z * (Z -> Z) * list error * list FillRef) :=
  match directive with
  | DIRECTIVE_FILL =>
      if negb (count operands =? 1) then
        do pos <- keywordPosition keyword;
        Ok (program, image,
            errs ++ [InvalidNumArgumentsError pos 1 (count operands)], fills)
      else
        do op <- operand operands 0;
        match TType op with
        | TOKEN_LITERAL =>
            let '(literal, err) := parseLiteral op LITERAL_WORD in
            do image <- store image program literal;
            Ok (wrap32 (program + 1), image, errs ++ optErr err, fills)
        | TOKEN_IDENT =>
            match labels_ !! Value op with
            | Some addr =>
                do image <- store image program addr;
                Ok (wrap32 (program + 1), image, errs, fills)
            | None =>
                Ok (wrap32 (program + 1), image, errs,
                    fills ++ [{| fillLabel := Value op;
                                 fillAddr := wrap16 program;
                                 fillPosition := Position op |}])
            end
        | other =>
            Ok (wrap32 (program + 1), image,
                errs ++ [InvalidOperandError (Position op)
                           [TOKEN_LITERAL; TOKEN_IDENT] other], fills)
        end
  | DIRECTIVE_BLKW =>
      if negb (count operands =? 1) then
        do pos <- keywordPosition keyword;
        Ok (program, image,
            errs ++ [InvalidNumArgumentsError pos 1 (count operands)], fills)
      else
        do op <- operand operands 0;
        if negb (tokenType_eqb (TType op) TOKEN_LITERAL) then
          Ok (program, image,
              errs ++ [InvalidOperandError (Position op) [TOKEN_LITERAL] (TType op)],
              fills)
        else
          let '(literal, err) := parseLiteral op LITERAL_WORD in
          Ok (wrap32 (program + literal), image, errs ++ optErr err, fills)
  | DIRECTIVE_STRINGZ =>
      if negb (count operands =? 1) then
        do pos <- keywordPosition keyword;
        Ok (program, image,
            errs ++ [InvalidNumArgumentsError pos 1 (count operands)], fills)
      else
        do op <- operand operands 0;
        if negb (tokenType_eqb (TType op) TOKEN_STRING) then
          Ok (program, image,
              errs ++ [InvalidOperandError (Position op) [TOKEN_STRING] (TType op)],
              fills)
        else
          let '(s, errs) :=
            match Unquote lib (Value op) with
            | Some s => (s, errs)
            | None => (EmptyString, errs ++ [InvalidStringError (Position op)])
            end in
          do '(image, program) <- storeRunes image program (Utf8.runes (bytesZ s));
          do image <- store image program 0;
          Ok (wrap32 (program + 1), image, errs, fills)
  | DIRECTIVE_ORIG =>
      if negb (count operands =? 1) then
        do pos <- keywordPosition keyword;
        Ok (program, image,
            errs ++ [InvalidNumArgumentsError pos 1 (count operands)], fills)
      else
        do op <- operand operands 0;
        if negb (tokenType_eqb (TType op) TOKEN_LITERAL) then
          Ok (program, image,
              errs ++ [InvalidOperandError (Position op) [TOKEN_LITERAL] (TType op)],
              fills)
        else
          let '(literal, err) := parseLiteral op LITERAL_WORD in
          Ok (literal, image, errs ++ optErr err, fills)
  | _ => Ok (program, image, errs, fills)
  end.

End Directives.

(** The body of the loops [for i := 0; i < 2; i++] over register
    operands: an operand that is not an identifier is reported and
    passed over. *)
Definition registerOperand (op : Token) (acc : Z * list error) : Z * list error :=
  let '(scratch, errs) := acc in
  if negb (tokenType_eqb (TType op) TOKEN_IDENT) then
    (scratch, errs ++ [InvalidOperandError (Position op) [TOKEN_IDENT] (TType op)])
  else
    let '(reg, ok) := parseRegister op in
    let errs := if negb ok then errs ++ [InvalidRegisterError (Position op)] else errs in
    (Z.lor (wrap16 (Z.shiftl scratch 3)) (Z.land reg 7), errs).

Definition shl (scratch n : Z) : Z := wrap16 (Z.shiftl scratch n).

Definition branchFlags (instruction : InstructionType) : Z :=
  match instruction with
  | INSTRUCTION_BRn => 4
  | INSTRUCTION_BRz => 2
  | INSTRUCTION_BRp => 1
  | INSTRUCTION_BRnz => 6
  | INSTRUCTION_BRzp => 3
  | INSTRUCTION_BRnp => 5
  | INSTRUCTION_BRnzp => 7
  | _ => 0
  end.

Section Instructions.

Variable keyword : option Token.
Variable operands : list Token.
Variable program : Z.

Definition wrongCount (required : Z) (errs : list error) (refs : list LabelRef)
    : result (Z * list error * list LabelRef) :=
  do pos <- keywordPosition keyword;
  Ok (0, errs ++ [InvalidNumArgumentsError pos required (count operands)], refs).

Definition labelRef (op : Token) (size : Z) : LabelRef :=
  {| refLabel := Value op; refAddr := wrap16 program; refSize := size;
     refPosition := Position op |}.

(** The [switch instruction] statement; it yields [scratch], the errors
    and the deferred label references. *)
Definition assembleInstruction (instruction : InstructionType)
    (errs : list error) (refs : list LabelRef)
    : result (Z * list error * list LabelRef) :=
  match instruction with
  | INSTRUCTION_ADD | INSTRUCTION_AND =>
      if negb (count operands =? 3) then wrongCount 3 errs refs
      else
        let scratch := match instruction with
                       | INSTRUCTION_ADD => 1
                       | _ => 5
                       end in
        do op0 <- operand operands 0;
        do op1 <- operand operands 1;
        do op2 <- operand operands 2;
        let '(scratch, errs) :=
          registerOperand op1 (registerOperand op0 (scratch, errs)) in
        match TType op2 with
        | TOKEN_IDENT =>
            let '(reg, ok) := parseRegister op2 in
            let errs :=
              if negb ok then errs ++ [InvalidRegisterError (Position op2)]
              else errs in
            Ok (Z.lor (shl scratch 6) (Z.land reg 7), errs, refs)
        | TOKEN_LITERAL =>
            let '(literal, err) := parseLiteral op2 LITERAL_IMM5 in
            let errs := errs ++ optErr err in
            let scratch := Z.lor (shl scratch 1) 1 in
            Ok (Z.lor (shl scratch 5) (Z.land literal 0x1F), errs, refs)
        | other =>
            Ok (scratch,
                errs ++ [InvalidOperandError (Position op2)
                           [TOKEN_LITERAL; TOKEN_IDENT] other], refs)
        end
  | INSTRUCTION_BR | INSTRUCTION_BRn | INSTRUCTION_BRz | INSTRUCTION_BRp
  | INSTRUCTION_BRnz | INSTRUCTION_BRzp | INSTRUCTION_BRnp | INSTRUCTION_BRnzp =>
      if negb (count operands =? 1) then wrongCount 1 errs refs
      else
        let scratch := branchFlags instruction in
        do op0 <- operand operands 0;
        if negb (tokenType_eqb (TType op0) TOKEN_IDENT) then
          Ok (scratch,
              errs ++ [InvalidOperandError (Position op0) [TOKEN_IDENT] (TType op0)],
              refs)
        else Ok (shl scratch 9, errs, refs ++ [labelRef op0 LITERAL_PCOFFSET9])
  | INSTRUCTION_JMP | INSTRUCTION_JMPT =>
      if negb (count operands =? 1) then wrongCount 1 errs refs
      else
        do op0 <- operand operands 0;
        if negb (tokenType_eqb (TType op0) TOKEN_IDENT) then
          Ok (0,
              errs ++ [InvalidOperandError (Position op0) [TOKEN_IDENT] (TType op0)],
              refs)
        else
          let scratch := shl 12 6 in
          let '(reg, ok) := parseRegister op0 in
          let errs :=
            if negb ok then errs ++ [InvalidRegisterError (Position op0)]
            else errs in
          let scratch := shl (Z.lor scratch (Z.land reg 7)) 6 in
          Ok (match instruction with
              | INSTRUCTION_JMPT => Z.lor scratch 1
              | _ => scratch
              end, errs, refs)
  | INSTRUCTION_RET =>
      if negb (count operands =? 0) then
        do pos <- keywordPosition keyword;
        Ok (0xC1C0, errs ++ [InvalidNumArgumentsError pos 0 (count operands)], refs)
      else Ok (0xC1C0, errs, refs)
  | INSTRUCTION_RTT =>
      if negb (count operands =? 0) then
        do pos <- keywordPosition keyword;
        Ok (0xC1C1, errs ++ [InvalidNumArgumentsError pos 0 (count operands)], refs)
      else Ok (0xC1C1, errs, refs)
  | INSTRUCTION_JSR =>
      if negb (count operands =? 1) then wrongCount 1 errs refs
      else
        do op0 <- operand operands 0;
        if negb (tokenType_eqb (TType op0) TOKEN_IDENT) then
          Ok (0,
              errs ++ [InvalidOperandError (Position op0) [TOKEN_IDENT] (TType op0)],
              refs)
        else
          let scratch := Z.lor (shl 4 1) 1 in
          Ok (shl scratch 11, errs, refs ++ [labelRef op0 LITERAL_PCOFFSET11])
  | INSTRUCTION_JSRR =>
      if negb (count operands =? 1) then wrongCount 1 errs refs
      else
        do op0 <- operand operands 0;
        if negb (tokenType_eqb (TType op0) TOKEN_IDENT) then
          Ok (0,
              errs ++ [InvalidOperandError (Position op0)
                         [TOKEN_LITERAL; TOKEN_IDENT] (TType op0)], refs)
        else
          let scratch := shl 4 6 in
          let '(reg, ok) := parseRegister op0 in
          let errs :=
            if negb ok then errs ++ [InvalidRegisterError (Position op0)]
            else errs in
          Ok (shl (Z.lor scratch (Z.land reg 7)) 6, errs, refs)
  | INSTRUCTION_LD | INSTRUCTION_LDI | INSTRUCTION_LEA
  | INSTRUCTION_ST | INSTRUCTION_STI =>
      if negb (count operands =? 2) then wrongCount 2 errs refs
      else
        let scratch := match instruction with
                       | INSTRUCTION_LD => 2
                       | INSTRUCTION_LDI => 10
                       | INSTRUCTION_LEA => 14
                       | INSTRUCTION_ST => 3
                       | _ => 11
                       end in
        do op0 <- operand operands 0;
        do op1 <- operand operands 1;
        let '(scratch, errs) :=
          if negb (tokenType_eqb (TType op0) TOKEN_IDENT) then
            (scratch,
             errs ++ [InvalidOperandError (Position op0) [TOKEN_IDENT] (TType op0)])
          else
            let '(reg, ok) := parseRegister op0 in
            if ok then (Z.lor (shl scratch 3) (Z.land reg 7), errs)
            else (scratch, errs ++ [InvalidRegisterError (Position op0)]) in
        if negb (tokenType_eqb (TType op1) TOKEN_IDENT) then
          Ok (scratch,
              errs ++ [InvalidOperandError (Position op1) [TOKEN_IDENT] (TType op1)],
              refs)
        else Ok (shl scratch 9, errs, refs ++ [labelRef op1 LITERAL_PCOFFSET9])
  | INSTRUCTION_LDR | INSTRUCTION_STR =>
      if negb (count operands =? 3) then wrongCount 3 errs refs
      else
        let scratch := match instruction with
                       | INSTRUCTION_LDR => 6
                       | _ => 7
                       end in
        do op0 <- operand operands 0;
        do op1 <- operand operands 1;
        do op2 <- operand operands 2;
        let '(scratch, errs) :=
          registerOperand op1 (registerOperand op0 (scratch, errs)) in
        if negb (tokenType_eqb (TType op2) TOKEN_LITERAL) then
          Ok (scratch,
              errs ++ [InvalidOperandError (Position op2) [TOKEN_LITERAL] (TType op2)],
              refs)
        else
          let '(literal, err) := parseLiteral op2 LITERAL_OFFSET6 in
          Ok (Z.lor (shl scratch 6) (Z.land literal 0x3F), errs ++ optErr err, refs)
  | INSTRUCTION_NOT =>
      if negb (count operands =? 2) then wrongCount 2 errs refs
      else
        do op0 <- operand operands 0;
        do op1 <- operand operands 1;
        let '(scratch, errs) :=
          registerOperand op1 (registerOperand op0 (9, errs)) in
        Ok (Z.lor (shl scratch 6) 0x3F, errs, refs)
  | INSTRUCTION_RTI =>
      if negb (count operands =? 0) then wrongCount 0 errs refs
      else Ok (0x8000, errs, refs)
  | INSTRUCTION_TRAP | INSTRUCTION_GETC | INSTRUCTION_OUT | INSTRUCTION_PUTS
  | INSTRUCTION_IN | INSTRUCTION_PUTSP | INSTRUCTION_HALT =>
      let isTrap := match instruction with
                    | INSTRUCTION_TRAP => true
                    | _ => false
                    end in
      if isTrap && negb (count operands =? 1) then wrongCount 1 errs refs
      else
        do checked <-
          (if isTrap then
             do op0 <- operand operands 0;
             if negb (tokenType_eqb (TType op0) TOKEN_LITERAL) then
               Ok (Some (errs ++ [InvalidOperandError (Position op0)
                                    [TOKEN_LITERAL] (TType op0)]))
             else Ok None
           else Ok None);
        match checked with
        | Some errs => Ok (0, errs, refs)
        | None =>
            do errs <-
              (if negb isTrap && negb (count operands =? 0) then
                 do pos <- keywordPosition keyword;
                 Ok (errs ++ [InvalidNumArgumentsError pos 0 (count operands)])
               else Ok errs);
            do '(trap, errs) <-
              match instruction with
              | INSTRUCTION_GETC => Ok (0x20, errs)
              | INSTRUCTION_OUT => Ok (0x21, errs)
              | INSTRUCTION_PUTS => Ok (0x22, errs)
              | INSTRUCTION_IN => Ok (0x23, errs)
              | INSTRUCTION_PUTSP => Ok (0x24, errs)
              | INSTRUCTION_HALT => Ok (0x25, errs)
              | _ =>
                  do op0 <- operand operands 0;
                  let '(literal, err) := parseLiteral op0 LITERAL_TRAPVEC8 in
                  Ok (literal, errs ++ optErr err)
              end;
            do errs <-
              (if 0xFF <? trap then
                 do op0 <- operand operands 0;
                 Ok (errs ++ [OversizedLiteralError (Position op0) 0xFF trap])
               else Ok errs);
            Ok (Z.lor (shl 15 12) (Z.land trap 0xFF), errs, refs)
        end
  | INSTRUCTION_INVALID => Ok (0, errs, refs)
  end.

End Instructions.

(** *** The loop over the lines *)

(** How the body of [for scanner.Scan()] is left: to the next line, by
    the [break] of [.END], or by the [return] of the size check. *)
Inductive Flow : Type := NextLine | EndDirective | Returned.

Definition advance (c : Cursor) (lineLen : Z) : Cursor :=
  {| Line := Line c + 1; Column := Column c; Byte := Byte c + (lineLen + 1);
     Size := Size c; LineByte := LineByte c + (lineLen + 1) |}.

Definition withSize (c : Cursor) (size : Z) : Cursor :=
  {| Line := Line c; Column := Column c; Byte := Byte c; Size := size;
     LineByte := LineByte c |}.

Definition instruction_valid (i : InstructionType) : bool :=
  match i with
  | INSTRUCTION_INVALID => false
  | _ => true
  end.

Definition directive_valid (d : DirectiveType) : bool :=
  match d with
  | DIRECTIVE_INVALID => false
  | _ => true
  end.

(** The statement's keyword: the instruction, the directive, the keyword
    token and the operands that [tokens] from index [i] on denote. *)
Definition keywordAt (toks : list Token)
    : InstructionType * DirectiveType * option Token * list Token :=
  match toks with
  | [] => (INSTRUCTION_INVALID, DIRECTIVE_INVALID, None, [])
  | t :: rest =>
      let instruction := parseInstruction (Value t) in
      if instruction_valid instruction
      then (instruction, DIRECTIVE_INVALID, Some t, rest)
      else
        let directive := parseDirective (Value t) in
        if directive_valid directive
        then (INSTRUCTION_INVALID, directive, Some t, rest)
        else (INSTRUCTION_INVALID, DIRECTIVE_INVALID, None, [])
  end.

Section Lines.

Variable lib : GoLibrary.

(** The symbol table argument is [nil]. *)
Definition assembleLine (st : AsmState) (line : list Z) : result (AsmState * Flow) :=
  let lineLen := Z.of_nat (length line) in
  let lexed := lexLine lib (withSize (cursor st) lineLen) (text st) line in
  let allErrs := errs st ++ lexErrs lexed in
  let skipLine (labels' : gmap string Z) (errs' : list error) :=
    Ok ({| labels := labels'; labelRefs := labelRefs st; fillRefs := fillRefs st;
           program := program st; image := image st; errs := errs';
           cursor := advance (lexCursor lexed) lineLen;
           text := builder lexed |}, NextLine) in
  match tokens lexed with
  | [] => skipLine (labels st) allErrs
  | first :: others =>
      if Z.of_nat (length (errs st)) <? Z.of_nat (length allErrs)
      then skipLine (labels st) allErrs
      else
        let '(instruction, directive, keyword, operands) :=
          keywordAt (first :: others) in
        let isLabel := match keyword with
                       | None => true
                       | Some _ => false
                       end in
        let '(labels', errs') :=
          if isLabel then
            match labels st !! Value first with
            | None => (<[Value first := wrap16 (program st)]> (labels st), allErrs)
            | Some _ =>
                (labels st,
                 allErrs ++ [RedeclaredLabelError (Position first) (Value first)])
            end
          else (labels st, allErrs) in
        match isLabel, others with
        | true, [] => skipLine labels' errs'
        | _, _ =>
            let '(instruction, directive, keyword, operands) :=
              if isLabel then keywordAt others
              else (instruction, directive, keyword, operands) in
            let errs' :=
              match keyword with
              | None =>
                  errs' ++ [UnknownIdentifierError (Position first) (Value first)]
              | Some _ => errs'
              end in
            match directive with
            | DIRECTIVE_END =>
                do errs' <-
                  (if negb (count operands =? 0) then
                     do pos <- keywordPosition keyword;
                     Ok (errs' ++ [InvalidNumArgumentsError pos 0 (count operands)])
                   else Ok errs');
                Ok ({| labels := labels'; labelRefs := labelRefs st;
                       fillRefs := fillRefs st; program := program st;
                       image := image st; errs := errs';
                       cursor := lexCursor lexed; text := builder lexed |},
                    EndDirective)
            | _ =>
                do '(program', image', errs', fills') <-
                  assembleDirective lib labels' keyword operands directive
                    (program st) (image st) errs' (fillRefs st);
                do '(scratch, errs', refs') <-
                  assembleInstruction keyword operands program' instruction
                    errs' (labelRefs st);
                do '(image', program') <-
                  (if instruction_valid instruction then
                     do image' <- store image' program' scratch;
                     Ok (image', wrap32 (program' + 1))
                   else Ok (image', program'));
                if 65535 <=? program' then
                  Ok ({| labels := labels'; labelRefs := refs'; fillRefs := fills';
                         program := program'; image := image';
                         errs := errs' ++ [OversizedBinaryError];
                         cursor := lexCursor lexed; text := builder lexed |},
                      Returned)
                else
                  Ok ({| labels := labels'; labelRefs := refs'; fillRefs := fills';
                         program := program'; image := image'; errs := errs';
                         cursor := advance (lexCursor lexed) lineLen;
                         text := builder lexed |}, NextLine)
            end
        end
  end.

Fixpoint assembleLines (st : AsmState) (lines : list (list Z))
    : result (AsmState * Flow) :=
  match lines with
  | [] => Ok (st, NextLine)
  | line :: rest =>
      do '(st, flow) <- assembleLine st line;
      match flow with
      | NextLine => assembleLines st rest
      | _ => Ok (st, flow)
      end
  end.

End Lines.

(** *** The pass over the deferred references *)

(** One iteration of [for _, ref := range labelRefs]. *)
Definition resolveLabelRef (labels : gmap string Z)
    (acc : (Z -> Z) * list error) (ref : LabelRef) : (Z -> Z) * list error :=
  let '(image, errs) := acc in
  match labels !! refLabel ref with
  | None => (image, errs ++ [UnknownLabelError (refPosition ref) (refLabel ref)])
  | Some addr =>
      let limit := Z.shiftl 1 (refSize ref - 1) in
      let offset := addr - refAddr ref - 1 in
      if (offset <? - limit) || (limit <=? offset) then
        (image, errs ++ [OversizedLabelError (refPosition ref) limit offset])
      else
        let scratch := image (refAddr ref) in
        let scratch :=
          Z.lor scratch
            (Z.land (wrap16 (Z.land offset 0xFFFF))
               (wrap16 (wrap16 (Z.shiftl 1 (refSize ref)) - 1))) in
        (upd image (refAddr ref) scratch, errs)
  end.

Definition resolveLabelRefs (labels : gmap string Z) (refs : list LabelRef)
    (image : Z -> Z) (errs : list error) : (Z -> Z) * list error :=
  fold_left (resolveLabelRef labels) refs (image, errs).

(** One iteration of [for _, ref := range fillRefs]. *)
Definition resolveFillRef (labels : gmap string Z)
    (acc : (Z -> Z) * list error) (ref : FillRef) : (Z -> Z) * list error :=
  let '(image, errs) := acc in
  match labels !! fillLabel ref with
  | None => (image, errs ++ [UnknownLabelError (fillPosition ref) (fillLabel ref)])
  | Some addr => (upd image (fillAddr ref) addr, errs)
  end.

Definition resolveFillRefs (labels : gmap string Z) (refs : list FillRef)
    (image : Z -> Z) (errs : list error) : (Z -> Z) * list error :=
  fold_left (resolveFillRef labels) refs (image, errs).

Definition initialState : AsmState :=
  {| labels := ∅; labelRefs := []; fillRefs := []; program := 0;
     image := fun _ => 0; errs := [];
     cursor := {| Line := 1; Column := 0; Byte := 0; Size := 0; LineByte := 0 |};
     text := [] |}.

(** [AssembleLC3Source(input, nil)]: the image and the errors, or a
    panic. *)
Definition AssembleLC3Source (lib : GoLibrary) (input : string)
    : result ((Z -> Z) * list error) :=
  do '(st, flow) <- assembleLines lib initialState (scanLines (bytesZ input) []);
  match flow with
  | Returned => Ok (image st, errs st)
  | _ =>
      let '(image, errs) :=
        resolveLabelRefs (labels st) (labelRefs st) (image st) (errs st) in
      let '(image, errs) := resolveFillRefs (labels st) (fillRefs st) image errs in
      Ok (image, errs)
  end.

End Assembler.

(** * Vocabulary of the statements *)

Import Machine.

(** A 16-bit word, an octet. *)
Definition word (x : Z) : Prop := 0 <= x < 65536.
Definition octet (x : Z) : Prop := 0 <= x < 256.

(** The states a Go program can hold: every register and memory cell is a
    [uint16] and the keyboard delivers octets. *)
Record wellFormed (mc : Machine) : Prop :=
  { wf_registers : forall r, word (reg mc r);
    wf_memory : forall a, word (mem mc a);
    wf_program : word (Program (State mc));
    wf_procstat : word (Procstat (State mc));
    wf_stack : word (Stack (State mc));
    wf_keyboard : forall kbd, keyboardOf mc = Some kbd -> Forall octet (pending kbd) }.

(** The condition bits N, Z, P of the processor status word. *)
Definition condition (mc : Machine) : Z := Z.land (Procstat (State mc)) 7.

(** The condition bit that a value selects: N when bit 15 is set, Z when
    the value is zero, P otherwise. *)
Definition flagOf (value : Z) : Z :=
  if Z.testbit value 15 then FLAG_NEG
  else if value =? 0 then FLAG_ZERO
  else FLAG_POS.

(** The condition bit as [setFlags] selects it. *)
Definition codeFlag (value : Z) : Z :=
  if value =? 0 then FLAG_ZERO
  else if Z.shiftr value 15 =? 1 then FLAG_NEG
  else FLAG_POS.

Definition opcodeOf (instruction : Z) : Z := Z.shiftr instruction 12.
Definition destOf (instruction : Z) : Z := Z.land (Z.shiftr instruction 9) 7.

(** The opcodes that write a destination register: ALU, load and LEA. *)
Definition setsFlags (opcode : Z) : bool :=
  existsb (fun op => opcode =? op)
    [OP_ADD; OP_AND; OP_NOT; OP_LD; OP_LDI; OP_LDR; OP_LEA].

(** The address that a store instruction writes to, after the fetch:
    ST and STR compute it, STI reads it from memory. *)
Definition storeTarget (instruction : Z) (mc : Machine) : option Z :=
  let pcrel := wrap16 (Program (State mc)
                       + Encoding.SignExtend (Z.land instruction 0x1FF) 9) in
  if opcodeOf instruction =? OP_ST then Some pcrel
  else if opcodeOf instruction =? OP_STR then
    Some (wrap16 (reg mc (Z.land (Z.shiftr instruction 6) 7)
                  + Encoding.SignExtend (Z.land instruction 0x3F) 6))
  else if opcodeOf instruction =? OP_STI then
    match read None mc pcrel with
    | Ok (pointer, _) => Some pointer
    | Panic _ => None
    end
  else None.

(** A machine given by the registers and memory cells that are not zero. *)
Definition assign (cells : list (Z * Z)) : Z -> Z :=
  fold_left (fun f c => upd f (fst c) (snd c)) cells (fun _ => 0).

Definition machineOf (registers : list (Z * Z)) (program procstat stack : Z)
    (memory : list (Z * Z)) (devices : option DeviceHandler) : Machine :=
  {| Devices := devices;
     State := {| Registers := assign registers; Program := program;
                 Procstat := procstat; Stack := stack;
                 Memory := assign memory |} |}.

(** The machine of the repository's test "RTI Privilege Violation". *)
Definition rtiViolation : Machine :=
  machineOf [(6, 0xFE00); (7, 0xDEAD)] 0x3000 0x0400 0x2FFD
    [(0x0100, 0x6000); (0x3000, 0x8000)] None.

(** The machine of the repository's test "RTI", with the Z bit set in the
    processor status word that waits on the stack. *)
Definition rtiReturn : Machine :=
  machineOf [(6, 0x2FF9)] 0x3000 0x8100 0xFDFC
    [(0xFDFE, 0x0402); (0xFDFC, 0x6000); (0x3000, 0x8000)] None.

(** [AND R0, R1, R4] at 0x3000, with R0 = 0x000F, R1 = 0xFFFF and
    R4 = 0x00F0. *)
Definition andR4 : Machine :=
  machineOf [(0, 0x000F); (1, 0xFFFF); (4, 0x00F0)] 0x3000 0 0
    [(0x3000, 0x5044)] None.

(** [ADD R0, R1, R2] at 0x3000, the repository's test "ADD SR2 Negative". *)
Definition addNegative : Machine :=
  machineOf [(1, 0x0001); (2, 0x8001)] 0x3000 0 0 [(0x3000, 0x1042)] None.

(** [STR R0, R1, #0] at 0x3000 with R1 = 0xFE06: the store goes to the
    display data register; no device is attached. *)
Definition storeToDisplay : Machine :=
  machineOf [(0, 0x0041); (1, 0xFE06)] 0x3000 0 0 [(0x3000, 0x7040)] None.

(** The keyboard holding the text foobar. *)
Definition foobar : option DeviceHandler :=
  Some {| Keyboard := Some {| pending := [102; 111; 111; 98; 97; 114] |};
          Display := None |}.

(** The machine of the repository's test "Read Keyboard": R1 and R3 point
    at KBSR and KBDR, and the program is
    [LDR R0, R1, #0; LDR R2, R3, #0] at priority 7. *)
Definition keyboardRead : Machine :=
  machineOf [(0, 0xDEAD); (1, 0xFE00); (2, 0xDEAD); (3, 0xFE02)] 0x3000 0x0700 0
    [(0x3000, 0x6040); (0x3001, 0x64C0)] foobar.

(** The machine of the repository's test "Interrupt Low Priority
    Process": a branch at priority 1 while the keyboard has input. *)
Definition keyboardInterrupts : Machine :=
  machineOf [(6, 0xFE00)] 0x3000 0x0100 0x2FFD
    [(0x0180, 0x6000); (0x3000, 0x0000)] foobar.

(** The outcome of a step, or the machine itself after a panic. *)
Definition after (r : result Machine) (otherwise : Machine) : Machine :=
  match r with
  | Ok mc => mc
  | Panic _ => otherwise
  end.

Definition newline : string := String (ascii_of_nat 10) EmptyString.
Definition quote : string := String (ascii_of_nat 34) EmptyString.

(** [.ORIG 0xFFFE] followed by [.STRINGZ "ab"]. *)
Definition stringAtTheEnd : string :=
  (".ORIG 0xFFFE" ++ newline ++ ".STRINGZ " ++ quote ++ "ab" ++ quote)%string.

(** A literal token at the start of the first line. *)
Definition literalToken (text : string) : Assembler.Token :=
  {| Assembler.TType := Assembler.TOKEN_LITERAL;
     Assembler.Position :=
       {| Assembler.Line := 1; Assembler.Column := 1; Assembler.Byte := 0;
          Assembler.Size := strlen text; Assembler.LineByte := 0 |};
     Assembler.Value := text |}.

(** A binary image of 65 536 words, every word [0xFFFF]. *)
Definition allOnes : list Z := repeat 0xFF (Z.to_nat 131072).

(** The words of an octet stream, big-endian. *)
Definition wordAt (stream : list Z) (i : Z) : Z :=
  nth (Z.to_nat (2 * i)) stream 0 * 256 + nth (Z.to_nat (2 * i + 1)) stream 0.

(** The forward branch of the repository's test: [BR LABEL] at address 0,
    [LABEL] declared at address 3. *)
Definition branchLabels : gmap string Z := {[ "LABEL" := 3 ]}.

Definition branchRef : Assembler.LabelRef :=
  {| Assembler.refLabel := "LABEL"; Assembler.refAddr := 0;
     Assembler.refSize := Assembler.LITERAL_PCOFFSET9;
     Assembler.refPosition :=
       {| Assembler.Line := 1; Assembler.Column := 4; Assembler.Byte := 3;
          Assembler.Size := 5; Assembler.LineByte := 0 |} |}.

(** [.ORIG 0xFFFD] followed by [.STRINGZ "ab"]: the string and its
    terminator fill the last three words. *)
Definition stringThatFits : string :=
  (".ORIG 0xFFFD" ++ newline ++ ".STRINGZ " ++ quote ++ "ab" ++ quote)%string.

(** The image words at the given addresses and the errors of an
    assembly. *)
Definition assembled (lib : GoLibrary) (input : string) (addrs : list Z)
    : option (list Z * list Assembler.error) :=
  match Assembler.AssembleLC3Source lib input with
  | Ok (image, errs) => Some (map image addrs, errs)
  | Panic _ => None
  end.

(** A binary image of three words followed by a stray octet. *)
Definition truncatedImage : list Z := [0x12; 0x34; 0x56; 0x78; 0x9A; 0xBC; 0xDE].

(** The display after the octet [c] went through it. *)
Definition printed (w : Writer) (c : Z) : Writer :=
  {| capacity := capacity w; buffered := [];
     flushed := flushed w ++ buffered w ++ [c]; broken := broken w |}.


(** The panics of a store to the display data register. *)
Definition displayFault (why : string) : Prop :=
  why = "invalid memory address or nil pointer dereference"
  \/ why = "display write failed" \/ why = "display flush failed".

(** The machine of the repository's test "Read Keyboard" with a display
    of 16 octets that has printed nothing yet. *)
Definition console : option DeviceHandler :=
  Some {| Keyboard := Some {| pending := [102; 111; 111; 98; 97; 114] |};
          Display := Some {| capacity := 16; buffered := []; flushed := [];
                             broken := false |} |}.

Definition withConsole : Machine :=
  machineOf [(0, 0x0041); (1, 0xFE06)] 0x3000 0 0 [(0x3000, 0x7040)] console.



(** An address that is not one of the four device registers. *)
Definition plain (a : Z) : Prop :=
  a <> DEV_KBSR /\ a <> DEV_KBDR /\ a <> DEV_DSR /\ a <> DEV_DDR.

(** A user program at priority 1 with the N bit set, about to run
    [TRAP x25] at 0x3000; the trap table sends vector 0x25 to 0x0520. *)
Definition userProgram : Machine :=
  machineOf [(6, 0xFE00); (7, 0xDEAD)] 0x3001 0x0104 0x2FFD
    [(0x0025, 0x0520); (0x0100, 0x6000); (0x0180, 0x6100); (0x3000, 0xF025)]
    foobar.

(** [JSR LABEL] at address 0x3000 of an image, [LABEL] declared at
    0x2FF0: a backward reference of 11 bits. *)
Definition callLabels : gmap string Z := {[ "LABEL" := 0x2FF0 ]}.

Definition callRef : Assembler.LabelRef :=
  {| Assembler.refLabel := "LABEL"; Assembler.refAddr := 0x3000;
     Assembler.refSize := Assembler.LITERAL_PCOFFSET11;
     Assembler.refPosition :=
       {| Assembler.Line := 1; Assembler.Column := 5; Assembler.Byte := 4;
          Assembler.Size := 5; Assembler.LineByte := 0 |} |}.

Definition callImage : Z -> Z := upd (fun _ => 0) 0x3000 0x4800.

(** A library whose tables are empty beyond Latin-1 and which rejects
    every escape sequence; the inputs evaluated below do not reach it. *)
Definition latin1Library : GoLibrary :=
  {| unicode_White_Space := fun _ => false;
     unicode_Digit := fun _ => false;
     unicode_Letter := fun _ => false;
     strconv_unquoteEscaped := fun _ => None |}.

(** The string token ["ab"], quotes included, as the lexer delivers it. *)
Definition stringToken : Assembler.Token :=
  {| Assembler.TType := Assembler.TOKEN_STRING;
     Assembler.Position :=
       {| Assembler.Line := 1; Assembler.Column := 10; Assembler.Byte := 9;
          Assembler.Size := 4; Assembler.LineByte := 0 |};
     Assembler.Value := (quote ++ "ab" ++ quote)%string |}.

(** A deferred reference that the post-pass can resolve: its label is
    declared and the offset fits the field. *)
Definition resolvable (lbls : gmap string Z) (ref : Assembler.LabelRef) : Prop :=
  exists target,
    lbls !! Assembler.refLabel ref = Some target
    /\ - Z.shiftl 1 (Assembler.refSize ref - 1)
       <= target - Assembler.refAddr ref - 1
       < Z.shiftl 1 (Assembler.refSize ref - 1).

(** A deferred [.FILL] whose label is declared. *)
Definition fillable (lbls : gmap string Z) (ref : Assembler.FillRef) : Prop :=
  is_Some (lbls !! Assembler.fillLabel ref).

(** ** The output of [cmd/golc3-asm] *)

(** The octets of the output file, [binary.Write] of the
    65 536 image words in big-endian order. *)
Definition writeImage (image : Z -> Z) : list Z :=
  flat_map (fun i => [Z.land (Z.shiftr (image i) 8) 0xFF; Z.land (image i) 0xFF])
    (map Z.of_nat (seq 0 (Z.to_nat 65536))).

(** The state and the way out of an assembly, or the initial state after
    a panic. *)
Definition assemblyOf (r : result (Assembler.AsmState * Assembler.Flow))
    : Assembler.AsmState * Assembler.Flow :=
  match r with
  | Ok outcome => outcome
  | Panic _ => (Assembler.initialState, Assembler.Returned)
  end.


(** A program without a string: a loop that counts R0 down from 5. *)
Definition countdown : string :=
  (".ORIG 0x3000" ++ newline ++ "AND R0, R0, #0" ++ newline
   ++ "ADD R0, R0, #5" ++ newline ++ "LOOP ADD R0, R0, #-1" ++ newline
   ++ "BRp LOOP" ++ newline ++ "HALT" ++ newline ++ ".END")%string.

(** A trap handler in supervisor mode at priority 0: R6 is the supervisor
    stack pointer, the saved user stack pointer is 0xFDFC, and the two
    words on top of the user stack are 0x1111 and 0x0002. *)
Definition trapHandler : Machine :=
  machineOf [(6, 0x3000); (7, 0x3001)] 0x0520 0x8001 0xFDFC
    [(0x0180, 0x6100); (0xFDFC, 0x1111); (0xFDFE, 0x0002)] foobar.

(** ** [pkg/debugger] and the [break] command of [cmd/golc3] *)

Module Debugger.

(** The three kinds of watchpoint that the package and the command line
    use. *)
Inductive WatchpointType : Type := ReadWatch | WriteWatch | ReadWriteWatch.

(** The fields [Addr] and [Type] of a watchpoint are [WAddr] and [WType]
    here. *)
Record Watchpoint : Type := { WAddr : Z; WType : WatchpointType }.

Record Breakpoint : Type := { Addr : Z }.

(** The debugger without its files and symbol table.  The three handlers
    are the parameters of the hooks below. *)
Record Debugger : Type :=
  { Break : bool;
    Breakpoints : list Breakpoint;
    Watchpoints : list Watchpoint }.

Section Hooks.

Variable HandleBreak : Debugger -> Machine -> result (Debugger * Machine).
Variable HandleRead : Z -> Debugger -> Machine -> result (Debugger * Machine).
Variable HandleWrite : Z -> Debugger -> Machine -> result (Debugger * Machine).

(** [for _, breakpoint := range dbg.Breakpoints] with its [break]. *)
Fixpoint stepLoop (dbg : Debugger) (mc : Machine) (breakpoints : list Breakpoint)
    : result (Debugger * Machine) :=
  match breakpoints with
  | [] => Ok (dbg, mc)
  | breakpoint :: rest =>
      if Program (State mc) =? Addr breakpoint then HandleBreak dbg mc
      else stepLoop dbg mc rest
  end.

Definition Step (dbg : Debugger) (mc : Machine) : result (Debugger * Machine) :=
  if Break dbg then HandleBreak dbg mc
  else stepLoop dbg mc (Breakpoints dbg).

Fixpoint readLoop (addr : Z) (dbg : Debugger) (mc : Machine)
    (watchpoints : list Watchpoint) : result (Debugger * Machine) :=
  match watchpoints with
  | [] => Ok (dbg, mc)
  | watchpoint :: rest =>
      match WType watchpoint with
      | WriteWatch => readLoop addr dbg mc rest
      | _ =>
          if addr =? WAddr watchpoint then HandleRead addr dbg mc
          else readLoop addr dbg mc rest
      end
  end.

Definition Read (addr : Z) (dbg : Debugger) (mc : Machine)
    : result (Debugger * Machine) :=
  readLoop addr dbg mc (Watchpoints dbg).

Fixpoint writeLoop (addr : Z) (dbg : Debugger) (mc : Machine)
    (watchpoints : list Watchpoint) : result (Debugger * Machine) :=
  match watchpoints with
  | [] => Ok (dbg, mc)
  | watchpoint :: rest =>
      match WType watchpoint with
      | ReadWatch => writeLoop addr dbg mc rest
      | _ =>
          if addr =? WAddr watchpoint then HandleWrite addr dbg mc
          else writeLoop addr dbg mc rest
      end
  end.

Definition Write (addr : Z) (dbg : Debugger) (mc : Machine)
    : result (Debugger * Machine) :=
  writeLoop addr dbg mc (Watchpoints dbg).

End Hooks.

Definition setBreakpoints (dbg : Debugger) (breakpoints : list Breakpoint)
    : Debugger :=
  {| Break := Break dbg; Breakpoints := breakpoints;
     Watchpoints := Watchpoints dbg |}.

Definition oneOf (cmd : string) (names : list string) : bool :=
  existsb (String.eqb cmd) names.

(** [debugBreak]: what the command does to the debugger; its messages are
    left out.  [remove] moves the last breakpoint into the place of the
    one that goes. *)
Definition debugBreak (dbg : Debugger) (args : list string) : result Debugger :=
  let args := match args with
              | [] => ["l"]
              | _ => args
              end in
  match args with
  | [] => Panic "index out of range"
  | cmd :: args =>
      if oneOf cmd ["a"; "add"] then
        match args with
        | [arg] =>
            match Encoding.DecodeHex arg with
            | None => Ok dbg
            | Some addr =>
                if existsb (fun breakpoint => Addr breakpoint =? addr)
                     (Breakpoints dbg)
                then Ok dbg
                else Ok (setBreakpoints dbg
                           (Breakpoints dbg ++ [{| Addr := addr |}]))
            end
        | _ => Ok dbg
        end
      else if oneOf cmd ["l"; "ls"; "list"] then Ok dbg
      else if oneOf cmd ["r"; "rm"; "remove"] then
        match args with
        | [arg] =>
            match Strconv.ParseInt (bytesZ arg) 10 64 with
            | (_, Some _) => Ok dbg
            | (i, None) =>
                if (i <? 0) || (Z.of_nat (length (Breakpoints dbg)) <=? i)
                then Ok dbg
                else
                  match last (Breakpoints dbg) with
                  | Some moved =>
                      Ok (setBreakpoints dbg
                            (take (length (Breakpoints dbg) - 1)
                               (<[Z.to_nat i := moved]> (Breakpoints dbg))))
                  | None => Panic "index out of range"
                  end
            end
        | _ => Ok dbg
        end
      else if oneOf cmd ["clear"] then Ok (setBreakpoints dbg [])
      else
        match args with
        | [] => Panic "index out of range"
        | _ :: _ => Ok dbg
        end
  end.

(** The sub-commands that [debugBreak] knows. *)
Definition breakCommands : list string :=
  ["a"; "add"; "l"; "ls"; "list"; "r"; "rm"; "remove"; "clear"].

(** A watchpoint that the [Read] hook, the [Write] hook looks at. *)
Definition watchesReads (watchpoint : Watchpoint) : bool :=
  match WType watchpoint with
  | WriteWatch => false
  | _ => true
  end.

Definition watchesWrites (watchpoint : Watchpoint) : bool :=
  match WType watchpoint with
  | ReadWatch => false
  | _ => true
  end.

End Debugger.

(** ** Inputs of the later statements *)

(** A debugger with breakpoints at 0x3000 and 0x3005. *)
Definition twoBreakpoints : Debugger.Debugger :=
  {| Debugger.Break := false;
     Debugger.Breakpoints :=
       [{| Debugger.Addr := 0x3000 |}; {| Debugger.Addr := 0x3005 |}];
     Debugger.Watchpoints := [] |}.

(** The numbers below [n]. *)
Definition numbersBelow (n : nat) : list Z := map Z.of_nat (seq 0 n).

(** The word that the assembler builds for [ADD] from the numbers of the
    two registers and the low bits of the third operand, as
    [assembleInstruction] computes it. *)
Definition addWord (dest src1 : Z) (immediate : bool) (low : Z) : Z :=
  let scratch :=
    Z.lor (wrap16 (Z.shiftl
                     (Z.lor (wrap16 (Z.shiftl 1 3)) (Z.land dest 7)) 3))
      (Z.land src1 7) in
  if immediate
  then Z.lor (Assembler.shl (Z.lor (Assembler.shl scratch 1) 1) 5) low
  else Z.lor (Assembler.shl scratch 6) low.

(** The fields that the machine reads from an [ADD] word. *)
Definition decodesAsAdd (dest src1 : Z) (immediate : bool) (low : Z) : bool :=
  let w := addWord dest src1 immediate low in
  (Z.shiftr w 12 =? OP_ADD)
  && (Z.land (Z.shiftr w 9) 7 =? dest)
  && (Z.land (Z.shiftr w 6) 7 =? src1)
  && (Z.land (Z.shiftr w 5) 1 =? (if immediate then 1 else 0))
  && (if immediate then Z.land w 0x1F =? low else Z.land w 7 =? low).

(** The operands [R1], [R2] and [#-3] and the keyword of
    [ADD R1, R2, #-3]. *)
Definition identToken (text : string) : Assembler.Token :=
  {| Assembler.TType := Assembler.TOKEN_IDENT;
     Assembler.Position :=
       {| Assembler.Line := 1; Assembler.Column := 1; Assembler.Byte := 0;
          Assembler.Size := strlen text; Assembler.LineByte := 0 |};
     Assembler.Value := text |}.



(** The state of the assembler after [.ORIG 0xFFFE]. *)
Definition nearTheEnd : Assembler.AsmState :=
  {| Assembler.labels := ∅; Assembler.labelRefs := []; Assembler.fillRefs := [];
     Assembler.program := 0xFFFE; Assembler.image := fun _ => 0;
     Assembler.errs := [];
     Assembler.cursor :=
       {| Assembler.Line := 2; Assembler.Column := 12; Assembler.Byte := 13;
          Assembler.Size := 12; Assembler.LineByte := 13 |};
     Assembler.text := [] |}.


(** * Properties *)

Import Assembler.

(** ** Encoding *)

Lemma Ok_inj {A : Type} (a b : A) : Ok a = Ok b -> a = b.
Proof. intros H. injection H as H. exact H. Qed.

Lemma wrap16_word x : word (wrap16 x).
Proof. unfold word, wrap16. apply Z.mod_pos_bound. lia. Qed.

Lemma wrap16_small x : word x -> wrap16 x = x.
Proof. unfold word, wrap16. intros H. apply Z.mod_small. lia. Qed.

Lemma ZeroExtend_is_identity value bitcount :
  Encoding.ZeroExtend value bitcount = value.
Proof.
  unfold Encoding.ZeroExtend.
  destruct (Z.land (Z.shiftr value (wrap16 (bitcount - 1))) 1 =? 1); [|reflexivity].
  rewrite Z.shiftl_0_l. unfold wrap16. rewrite Z.mod_0_l by lia.
  apply Z.lor_0_r.
Qed.

(** C7: the specification has [ZeroExtend] clear the bits above
    [bitcount]; the code ORs the value with [0x0000 << bitcount] and
    returns it unchanged.
    At value [0x01FF] and bitcount 8 the result is [0x01FF], while the low
    eight bits are [0x00FF]. *)
Theorem ZeroExtend_keeps_high_bits :
  Encoding.ZeroExtend 0x01FF 8 = 0x01FF
  /\ Z.land 0x01FF (Z.shiftl 1 8 - 1) = 0x00FF.
Proof. rewrite ZeroExtend_is_identity. split; reflexivity. Qed.

(** ** The memory gates without a debugger *)

Lemma upd_same f i v : upd f i v i = v.
Proof. unfold upd. rewrite Z.eqb_refl. reflexivity. Qed.

Lemma upd_other f i v j : j <> i -> upd f i v j = f j.
Proof. unfold upd. intros H. apply Z.eqb_neq in H. rewrite H. reflexivity. Qed.

Ltac mc_simpl :=
  unfold reg, mem in *;
  cbn [setRegister setMemory setProgram setProcstat setStack setDevices
       setKeyboard setDisplay keyboardOf displayOf
       State Devices Registers Memory Program Procstat Stack] in *.

(** Evaluation of the closed integer expressions of a goal. *)
Ltac is_pos p :=
  lazymatch p with
  | xH => idtac
  | xO ?q => is_pos q
  | xI ?q => is_pos q
  end.

Ltac is_Zc z :=
  lazymatch z with
  | Z0 => idtac
  | Zpos ?p => is_pos p
  | Zneg ?p => is_pos p
  end.

Ltac eval2 op :=
  match goal with
  | |- context [op ?a ?b] =>
      is_Zc a; is_Zc b;
      let v := eval vm_compute in (op a b) in
      change (op a b) with v
  end.

Ltac eval1 op :=
  match goal with
  | |- context [op ?a] =>
      is_Zc a;
      let v := eval vm_compute in (op a) in
      change (op a) with v
  end.

Ltac eval_Z :=
  repeat first
    [ eval2 Z.add | eval2 Z.sub | eval2 Z.land | eval2 Z.lor | eval2 Z.lxor
    | eval2 Z.shiftl | eval2 Z.shiftr | eval2 Z.eqb | eval2 Z.ltb | eval2 Z.leb
    | eval1 wrap16 | eval2 Encoding.SignExtend | eval2 Encoding.ZeroExtend ];
  cbv beta iota.

Ltac addr_ne :=
  unfold DEV_KBSR, DEV_KBDR, DEV_DSR, DEV_DDR, MEMSPACE_INT_TABLE in *; lia.

Ltac settle :=
  repeat (progress (mc_simpl; cbn [bind negb andb orb Bool.eqb]; eval_Z;
                    rewrite ?upd_same;
                    try (rewrite upd_other; [|addr_ne]))).

(** Away from the device registers a read is a plain memory access. *)
Lemma read_plain mc addr :
  addr <> DEV_KBSR -> addr <> DEV_DSR -> addr <> DEV_DDR ->
  read None mc addr = Ok (mem mc addr, mc).
Proof.
  intros H1 H2 H3. unfold read.
  apply Z.eqb_neq in H1, H2, H3. rewrite H1, H2, H3. reflexivity.
Qed.

(** Away from the display and the keyboard data register a write is a
    plain store. *)
Lemma write_plain mc addr value :
  addr <> DEV_DDR -> addr <> DEV_KBDR ->
  write None mc addr value = Ok (setMemory mc addr value).
Proof.
  intros H1 H2. unfold write.
  apply Z.eqb_neq in H1, H2. rewrite H1, H2. reflexivity.
Qed.

(** ** The stack *)

(** C2, as the specification states it, fails: from R6 = 0xFE00 a push
    leaves R6 = 0xFDFE, not 0xFDFF, and the cell at 0xFDFF is untouched. *)
Lemma push_moves_two_words :
  match push None rtiViolation 0x0400 with
  | Ok mc =>
      reg mc 6 = 0xFDFE
      /\ reg mc 6 <> wrap16 (reg rtiViolation 6 - 1)
      /\ mem mc (wrap16 (reg rtiViolation 6 - 1)) <> 0x0400
  | Panic _ => False
  end.
Proof. vm_compute. repeat split; discriminate. Qed.

(** C2, amended: a push decrements R6 by exactly 2 (modulo 2^16) and then
    stores the value at mem[R6]; a pop reads mem[R6] and then increments R6
    by exactly 2.  Nothing else changes.  The stack addresses are taken
    outside the memory-mapped device registers, where the memory gates
    are plain accesses. *)
Theorem stack_discipline mc value :
  (wrap16 (reg mc 6 - 2) <> DEV_KBDR -> wrap16 (reg mc 6 - 2) <> DEV_DDR ->
   exists mc',
     push None mc value = Ok mc'
     /\ reg mc' 6 = wrap16 (reg mc 6 - 2)
     /\ mem mc' (reg mc' 6) = value
     /\ (forall r, r <> 6 -> reg mc' r = reg mc r)
     /\ (forall a, a <> reg mc' 6 -> mem mc' a = mem mc a))
  /\ (reg mc 6 <> DEV_KBSR -> reg mc 6 <> DEV_DSR -> reg mc 6 <> DEV_DDR ->
      exists mc',
        pop None mc = Ok (mem mc (reg mc 6), mc')
        /\ reg mc' 6 = wrap16 (reg mc 6 + 2)
        /\ (forall r, r <> 6 -> reg mc' r = reg mc r)
        /\ (forall a, mem mc' a = mem mc a)).
Proof.
  split.
  - intros Hk Hd. unfold push.
    eexists. split.
    + mc_simpl. rewrite upd_same. apply write_plain; assumption.
    + mc_simpl. rewrite upd_same. split; [reflexivity|]. split; [|split].
      * apply upd_same.
      * intros r Hr. apply upd_other. assumption.
      * intros a Ha. apply upd_other. assumption.
  - intros H1 H2 H3. unfold pop. rewrite read_plain by assumption.
    eexists. split; [reflexivity|].
    mc_simpl. split; [|split].
    + apply upd_same.
    + intros r Hr. apply upd_other. assumption.
    + reflexivity.
Qed.

Lemma stack_discipline_witness :
  (exists mc',
     push None rtiViolation 0x0400 = Ok mc'
     /\ reg mc' 6 = wrap16 (reg rtiViolation 6 - 2)
     /\ mem mc' (reg mc' 6) = 0x0400
     /\ (forall r, r <> 6 -> reg mc' r = reg rtiViolation r)
     /\ (forall a, a <> reg mc' 6 -> mem mc' a = mem rtiViolation a))
  /\ (exists mc',
        pop None rtiReturn = Ok (mem rtiReturn (reg rtiReturn 6), mc')
        /\ reg mc' 6 = wrap16 (reg rtiReturn 6 + 2)
        /\ (forall r, r <> 6 -> reg mc' r = reg rtiReturn r)
        /\ (forall a, mem mc' a = mem rtiReturn a)).
Proof.
  destruct (stack_discipline rtiViolation 0x0400) as [Hpush _].
  destruct (stack_discipline rtiReturn 0) as [_ Hpop].
  split.
  - apply Hpush; vm_compute; discriminate.
  - apply Hpop; vm_compute; discriminate.
Defined.

(** ** Single steps *)

(** The RTI case of the opcode switch. *)
Lemma execute_RTI mc :
  execute None 0x8000 mc =
  if getPrivilege mc then
    bind (pop None (setPrivilege mc false)) (fun popped =>
      bind (pop None (setProgram (snd popped) (fst popped))) (fun popped' =>
        Ok (setProcstat (snd popped') (fst popped'))))
  else raiseException None mc 0x00 (getPriority mc).
Proof.
  unfold execute. eval_Z. destruct (getPrivilege mc); [|reflexivity].
  destruct (pop None (setPrivilege mc false)) as [[program mc1]|]; [|reflexivity].
  cbn [bind fst snd].
  destruct (pop None (setProgram mc1 program)) as [[procstat mc2]|]; reflexivity.
Qed.

(** At priority 4 or above the keyboard does not interrupt. *)
Lemma keyboardInterrupt_masked mc :
  (getPriority mc <? 4) = false -> keyboardInterrupt None mc = Ok mc.
Proof.
  intros H. unfold keyboardInterrupt. destruct (keyboardOf mc); [|reflexivity].
  rewrite H, andb_false_r. reflexivity.
Qed.

(** Without a keyboard there is no interrupt. *)
Lemma keyboardInterrupt_absent mc :
  keyboardOf mc = None -> keyboardInterrupt None mc = Ok mc.
Proof. intros H. unfold keyboardInterrupt. rewrite H. reflexivity. Qed.

(** C1: the privilege violation of an RTI in user mode.  The processor
    status word [0x0400] is user mode, priority 4, condition bits clear.
    One step pushes it and the incremented program counter on the user
    stack, enters supervisor mode (R6 and the saved stack are exchanged)
    and continues at the handler found at [0x0100]; no other register and
    no other memory cell changes, and the devices are as before. *)
Theorem rti_privilege_violation mc :
  Procstat (State mc) = 0x0400 ->
  Program (State mc) = 0x3000 ->
  reg mc 6 = 0xFE00 ->
  Stack (State mc) = 0x2FFD ->
  mem mc 0x0100 = 0x6000 ->
  mem mc 0x3000 = 0x8000 ->
  exists mc',
    Step None mc = Ok mc'
    /\ getPrivilege mc' = true
    /\ getPriority mc' = 4
    /\ condition mc' = 0
    /\ Program (State mc') = 0x6000
    /\ reg mc' 6 = 0x2FFD
    /\ Stack (State mc') = 0xFDFC
    /\ mem mc' 0xFDFE = 0x0400
    /\ mem mc' 0xFDFC = 0x3001
    /\ (forall r, r <> 6 -> reg mc' r = reg mc r)
    /\ (forall a, a <> 0xFDFE -> a <> 0xFDFC -> mem mc' a = mem mc a)
    /\ Devices mc' = Devices mc.
Proof.
  intros Hps Hpc Hr6 Hstk Hvec Hins.
  destruct mc as [dev [regs pc ps stk memo]]. mc_simpl. subst.
  unfold Step, fetch. settle.
  rewrite read_plain; [|addr_ne..]. settle. rewrite Hins. settle.
  rewrite execute_RTI.
  unfold getPrivilege, getPriority. settle.
  unfold raiseException, push. settle. rewrite Hr6. settle.
  rewrite write_plain; [|addr_ne..]. settle.
  rewrite write_plain; [|addr_ne..]. settle.
  unfold setPriority. settle.
  unfold setPrivilege, getPrivilege. settle.
  unfold MEMSPACE_INT_TABLE. settle.
  rewrite read_plain; [|addr_ne..]. settle. rewrite Hvec.
  rewrite keyboardInterrupt_masked; [|unfold getPriority; settle; reflexivity].
  settle. eexists. split; [reflexivity|].
  - unfold getPrivilege, getPriority, condition. settle.
    repeat (split; [reflexivity|]). split; [|split].
    + intros r Hr. rewrite !upd_other by assumption. reflexivity.
    + intros a H1 H2. rewrite !upd_other by assumption. reflexivity.
    + reflexivity.
Qed.

Lemma rti_privilege_violation_witness :
  exists mc',
    Step None rtiViolation = Ok mc'
    /\ getPrivilege mc' = true
    /\ getPriority mc' = 4
    /\ condition mc' = 0
    /\ Program (State mc') = 0x6000
    /\ reg mc' 6 = 0x2FFD
    /\ Stack (State mc') = 0xFDFC
    /\ mem mc' 0xFDFE = 0x0400
    /\ mem mc' 0xFDFC = 0x3001
    /\ (forall r, r <> 6 -> reg mc' r = reg rtiViolation r)
    /\ (forall a, a <> 0xFDFE -> a <> 0xFDFC -> mem mc' a = mem rtiViolation a)
    /\ Devices mc' = Devices rtiViolation.
Proof. apply (rti_privilege_violation rtiViolation); reflexivity. Defined.

(** The register form of AND, for every instruction word: the second
    source register is the one numbered by bits 1..0. *)
Lemma execute_AND_register instruction mc :
  Z.shiftr instruction 12 = OP_AND ->
  (Z.land (Z.shiftr instruction 5) 1 =? 1) = false ->
  let dest := Z.land (Z.shiftr instruction 9) 7 in
  let src1 := Z.land (Z.shiftr instruction 6) 7 in
  let mc' := setRegister mc dest
               (Z.land (reg mc src1) (reg mc (Z.land instruction 3))) in
  execute None instruction mc = Ok (setFlags mc' (reg mc' dest)).
Proof.
  intros Hop Hform. unfold execute. rewrite Hop, Hform.
  unfold OP_AND, OP_ADD. eval_Z. reflexivity.
Qed.

(** C3: the specification has the register form of AND read SR2 from
    bits 2..0 of the instruction.  The code masks the field with [0x3]: for
    [AND R0, R1, R4] it reads R0 instead of R4.  With R0 = 0x000F,
    R1 = 0xFFFF and R4 = 0x00F0 the step leaves 0x000F in R0 (and sets P),
    where R1 & R4 is 0x00F0. *)
Theorem and_register_reads_two_bits :
  match Step None andR4 with
  | Ok mc =>
      reg mc 0 = Z.land (reg andR4 1) (reg andR4 0)
      /\ reg mc 0 <> Z.land (reg andR4 1) (reg andR4 4)
      /\ condition mc = flagOf (reg mc 0)
  | Panic _ => False
  end.
Proof. vm_compute. repeat split. discriminate. Qed.

(** ** The memory gates and the devices *)

(** Without a debugger a read never panics; it leaves the registers, the
    program counter, the processor status word, the saved stack and the
    display alone. *)
Lemma read_frame mc addr :
  exists value mc',
    read None mc addr = Ok (value, mc')
    /\ Registers (State mc') = Registers (State mc)
    /\ Program (State mc') = Program (State mc)
    /\ Procstat (State mc') = Procstat (State mc)
    /\ Stack (State mc') = Stack (State mc)
    /\ displayOf mc' = displayOf mc.
Proof.
  unfold read.
  destruct (addr =? DEV_KBSR).
  - destruct mc as [[[[kbd|] disp]|] st]; simpl;
      [destruct (ReadByte kbd) as [[key|] kbd']|..];
      destruct (negb (addr =? DEV_DDR));
      do 2 eexists; (split; [reflexivity|]); repeat split.
  - destruct (addr =? DEV_DSR).
    + destruct (displayOf mc) as [w|] eqn:Hw;
        [destruct (0 <? Available w)|];
        destruct (negb (addr =? DEV_DDR));
        do 2 eexists; (split; [reflexivity|]); repeat split;
        mc_simpl; assumption.
    + destruct (negb (addr =? DEV_DDR));
        do 2 eexists; (split; [reflexivity|]); repeat split.
Qed.

(** A write to the display data register without a display is a nil
    pointer dereference, whatever the debugger. *)
Lemma write_DDR_no_display dbg mc value :
  displayOf mc = None ->
  write dbg mc DEV_DDR value
  = Panic "invalid memory address or nil pointer dereference".
Proof. intros H. unfold write. rewrite Z.eqb_refl, H. reflexivity. Qed.

Lemma fetch_frame mc instruction mc1 :
  fetch None mc = Ok (instruction, mc1) ->
  Registers (State mc1) = Registers (State mc)
  /\ Procstat (State mc1) = Procstat (State mc)
  /\ Stack (State mc1) = Stack (State mc)
  /\ displayOf mc1 = displayOf mc.
Proof.
  unfold fetch. intros H.
  destruct (read_frame mc (Program (State mc)))
    as (v & mc' & Hr & Hregs & _ & Hps & Hstk & Hdisp).
  rewrite Hr in H. cbn [bind] in H. injection H as _ <-.
  mc_simpl. repeat split; assumption.
Qed.

(** C10: without a display endpoint every write to the display data
    register [0xFE06] panics: the write gate itself, a push whose
    decremented R6 is [0xFE06], and a step whose instruction is an ST, STI
    or STR that stores there.  Without a keyboard, resp. a display, a read
    of KBSR [0xFE00], resp. DSR [0xFE04], returns normally and leaves 0 in
    the status word, all other cells as they were. *)
Theorem display_absent mc :
  displayOf mc = None ->
  (forall dbg value, exists why, write dbg mc DEV_DDR value = Panic why)
  /\ (forall value,
        wrap16 (reg mc 6 - 2) = DEV_DDR ->
        exists why, push None mc value = Panic why)
  /\ (forall instruction mc1,
        fetch None mc = Ok (instruction, mc1) ->
        storeTarget instruction mc1 = Some DEV_DDR ->
        exists why, Step None mc = Panic why)
  /\ (keyboardOf mc = None ->
        read None mc DEV_KBSR = Ok (0, setMemory mc DEV_KBSR 0))
  /\ read None mc DEV_DSR = Ok (0, setMemory mc DEV_DSR 0).
Proof.
  intros Hdisp. split; [|split; [|split; [|split]]].
  - intros dbg value. eexists. apply write_DDR_no_display. assumption.
  - intros value Hsp. unfold push. mc_simpl. rewrite upd_same, Hsp.
    eexists. apply write_DDR_no_display. assumption.
  - intros instruction mc1 Hfetch Htarget.
    destruct (fetch_frame _ _ _ Hfetch) as (_ & _ & _ & Hdisp1).
    rewrite Hdisp in Hdisp1.
    unfold Step. rewrite Hfetch. cbn [bind].
    unfold storeTarget, opcodeOf in Htarget. unfold execute.
    destruct (Z.shiftr instruction 12 =? OP_ST) eqn:Hst.
    + apply Z.eqb_eq in Hst. rewrite Hst. unfold OP_ST, OP_ADD, OP_AND, OP_BR,
        OP_JMP, OP_JSR, OP_LD, OP_LDI, OP_LDR, OP_LEA, OP_NOT, OP_RTI. eval_Z.
      injection Htarget as ->.
      rewrite write_DDR_no_display by assumption. eexists. reflexivity.
    + destruct (Z.shiftr instruction 12 =? OP_STR) eqn:Hstr.
      * apply Z.eqb_eq in Hstr. rewrite Hstr. unfold OP_STR, OP_ST, OP_STI, OP_ADD,
          OP_AND, OP_BR, OP_JMP, OP_JSR, OP_LD, OP_LDI, OP_LDR, OP_LEA, OP_NOT,
          OP_RTI. eval_Z.
        injection Htarget as ->.
        rewrite write_DDR_no_display by assumption. eexists. reflexivity.
      * destruct (Z.shiftr instruction 12 =? OP_STI) eqn:Hsti; [|discriminate].
        apply Z.eqb_eq in Hsti. rewrite Hsti. unfold OP_STR, OP_ST, OP_STI, OP_ADD,
          OP_AND, OP_BR, OP_JMP, OP_JSR, OP_LD, OP_LDI, OP_LDR, OP_LEA, OP_NOT,
          OP_RTI. eval_Z.
        destruct (read_frame mc1
                    (wrap16 (Program (State mc1)
                             + Encoding.SignExtend (Z.land instruction 511) 9)))
          as (pointer & mc2 & Hr & _ & _ & _ & _ & Hdisp2).
        rewrite Hr in Htarget |- *. injection Htarget as ->. cbn [bind].
        rewrite write_DDR_no_display by congruence. eexists. reflexivity.
  - intros Hkbd. unfold read. rewrite Hkbd. reflexivity.
  - unfold read. rewrite Hdisp. reflexivity.
Qed.

Lemma display_absent_witness :
  (exists why, write None storeToDisplay DEV_DDR 0x41 = Panic why)
  /\ (exists why, Step None storeToDisplay = Panic why)
  /\ read None storeToDisplay DEV_KBSR = Ok (0, setMemory storeToDisplay DEV_KBSR 0)
  /\ read None storeToDisplay DEV_DSR = Ok (0, setMemory storeToDisplay DEV_DSR 0).
Proof.
  destruct (display_absent storeToDisplay eq_refl) as (Hw & _ & Hs & Hk & Hd).
  split; [|split; [|split]].
  - apply Hw.
  - apply (Hs 0x7040 (setProgram storeToDisplay 0x3001)); reflexivity.
  - apply Hk. reflexivity.
  - exact Hd.
Defined.

(** ** The condition bits *)

Lemma condition_setPrivilege mc privileged :
  condition (setPrivilege mc privileged) = condition mc.
Proof.
  unfold condition, setPrivilege.
  destruct (negb (Bool.eqb privileged (getPrivilege mc))); destruct privileged;
    mc_simpl.
  all: try (rewrite Z.land_lor_distr_l; change (Z.land 32768 7) with 0;
            apply Z.lor_0_r).
  all: rewrite <- Z.land_assoc; reflexivity.
Qed.

Lemma land_7_small v : 0 <= Z.land v 7 <= 7.
Proof.
  split.
  - apply Z.land_nonneg. right. lia.
  - change 7 with (Z.ones 3) at 1. rewrite Z.land_ones by lia.
    change (2 ^ 3) with 8. pose proof (Z.mod_pos_bound v 8). lia.
Qed.

Lemma condition_setPriority mc value mc' :
  setPriority mc value = Ok mc' -> condition mc' = condition mc.
Proof.
  unfold setPriority, condition. destruct (7 <? value); [discriminate|].
  intros H. injection H as <-. mc_simpl.
  rewrite Z.land_lor_distr_l, <- Z.land_assoc.
  change (Z.land 63743 7) with 7.
  pose proof (land_7_small value) as Hv.
  assert (Hcases : Z.land value 7 = 0 \/ Z.land value 7 = 1 \/ Z.land value 7 = 2
                   \/ Z.land value 7 = 3 \/ Z.land value 7 = 4 \/ Z.land value 7 = 5
                   \/ Z.land value 7 = 6 \/ Z.land value 7 = 7) by lia.
  destruct Hcases as [-> | [-> | [-> | [-> | [-> | [-> | [-> | ->]]]]]]];
    apply Z.lor_0_r.
Qed.

Lemma condition_setFlags mc value :
  condition (setFlags mc value) = codeFlag value.
Proof.
  unfold condition, setFlags, codeFlag.
  destruct (value =? 0); [|destruct (Z.shiftr value 15 =? 1)]; mc_simpl;
    rewrite Z.land_lor_distr_l, <- Z.land_assoc;
    change (Z.land 65528 7) with 0; rewrite Z.land_0_r; reflexivity.
Qed.

Lemma codeFlag_word value : word value -> codeFlag value = flagOf value.
Proof.
  unfold word, codeFlag, flagOf. intros H.
  rewrite Z.testbit_odd, Z.shiftr_div_pow2 by lia.
  change (2 ^ 15) with 32768.
  assert (Hq : value / 32768 = 0 \/ value / 32768 = 1).
  { assert (0 <= value / 32768 < 2).
    { split; [apply Z.div_pos; lia|apply Z.div_lt_upper_bound; lia]. }
    lia. }
  destruct (value =? 0) eqn:E.
  - apply Z.eqb_eq in E. subst. reflexivity.
  - destruct Hq as [-> | ->]; reflexivity.
Qed.

Lemma write_frame mc addr value mc' :
  write None mc addr value = Ok mc' ->
  Registers (State mc') = Registers (State mc)
  /\ Program (State mc') = Program (State mc)
  /\ Procstat (State mc') = Procstat (State mc)
  /\ Stack (State mc') = Stack (State mc)
  /\ keyboardOf mc' = keyboardOf mc.
Proof.
  unfold write. intros H.
  assert (Hgate : exists mc0,
             Ok mc' = Ok (if negb (addr =? DEV_KBDR) then setMemory mc0 addr value
                          else mc0)
             /\ State mc0 = State mc /\ keyboardOf mc0 = keyboardOf mc).
  { destruct (addr =? DEV_DDR).
    - destruct (displayOf mc) as [w|] eqn:Hw; [|discriminate].
      destruct (WriteByte w (Z.land value 255)) as [w1|]; [|discriminate].
      destruct (Flush w1) as [w2|]; [|discriminate].
      cbn [bind] in H. eexists. split; [symmetry; exact H|].
      destruct mc as [[[kbd disp]|] st]; [|discriminate]. split; reflexivity.
    - cbn [bind] in H. eexists. split; [symmetry; exact H|]. split; reflexivity. }
  destruct Hgate as (mc0 & Heq & Hst & Hkbd). injection Heq as ->.
  destruct (negb (addr =? DEV_KBDR)); mc_simpl; rewrite ?Hst;
    repeat split; assumption.
Qed.

Lemma push_frame mc value mc' :
  push None mc value = Ok mc' ->
  Procstat (State mc') = Procstat (State mc)
  /\ Program (State mc') = Program (State mc)
  /\ keyboardOf mc' = keyboardOf mc.
Proof.
  unfold push. intros H. apply write_frame in H.
  destruct H as (_ & Hpc & Hps & _ & Hkbd). mc_simpl.
  repeat split; assumption.
Qed.

Lemma raiseException_condition mc vector priority mc' :
  raiseException None mc vector priority = Ok mc' ->
  condition mc' = condition mc.
Proof.
  unfold raiseException. intros H.
  destruct (push None mc (Procstat (State mc))) as [mc1|] eqn:H1; [|discriminate].
  cbn [bind] in H.
  destruct (push None mc1 (Program (State mc1))) as [mc2|] eqn:H2; [|discriminate].
  cbn [bind] in H.
  destruct (setPriority mc2 priority) as [mc3|] eqn:H3; [|discriminate].
  cbn [bind] in H.
  destruct (read_frame (setPrivilege mc3 true) (Z.lor MEMSPACE_INT_TABLE vector))
    as (handler & mc4 & Hr & _ & _ & Hps & _).
  rewrite Hr in H. cbn [bind] in H. injection H as <-.
  apply push_frame in H1, H2. apply condition_setPriority in H3.
  destruct H1 as (Hp1 & _), H2 as (Hp2 & _).
  transitivity (condition (setPrivilege mc3 true)).
  - unfold condition. mc_simpl. rewrite Hps. reflexivity.
  - rewrite condition_setPrivilege, H3. unfold condition. congruence.
Qed.

Lemma keyboardInterrupt_condition mc mc' :
  keyboardInterrupt None mc = Ok mc' -> condition mc' = condition mc.
Proof.
  unfold keyboardInterrupt. destruct (keyboardOf mc) as [kbd|].
  - destruct (Peek1 kbd && (getPriority mc <? 4)).
    + apply raiseException_condition.
    + intros H. injection H as <-. reflexivity.
  - intros H. injection H as <-. reflexivity.
Qed.

Lemma wellFormed_setMemory mc a v :
  wellFormed mc -> word v -> wellFormed (setMemory mc a v).
Proof.
  intros [Hr Hm Hpc Hps Hstk Hk] Hv. split; mc_simpl; try assumption.
  intros b. unfold upd. destruct (b =? a); [assumption|apply Hm].
Qed.

Lemma wellFormed_setRegister mc r v :
  wellFormed mc -> word v -> wellFormed (setRegister mc r v).
Proof.
  intros [Hr Hm Hpc Hps Hstk Hk] Hv. split; mc_simpl; try assumption.
  intros b. unfold upd. destruct (b =? r); [assumption|apply Hr].
Qed.

Lemma wellFormed_setProgram mc v :
  wellFormed mc -> word v -> wellFormed (setProgram mc v).
Proof.
  intros [Hr Hm Hpc Hps Hstk Hk] Hv. split; mc_simpl; assumption.
Qed.

Lemma word_0 : word 0.
Proof. unfold word. lia. Qed.

Lemma word_0x8000 : word 0x8000.
Proof. unfold word. lia. Qed.

Lemma octet_word b : octet b -> word b.
Proof. unfold octet, word. lia. Qed.

(** A read returns a word and keeps the state well formed. *)
Lemma read_wellFormed mc addr value mc' :
  wellFormed mc -> read None mc addr = Ok (value, mc') ->
  word value /\ wellFormed mc'.
Proof.
  intros Hwf. unfold read.
  match goal with
  | |- (do mc0 <- Ok ?m; _) = _ -> _ =>
      assert (Hgate : wellFormed m); [|generalize dependent m]
  end.
  - destruct (addr =? DEV_KBSR).
    + destruct mc as [[[[kbd|] disp]|] st]; simpl;
        try (apply wellFormed_setMemory; [assumption|apply word_0]).
      pose proof (wf_keyboard _ Hwf kbd eq_refl) as Hk.
      unfold ReadByte. destruct kbd as [[|key rest]]; simpl in *.
      * apply wellFormed_setMemory; [assumption|apply word_0].
      * inversion Hk as [|? ? Hkey Hrest]; subst.
        apply wellFormed_setMemory; [|apply octet_word; assumption].
        apply wellFormed_setMemory; [|apply word_0x8000].
        destruct Hwf as [Hr Hm Hpc Hps Hstk Hkk].
        split; try assumption. simpl. intros kbd' [= <-]. assumption.
    + destruct (addr =? DEV_DSR); [|assumption].
      destruct (displayOf mc) as [w|]; [destruct (0 <? Available w)|];
        apply wellFormed_setMemory;
        first [assumption | apply word_0 | apply word_0x8000].
  - intros m Hm. cbn [bind]. destruct (negb (addr =? DEV_DDR));
      intros H; injection H as <- <-; (split; [|assumption]).
    + apply (wf_memory _ Hm).
    + apply word_0.
Qed.

Lemma fetch_wellFormed mc instruction mc1 :
  wellFormed mc -> fetch None mc = Ok (instruction, mc1) -> wellFormed mc1.
Proof.
  unfold fetch. intros Hwf H.
  destruct (read None mc (Program (State mc))) as [[v mc']|] eqn:Hr; [|discriminate].
  cbn [bind] in H. injection H as _ <-.
  apply wellFormed_setProgram; [|apply wrap16_word].
  apply (read_wellFormed _ _ _ _ Hwf Hr).
Qed.

Lemma setFlags_of_register mc dest value :
  word value ->
  let mc' := setRegister mc dest value in
  condition (setFlags mc' (reg mc' dest))
  = flagOf (reg (setFlags mc' (reg mc' dest)) dest).
Proof.
  intros Hv mc'. rewrite condition_setFlags.
  assert (Hreg : forall m v r, reg (setFlags m v) r = reg m r).
  { intros m v r. unfold setFlags.
    destruct (v =? 0); [|destruct (Z.shiftr v 15 =? 1)]; reflexivity. }
  rewrite Hreg. subst mc'. mc_simpl. rewrite upd_same.
  apply codeFlag_word. assumption.
Qed.

Lemma log2_word x : word x -> Z.log2 x < 16.
Proof.
  unfold word. intros H. destruct (Z.eq_dec x 0) as [->|Hne]; [reflexivity|].
  apply Z.log2_lt_pow2; lia.
Qed.

Lemma word_of_log2 x : 0 <= x -> Z.log2 x < 16 -> word x.
Proof.
  unfold word. intros H0 H. destruct (Z.eq_dec x 0) as [->|Hne]; [lia|].
  split; [assumption|]. change 65536 with (2 ^ 16). apply Z.log2_lt_pow2; lia.
Qed.

Lemma word_land a b : word a -> 0 <= b -> word (Z.land a b).
Proof.
  intros Ha Hb. pose proof (log2_word a Ha) as Hl. unfold word in Ha.
  apply word_of_log2.
  - apply Z.land_nonneg. left. lia.
  - pose proof (Z.log2_land a b ltac:(lia) Hb). lia.
Qed.

Lemma SignExtend_nonneg value bitcount : 0 <= value -> 0 <= Encoding.SignExtend value bitcount.
Proof.
  intros H. unfold Encoding.SignExtend.
  destruct (Z.land (Z.shiftr value (wrap16 (bitcount - 1))) 1 =? 1); [|assumption].
  apply Z.lor_nonneg. split; [assumption|apply wrap16_word].
Qed.

Lemma word_lxor a : word a -> word (Z.lxor a 0xFFFF).
Proof.
  intros Ha. pose proof (log2_word a Ha) as Hl. unfold word in Ha.
  apply word_of_log2.
  - apply Z.lxor_nonneg. lia.
  - pose proof (Z.log2_lxor a 65535 ltac:(lia) ltac:(lia)) as H.
    change (Z.log2 65535) with 15 in H. lia.
Qed.

Ltac opcodes :=
  unfold OP_ADD, OP_AND, OP_BR, OP_JMP, OP_JSR, OP_LD, OP_LDI, OP_LDR, OP_LEA,
    OP_NOT, OP_RTI, OP_ST, OP_STI, OP_STR, OP_TRAP, OP_RES in *.

(** After an ALU, load or LEA instruction the condition bits are those of
    the value in the destination register. *)
Lemma execute_flags instruction mc mc2 :
  wellFormed mc ->
  execute None instruction mc = Ok mc2 ->
  setsFlags (opcodeOf instruction) = true ->
  condition mc2 = flagOf (reg mc2 (destOf instruction)).
Proof.
  intros Hwf Hex Hs. unfold execute in Hex. unfold opcodeOf, setsFlags, destOf in *.
  pose proof (wf_registers _ Hwf) as Hregs.
  repeat match type of Hex with
  | (if Z.shiftr instruction 12 =? ?op then _ else _) = _ =>
      let E := fresh "E" in
      destruct (Z.shiftr instruction 12 =? op) eqn:E;
      [apply Z.eqb_eq in E; rewrite E in Hs; clear E|]
  end;
  try (vm_compute in Hs; discriminate).
  - (* ADD *)
    injection Hex as <-.
    destruct (Z.land (Z.shiftr instruction 5) 1 =? 1);
      apply setFlags_of_register, wrap16_word.
  - (* AND *)
    injection Hex as <-.
    destruct (Z.land (Z.shiftr instruction 5) 1 =? 1);
      apply setFlags_of_register, word_land; try apply Hregs.
    apply SignExtend_nonneg, Z.land_nonneg. right. lia.
  - (* LD *)
    destruct (read None mc _) as [[value mc']|] eqn:Hr; [|discriminate].
    cbn [bind] in Hex. injection Hex as <-.
    apply setFlags_of_register. apply (read_wellFormed _ _ _ _ Hwf Hr).
  - (* LDI *)
    destruct (read None mc _) as [[pointer mc']|] eqn:Hr; [|discriminate].
    cbn [bind] in Hex.
    destruct (read None mc' pointer) as [[value mc'']|] eqn:Hr'; [|discriminate].
    cbn [bind] in Hex. injection Hex as <-.
    apply setFlags_of_register.
    apply (read_wellFormed _ _ _ _ (proj2 (read_wellFormed _ _ _ _ Hwf Hr)) Hr').
  - (* LDR *)
    destruct (read None mc _) as [[value mc']|] eqn:Hr; [|discriminate].
    cbn [bind] in Hex. injection Hex as <-.
    apply setFlags_of_register. apply (read_wellFormed _ _ _ _ Hwf Hr).
  - (* LEA *)
    injection Hex as <-. apply setFlags_of_register, wrap16_word.
  - (* NOT *)
    injection Hex as <-. apply setFlags_of_register, word_lxor, Hregs.
  - (* reserved *)
    exfalso. cbn [existsb] in Hs. opcodes.
    repeat match goal with
    | E : (_ =? _) = false |- _ => rewrite E in Hs; clear E
    end.
    discriminate.
Qed.

Lemma pop_frame mc value mc' :
  pop None mc = Ok (value, mc') ->
  Procstat (State mc') = Procstat (State mc).
Proof.
  unfold pop. intros H.
  destruct (read_frame mc (reg mc 6)) as (v & mc1 & Hr & _ & _ & Hps & _).
  rewrite Hr in H. cbn [bind] in H. injection H as _ <-. exact Hps.
Qed.

(** Every other instruction, a return from interrupt in supervisor mode
    apart, leaves the condition bits alone. *)
Lemma execute_other instruction mc mc2 :
  execute None instruction mc = Ok mc2 ->
  setsFlags (opcodeOf instruction) = false ->
  ~ (opcodeOf instruction = OP_RTI /\ getPrivilege mc = true) ->
  condition mc2 = condition mc.
Proof.
  intros Hex Hs Hrti. unfold execute in Hex. unfold opcodeOf, setsFlags in *.
  repeat match type of Hex with
  | (if Z.shiftr instruction 12 =? ?op then _ else _) = _ =>
      let E := fresh "E" in
      destruct (Z.shiftr instruction 12 =? op) eqn:E;
      [apply Z.eqb_eq in E; rewrite E in Hs, Hrti; clear E|]
  end;
  try (vm_compute in Hs; discriminate).
  - (* BR *)
    destruct ((Z.land (Z.shiftr instruction 9) 7 =? 0)
              || (0 <? Z.land (Z.land (Z.shiftr instruction 9) 7)
                         (Z.land (Procstat (State mc)) 7)));
      injection Hex as <-; reflexivity.
  - (* JMP *)
    destruct (Z.land instruction 1 =? 1); [|injection Hex as <-; reflexivity].
    destruct (getPrivilege _).
    + apply Ok_inj in Hex. subst mc2.
      exact (condition_setPrivilege (setProgram mc _) false).
    + apply raiseException_condition in Hex. exact Hex.
  - (* JSR *)
    destruct (Z.land (Z.shiftr instruction 11) 1 =? 1);
      injection Hex as <-; reflexivity.
  - (* RTI *)
    destruct (getPrivilege mc).
    + exfalso. apply Hrti. split; reflexivity.
    + apply raiseException_condition in Hex. exact Hex.
  - (* ST *)
    apply write_frame in Hex. unfold condition.
    destruct Hex as (_ & _ & -> & _). reflexivity.
  - (* STI *)
    destruct (read_frame mc
                (wrap16 (Program (State mc)
                         + Encoding.SignExtend (Z.land instruction 511) 9)))
      as (pointer & mc' & Hr & _ & _ & Hps & _).
    rewrite Hr in Hex. cbn [bind] in Hex. apply write_frame in Hex.
    unfold condition. destruct Hex as (_ & _ & -> & _). rewrite Hps.
    reflexivity.
  - (* STR *)
    apply write_frame in Hex. unfold condition.
    destruct Hex as (_ & _ & -> & _). reflexivity.
  - (* TRAP *)
    match type of Hex with
    | (do x <- read None ?m ?a; _) = _ =>
        destruct (read_frame m a) as (handler & mc' & Hr & _ & _ & Hps & _)
    end.
    rewrite Hr in Hex. cbn [bind] in Hex. injection Hex as <-.
    transitivity (condition (setPrivilege mc true)).
    + unfold condition. mc_simpl. rewrite Hps. reflexivity.
    + apply condition_setPrivilege.
  - (* reserved *)
    apply raiseException_condition in Hex. exact Hex.
Qed.

(** A return from interrupt in supervisor mode loads the processor status
    word, condition bits included, from the stack. *)
Lemma execute_RTI_supervisor instruction mc mc2 :
  execute None instruction mc = Ok mc2 ->
  opcodeOf instruction = OP_RTI ->
  getPrivilege mc = true ->
  exists program mcA procstat mcB,
    pop None (setPrivilege mc false) = Ok (program, mcA)
    /\ pop None (setProgram mcA program) = Ok (procstat, mcB)
    /\ Procstat (State mc2) = procstat.
Proof.
  intros Hex Hop Hpriv. unfold execute in Hex. unfold opcodeOf in Hop.
  rewrite Hop, Hpriv in Hex. opcodes. revert Hex. eval_Z. intros Hex.
  destruct (pop None (setPrivilege mc false)) as [[program mcA]|] eqn:H1;
    [|discriminate].
  cbn [bind] in Hex.
  destruct (pop None (setProgram mcA program)) as [[procstat mcB]|] eqn:H2;
    [|discriminate].
  cbn [bind] in Hex. apply Ok_inj in Hex. subst mc2.
  exists program, mcA, procstat, mcB. split; [reflexivity|]. split; [exact H2|].
  reflexivity.
Qed.

Lemma assign_word cells :
  Forall (fun c => word (snd c)) cells -> forall a, word (assign cells a).
Proof.
  unfold assign. intros H.
  assert (Hgen : forall f, (forall a, word (f a)) ->
                   forall a, word (fold_left (fun f c => upd f (fst c) (snd c)) cells f a)).
  { induction H as [|c cells Hc _ IH]; intros f Hf a; [apply Hf|].
    cbn [fold_left]. apply IH. intros b. unfold upd.
    destruct (b =? fst c); [assumption|apply Hf]. }
  apply Hgen. intros a. apply word_0.
Qed.

Lemma wellFormed_machineOf registers program procstat stack memory :
  Forall (fun c => word (snd c)) registers ->
  Forall (fun c => word (snd c)) memory ->
  word program -> word procstat -> word stack ->
  wellFormed (machineOf registers program procstat stack memory None).
Proof.
  intros Hr Hm Hpc Hps Hstk. split; try assumption.
  - apply assign_word. assumption.
  - apply assign_word. assumption.
  - intros kbd H. discriminate.
Qed.

(** C4, as the specification states it, fails for a return from interrupt
    in supervisor mode: RTI is not an ALU, load or LEA opcode, and the step
    replaces the condition bits (clear before) by those of the processor
    status word on the stack (Z set). *)
Lemma rti_restores_condition_bits :
  match Step None rtiReturn with
  | Ok mc =>
      setsFlags (opcodeOf (mem rtiReturn (Program (State rtiReturn)))) = false
      /\ condition rtiReturn = 0
      /\ condition mc = FLAG_ZERO
  | Panic _ => False
  end.
Proof. vm_compute. repeat split. Qed.

(** C4, amended: a step that returns and whose opcode is ADD, AND, NOT, LD,
    LDI, LDR or LEA leaves exactly one of N, Z, P set in the processor
    status word: N if the value written to the destination register has
    bit 15 set, Z if it is zero, P otherwise.  A step with any other
    opcode, a return from interrupt in supervisor mode apart, leaves the
    condition bits as they were; RTI in supervisor mode sets them from the
    processor status word that it pops. *)
Theorem step_condition_bits mc mc' :
  wellFormed mc ->
  Step None mc = Ok mc' ->
  exists instruction mc1 mc2,
    fetch None mc = Ok (instruction, mc1)
    /\ execute None instruction mc1 = Ok mc2
    /\ (setsFlags (opcodeOf instruction) = true ->
        condition mc' = flagOf (reg mc2 (destOf instruction))
        /\ (condition mc' = FLAG_NEG \/ condition mc' = FLAG_ZERO
            \/ condition mc' = FLAG_POS))
    /\ (setsFlags (opcodeOf instruction) = false ->
        ~ (opcodeOf instruction = OP_RTI /\ getPrivilege mc = true) ->
        condition mc' = condition mc)
    /\ (opcodeOf instruction = OP_RTI -> getPrivilege mc = true ->
        exists program mcA procstat mcB,
          pop None (setPrivilege mc1 false) = Ok (program, mcA)
          /\ pop None (setProgram mcA program) = Ok (procstat, mcB)
          /\ condition mc' = Z.land procstat 7).
Proof.
  intros Hwf Hstep. unfold Step in Hstep.
  destruct (fetch None mc) as [[instruction mc1]|] eqn:Hfetch; [|discriminate].
  cbn [bind] in Hstep.
  destruct (execute None instruction mc1) as [mc2|] eqn:Hex; [|discriminate].
  cbn [bind] in Hstep.
  destruct (keyboardInterrupt None mc2) as [mc3|] eqn:Hkbd; [|discriminate].
  cbn [bind] in Hstep. apply Ok_inj in Hstep. subst mc3.
  apply keyboardInterrupt_condition in Hkbd.
  destruct (fetch_frame _ _ _ Hfetch) as (_ & Hps & _ & _).
  assert (Hpriv : getPrivilege mc1 = getPrivilege mc).
  { unfold getPrivilege. rewrite Hps. reflexivity. }
  assert (Hcond : condition mc1 = condition mc).
  { unfold condition. rewrite Hps. reflexivity. }
  exists instruction, mc1, mc2. split; [reflexivity|]. split; [exact Hex|].
  split; [|split].
  - intros Hs. rewrite Hkbd.
    rewrite (execute_flags _ _ _ (fetch_wellFormed _ _ _ Hwf Hfetch) Hex Hs).
    split; [reflexivity|]. unfold flagOf.
    destruct (Z.testbit _ 15); [|destruct (_ =? 0)]; auto.
  - intros Hs Hrti. rewrite Hkbd, <- Hcond.
    apply (execute_other _ _ _ Hex Hs). rewrite Hpriv. exact Hrti.
  - intros Hop Hp. rewrite <- Hpriv in Hp.
    destruct (execute_RTI_supervisor _ _ _ Hex Hop Hp)
      as (program & mcA & procstat & mcB & H1 & H2 & H3).
    exists program, mcA, procstat, mcB. split; [exact H1|]. split; [exact H2|].
    rewrite Hkbd. unfold condition. rewrite H3. reflexivity.
Qed.

Lemma wellFormed_addNegative : wellFormed addNegative.
Proof.
  apply wellFormed_machineOf; repeat constructor; cbn [snd]; unfold word; lia.
Qed.

Lemma step_condition_bits_witness :
  exists instruction mc1 mc2,
    fetch None addNegative = Ok (instruction, mc1)
    /\ execute None instruction mc1 = Ok mc2
    /\ (setsFlags (opcodeOf instruction) = true ->
        condition (after (Step None addNegative) addNegative)
        = flagOf (reg mc2 (destOf instruction))
        /\ (condition (after (Step None addNegative) addNegative) = FLAG_NEG
            \/ condition (after (Step None addNegative) addNegative) = FLAG_ZERO
            \/ condition (after (Step None addNegative) addNegative) = FLAG_POS))
    /\ (setsFlags (opcodeOf instruction) = false ->
        ~ (opcodeOf instruction = OP_RTI /\ getPrivilege addNegative = true) ->
        condition (after (Step None addNegative) addNegative)
        = condition addNegative)
    /\ (opcodeOf instruction = OP_RTI -> getPrivilege addNegative = true ->
        exists program mcA procstat mcB,
          pop None (setPrivilege mc1 false) = Ok (program, mcA)
          /\ pop None (setProgram mcA program) = Ok (procstat, mcB)
          /\ condition (after (Step None addNegative) addNegative)
             = Z.land procstat 7).
Proof.
  apply (step_condition_bits addNegative (after (Step None addNegative) addNegative)).
  - exact wellFormed_addNegative.
  - reflexivity.
Defined.

(** ** Loading a binary image *)

Lemma loadLoop_pair b0 b1 rest index memory :
  loadLoop (b0 :: b1 :: rest) index memory
  = if index <? 65535
    then loadLoop rest (index + 1) (upd memory index (b0 * 256 + b1))
    else (memory, None).
Proof. reflexivity. Qed.

(** The loop stores the words of the stream from [index] on, and nothing
    at address 65535 or above. *)
Lemma loadLoop_spec n : forall reader index memory,
  (length reader <= n)%nat -> 0 <= index ->
  (forall a, a < index -> fst (loadLoop reader index memory) a = memory a)
  /\ (forall a, 65535 <= a -> fst (loadLoop reader index memory) a = memory a)
  /\ (forall k, 0 <= k -> index + k < 65535 ->
        (Z.to_nat (2 * k + 1) < length reader)%nat ->
        fst (loadLoop reader index memory) (index + k)
        = nth (Z.to_nat (2 * k)) reader 0 * 256
          + nth (Z.to_nat (2 * k + 1)) reader 0)
  /\ (Nat.even (length reader) = true -> snd (loadLoop reader index memory) = None).
Proof.
  induction n as [|n IH]; intros reader index memory Hlen Hindex.
  - destruct reader; [|cbn [length] in Hlen; lia].
    cbn [loadLoop]. destruct (index <? 65535); cbn [fst snd length];
      repeat split; intros; try reflexivity; lia.
  - destruct reader as [|b0 [|b1 rest]].
    + cbn [loadLoop]. destruct (index <? 65535); cbn [fst snd length];
        repeat split; intros; try reflexivity; lia.
    + cbn [loadLoop]. destruct (index <? 65535); cbn [fst snd length];
        repeat split; intros; try reflexivity; try lia; discriminate.
    + rewrite loadLoop_pair. destruct (index <? 65535) eqn:Hlt.
      * apply Z.ltb_lt in Hlt. cbn [length] in Hlen.
        destruct (IH rest (index + 1) (upd memory index (b0 * 256 + b1))
                    ltac:(lia) ltac:(lia)) as (Hlow & Hhigh & Hword & Herr).
        split; [|split; [|split]].
        -- intros a Ha. rewrite Hlow by lia. apply upd_other. lia.
        -- intros a Ha. rewrite Hhigh by lia. apply upd_other. lia.
        -- intros k Hk Hk' Hk''. cbn [length] in Hk''.
           destruct (Z.eq_dec k 0) as [->|Hne].
           ++ rewrite Z.add_0_r, Hlow by lia. rewrite upd_same. reflexivity.
           ++ replace (index + k) with (index + 1 + (k - 1)) by lia.
              rewrite Hword by lia.
              replace (Z.to_nat (2 * k)) with (S (S (Z.to_nat (2 * (k - 1))))) by lia.
              replace (Z.to_nat (2 * k + 1))
                with (S (S (Z.to_nat (2 * (k - 1) + 1)))) by lia.
              reflexivity.
        -- intros Heven. apply Herr. exact Heven.
      * apply Z.ltb_ge in Hlt. cbn [fst snd].
        repeat split; intros; try reflexivity; lia.
Qed.

(** For every stream of 131 072 octets [LoadBin] reports no error, stores
    word [i] of the stream at address [i] for [i] up to 65 534, and
    leaves the zero of [Reset] at address 65 535. *)
Lemma LoadBin_image mc stream :
  length stream = Z.to_nat 131072 ->
  snd (LoadBin mc stream) = None
  /\ (forall i, 0 <= i < 65535 -> mem (fst (LoadBin mc stream)) i = wordAt stream i)
  /\ mem (fst (LoadBin mc stream)) 65535 = 0.
Proof.
  intros Hlen. unfold LoadBin.
  destruct (loadLoop_spec (length stream) stream 0 (Memory (Reset (State mc)))
              (Nat.le_refl _) (Z.le_refl 0)) as (_ & Hhigh & Hword & Herr).
  destruct (loadLoop stream 0 (Memory (Reset (State mc)))) as [memory err].
  cbn [fst snd] in *. unfold mem. cbn [State Memory]. split; [|split].
  - apply Herr. rewrite Hlen. reflexivity.
  - intros i Hi. specialize (Hword i ltac:(lia) ltac:(lia)).
    rewrite Z.add_0_l in Hword. unfold wordAt. apply Hword. rewrite Hlen. lia.
  - rewrite Hhigh by lia. reflexivity.
Qed.

(** C9: the specification has a binary image of 131 072 octets fill
    every address up to 65 535.  The loop of [LoadBin] runs while
    [index < (1<<16)-1]:
    for the image whose words are all [0xFFFF] the last address keeps the
    zero of the reset. *)
Theorem LoadBin_drops_last_word :
  length allOnes = Z.to_nat 131072
  /\ snd (LoadBin rtiViolation allOnes) = None
  /\ mem (fst (LoadBin rtiViolation allOnes)) 65534 = wordAt allOnes 65534
  /\ wordAt allOnes 65535 = 0xFFFF
  /\ mem (fst (LoadBin rtiViolation allOnes)) 65535 = 0.
Proof.
  assert (Hlen : length allOnes = Z.to_nat 131072) by apply repeat_length.
  destruct (LoadBin_image rtiViolation allOnes Hlen) as (Herr & Hword & Hlast).
  split; [exact Hlen|]. split; [exact Herr|]. split; [apply Hword; lia|].
  split; [vm_compute; reflexivity|exact Hlast].
Qed.

(** ** The assembler *)

(** C8: the specification has the assembler return for every source
    text.  A [.STRINGZ] that starts just below the end of the image writes past
    it: for [.ORIG 0xFFFE] followed by [.STRINGZ "ab"] the terminator
    goes to index 65 536 of the 65 536-word slice, and the run panics
    instead of reporting [OversizedBinary]. *)
Theorem stringz_runs_off_the_image lib :
  Assembler.AssembleLC3Source lib stringAtTheEnd = Panic "index out of range".
Proof. vm_compute. reflexivity. Qed.


Lemma low_bits offset size :
  size = LITERAL_PCOFFSET9 \/ size = LITERAL_PCOFFSET11 ->
  Z.land (wrap16 (Z.land offset 0xFFFF)) (wrap16 (wrap16 (Z.shiftl 1 size) - 1))
  = offset mod 2 ^ size.
Proof.
  intros Hsize.
  change 0xFFFF with (Z.ones 16). rewrite Z.land_ones by lia.
  unfold wrap16 at 1. change 65536 with (2 ^ 16). rewrite Z.mod_mod by lia.
  destruct Hsize as [-> | ->].
  - change (wrap16 (wrap16 (Z.shiftl 1 LITERAL_PCOFFSET9) - 1)) with (Z.ones 9).
    rewrite Z.land_ones by lia. apply Z.mod_mod_divide.
    exists (2 ^ 7). reflexivity.
  - change (wrap16 (wrap16 (Z.shiftl 1 LITERAL_PCOFFSET11) - 1)) with (Z.ones 11).
    rewrite Z.land_ones by lia. apply Z.mod_mod_divide.
    exists (2 ^ 5). reflexivity.
Qed.

(** C5: one iteration of the post-pass over the deferred PC-relative
    references, for a field of 9 or 11 bits.  An undeclared label is
    reported as [UnknownLabel].  Otherwise, with
    [offset = target - (ref_addr + 1)], [OversizedLabel] is reported
    exactly when [offset < -2^(size-1)] or [offset >= 2^(size-1)], and in
    the other case the low [size] bits of [offset] are OR-ed into the
    image word at [ref_addr]; nothing else changes.  The first conjunct
    ties the iteration to the loop: the references before it produce its
    input, the references after it start from its output. *)
Theorem label_reference_resolution labels ref image errs :
  refSize ref = LITERAL_PCOFFSET9 \/ refSize ref = LITERAL_PCOFFSET11 ->
  (forall before rest image0 errs0,
      resolveLabelRefs labels before image0 errs0 = (image, errs) ->
      resolveLabelRefs labels (before ++ ref :: rest) image0 errs0
      = resolveLabelRefs labels rest
          (fst (resolveLabelRef labels (image, errs) ref))
          (snd (resolveLabelRef labels (image, errs) ref)))
  /\ match labels !! refLabel ref with
     | None =>
         resolveLabelRef labels (image, errs) ref
         = (image, errs ++ [UnknownLabelError (refPosition ref) (refLabel ref)])
     | Some target =>
         let offset := target - (refAddr ref + 1) in
         let limit := 2 ^ (refSize ref - 1) in
         (offset < - limit \/ limit <= offset ->
          resolveLabelRef labels (image, errs) ref
          = (image, errs ++ [OversizedLabelError (refPosition ref) limit offset]))
         /\ (- limit <= offset < limit ->
             resolveLabelRef labels (image, errs) ref
             = (upd image (refAddr ref)
                  (Z.lor (image (refAddr ref)) (offset mod 2 ^ refSize ref)),
                errs))
     end.
Proof.
  intros Hsize. split.
  - intros before rest image0 errs0 Hbefore. unfold resolveLabelRefs in *.
    rewrite fold_left_app, Hbefore. cbn [fold_left].
    destruct (resolveLabelRef labels (image, errs) ref). reflexivity.
  - unfold resolveLabelRef. destruct (labels !! refLabel ref) as [target|]; [|reflexivity].
    cbv zeta. rewrite low_bits by assumption.
    replace (target - refAddr ref - 1) with (target - (refAddr ref + 1)) by lia.
    assert (Hlimit : Z.shiftl 1 (refSize ref - 1) = 2 ^ (refSize ref - 1)).
    { destruct Hsize as [-> | ->]; reflexivity. }
    rewrite Hlimit. split.
    + intros Hout.
      destruct ((target - (refAddr ref + 1) <? - 2 ^ (refSize ref - 1))
                || (2 ^ (refSize ref - 1) <=? target - (refAddr ref + 1))) eqn:E;
        [reflexivity|].
      apply orb_false_iff in E. destruct E as [E1 E2].
      apply Z.ltb_ge in E1. apply Z.leb_gt in E2. lia.
    + intros Hin.
      destruct ((target - (refAddr ref + 1) <? - 2 ^ (refSize ref - 1))
                || (2 ^ (refSize ref - 1) <=? target - (refAddr ref + 1))) eqn:E;
        [|reflexivity].
      apply orb_true_iff in E. destruct E as [E | E];
        [apply Z.ltb_lt in E | apply Z.leb_le in E]; lia.
Qed.

Lemma land_pow2 v k :
  0 <= k -> Z.land v (2 ^ k) = if Z.testbit v k then 2 ^ k else 0.
Proof.
  intros Hk. apply Z.bits_inj'. intros n Hn.
  rewrite Z.land_spec, Z.pow2_bits_eqb by lia.
  destruct (Z.eqb_spec k n) as [<-|Hne].
  - rewrite andb_true_r. destruct (Z.testbit v k).
    + rewrite Z.pow2_bits_true by lia. reflexivity.
    + rewrite Z.bits_0. reflexivity.
  - rewrite andb_false_r. destruct (Z.testbit v k).
    + rewrite Z.pow2_bits_false by lia. reflexivity.
    + rewrite Z.bits_0. reflexivity.
Qed.

Lemma land_pow2_small v k : 0 <= k -> 0 <= v < 2 ^ k -> Z.land v (2 ^ k) = 0.
Proof.
  intros Hk Hv. rewrite land_pow2 by assumption.
  destruct (Z.eq_dec v 0) as [->|Hne]; [rewrite Z.bits_0; reflexivity|].
  rewrite Z.bits_above_log2; [reflexivity|lia|].
  apply Z.log2_lt_pow2; lia.
Qed.

Lemma DecodeHex_word s v : Encoding.DecodeHex s = Some v -> word v.
Proof.
  unfold Encoding.DecodeHex.
  destruct (if Strconv.indexAny_xX (bytesZ s) 0 =? 0 then _ else _); [|discriminate].
  destruct (Strconv.ParseUint l 0 16) as [r [e|]]; [discriminate|].
  intros H. injection H as <-. apply wrap16_word.
Qed.

(** C6, amended: for an imm5 or trapvec8 operand (bits = 5 or 8)
    [parseLiteral] accepts a hexadecimal literal exactly when its value is
    below [2^bits] and reports [OversizedLiteral] for the others; it
    accepts a decimal literal whose value lies in
    [-(2^bits - 1) .. 2^bits - 2], encoded modulo [2^bits], and reports
    [OversizedLiteral] for a decimal value below [-(2^bits - 1)] or above
    [2^bits - 1]; a literal that does not decode to a 16-bit number is
    reported as [InvalidLiteral]. *)
Theorem parseLiteral_ranges token bits :
  bits = LITERAL_IMM5 \/ bits = LITERAL_TRAPVEC8 ->
  (Strconv.containsAny_xX (bytesZ (Value token)) = true ->
   match Encoding.DecodeHex (Value token) with
   | Some v =>
       (v < 2 ^ bits -> parseLiteral token bits = (v, None))
       /\ (2 ^ bits <= v ->
           parseLiteral token bits
           = (0, Some (OversizedLiteralError (Position token) (2 ^ bits) v)))
   | None => parseLiteral token bits = (0, Some (InvalidLiteralError (Position token)))
   end)
  /\ (Strconv.containsAny_xX (bytesZ (Value token)) = false ->
      match Encoding.DecodeInt (Value token) with
      | Some v =>
          (- (2 ^ bits - 1) <= v <= 2 ^ bits - 2 ->
           parseLiteral token bits = (v mod 2 ^ bits, None))
          /\ (v < - (2 ^ bits - 1) \/ 2 ^ bits - 1 < v ->
              parseLiteral token bits
              = (0, Some (OversizedLiteralError (Position token) (2 ^ bits - 1) v)))
      | None => parseLiteral token bits = (0, Some (InvalidLiteralError (Position token)))
      end).
Proof.
  intros Hbits. split; intros Hx; unfold parseLiteral; rewrite Hx.
  - destruct (Encoding.DecodeHex (Value token)) as [v|] eqn:Hv; [|reflexivity].
    apply DecodeHex_word in Hv. unfold word in Hv.
    destruct Hbits as [-> | ->].
    + change (LITERAL_IMM5 <? 16) with true. cbv iota.
      change (wrap16 (Z.shiftl 1 LITERAL_IMM5)) with 32.
      change (2 ^ LITERAL_IMM5) with 32. split; intros Hr.
      * destruct (32 <=? v) eqn:E; [apply Z.leb_le in E; lia|].
        change 32 with (2 ^ 5) at 1. rewrite land_pow2_small by (change (2 ^ 5) with 32; lia).
        reflexivity.
      * destruct (32 <=? v) eqn:E; [reflexivity|apply Z.leb_gt in E; lia].
    + change (LITERAL_TRAPVEC8 <? 16) with true. cbv iota.
      change (wrap16 (Z.shiftl 1 LITERAL_TRAPVEC8)) with 256.
      change (2 ^ LITERAL_TRAPVEC8) with 256. split; intros Hr.
      * destruct (256 <=? v) eqn:E; [apply Z.leb_le in E; lia|].
        change 256 with (2 ^ 8) at 1. rewrite land_pow2_small by (change (2 ^ 8) with 256; lia).
        reflexivity.
      * destruct (256 <=? v) eqn:E; [reflexivity|apply Z.leb_gt in E; lia].
  - destruct (Encoding.DecodeInt (Value token)) as [v|]; [|reflexivity].
    destruct Hbits as [-> | ->].
    + change (LITERAL_IMM5 <? 16) with true. cbv iota zeta.
      change (to_int16 (to_int16 (Z.shiftl 1 LITERAL_IMM5) - 1)) with 31.
      change (to_int16 (Z.opp 31)) with (- 31).
      change (to_int16 (Z.shiftl 1 LITERAL_IMM5)) with (2 ^ 5).
      change (2 ^ LITERAL_IMM5) with 32. split; intros Hr.
      * destruct ((v <? - 31) || (31 <=? v)) eqn:E.
        { apply orb_true_iff in E. destruct E as [E | E];
            [apply Z.ltb_lt in E | apply Z.leb_le in E]; lia. }
        rewrite land_pow2 by lia.
        assert (Hcond : negb (to_int16 ((if Z.testbit v 5 then 2 ^ 5 else 0) - 1) =? 0)
                        = true) by (destruct (Z.testbit v 5); reflexivity).
        rewrite Hcond. change 31 with (Z.ones 5). rewrite Z.land_ones by lia.
        change (2 ^ 5) with 32. rewrite wrap16_small; [reflexivity|].
        unfold word. pose proof (Z.mod_pos_bound v 32). lia.
      * destruct ((v <? - 31) || (31 <=? v)) eqn:E; [reflexivity|].
        apply orb_false_iff in E. destruct E as [E1 E2].
        apply Z.ltb_ge in E1. apply Z.leb_gt in E2. lia.
    + change (LITERAL_TRAPVEC8 <? 16) with true. cbv iota zeta.
      change (to_int16 (to_int16 (Z.shiftl 1 LITERAL_TRAPVEC8) - 1)) with 255.
      change (to_int16 (Z.opp 255)) with (- 255).
      change (to_int16 (Z.shiftl 1 LITERAL_TRAPVEC8)) with (2 ^ 8).
      change (2 ^ LITERAL_TRAPVEC8) with 256. split; intros Hr.
      * destruct ((v <? - 255) || (255 <=? v)) eqn:E.
        { apply orb_true_iff in E. destruct E as [E | E];
            [apply Z.ltb_lt in E | apply Z.leb_le in E]; lia. }
        rewrite land_pow2 by lia.
        assert (Hcond : negb (to_int16 ((if Z.testbit v 8 then 2 ^ 8 else 0) - 1) =? 0)
                        = true) by (destruct (Z.testbit v 8); reflexivity).
        rewrite Hcond. change 255 with (Z.ones 8). rewrite Z.land_ones by lia.
        change (2 ^ 8) with 256. rewrite wrap16_small; [reflexivity|].
        unfold word. pose proof (Z.mod_pos_bound v 256). lia.
      * destruct ((v <? - 255) || (255 <=? v)) eqn:E; [reflexivity|].
        apply orb_false_iff in E. destruct E as [E1 E2].
        apply Z.ltb_ge in E1. apply Z.leb_gt in E2. lia.
Qed.

Lemma label_reference_resolution_witness :
  resolveLabelRefs branchLabels ([] ++ branchRef :: []) (fun _ => 0) []
  = resolveLabelRefs branchLabels []
      (fst (resolveLabelRef branchLabels (fun _ => 0, []) branchRef))
      (snd (resolveLabelRef branchLabels (fun _ => 0, []) branchRef))
  /\ resolveLabelRef branchLabels (fun _ => 0, []) branchRef
     = (upd (fun _ => 0) 0 (Z.lor 0 ((3 - (0 + 1)) mod 2 ^ LITERAL_PCOFFSET9)), []).
Proof.
  pose proof (label_reference_resolution branchLabels branchRef (fun _ => 0) []
                (or_introl eq_refl)) as [Hloop Hstep].
  split.
  - apply (Hloop [] [] (fun _ => 0) []). reflexivity.
  - change (branchLabels !! refLabel branchRef) with (Some 3) in Hstep.
    apply Hstep. vm_compute. split; [intros H; discriminate H|reflexivity].
Defined.

(** C6, as the specification states it, fails: the decimal literal 16 and
    the hexadecimal literal 0x1F are accepted as imm5 although they lie
    outside -16..+15 (the repository's tests assemble [ADD R0, R1, #16]),
    the decimal literal -1 is accepted as trapvec8, and a decimal literal
    beyond 16 bits is reported as [InvalidLiteral], not as
    [OversizedLiteral]. *)
Lemma parseLiteral_accepts_bit_patterns :
  parseLiteral (literalToken "#16") LITERAL_IMM5 = (16, None)
  /\ ~ (-16 <= 16 <= 15)
  /\ parseLiteral (literalToken "0x1F") LITERAL_IMM5 = (31, None)
  /\ parseLiteral (literalToken "#-1") LITERAL_TRAPVEC8 = (255, None)
  /\ ~ (0 <= -1 <= 255)
  /\ parseLiteral (literalToken "#40000") LITERAL_IMM5
     = (0, Some (InvalidLiteralError (Position (literalToken "#40000")))).
Proof.
  split; [vm_compute; reflexivity|]. split; [lia|].
  split; [vm_compute; reflexivity|]. split; [vm_compute; reflexivity|].
  split; [lia|]. vm_compute. reflexivity.
Qed.

Lemma parseLiteral_ranges_witness :
  parseLiteral (literalToken "#16") LITERAL_IMM5 = (16 mod 2 ^ LITERAL_IMM5, None)
  /\ parseLiteral (literalToken "0x1F") LITERAL_IMM5 = (31, None)
  /\ parseLiteral (literalToken "0x100") LITERAL_TRAPVEC8
     = (0, Some (OversizedLiteralError (Position (literalToken "0x100"))
                   (2 ^ LITERAL_TRAPVEC8) 256)).
Proof.
  split; [|split].
  - destruct (parseLiteral_ranges (literalToken "#16") LITERAL_IMM5
                (or_introl eq_refl)) as [_ Hdec].
    specialize (Hdec eq_refl).
    change (Encoding.DecodeInt (Value (literalToken "#16"))) with (Some 16) in Hdec.
    apply Hdec. change (2 ^ LITERAL_IMM5) with 32. lia.
  - destruct (parseLiteral_ranges (literalToken "0x1F") LITERAL_IMM5
                (or_introl eq_refl)) as [Hhex _].
    specialize (Hhex eq_refl).
    change (Encoding.DecodeHex (Value (literalToken "0x1F"))) with (Some 31) in Hhex.
    apply Hhex. change (2 ^ LITERAL_IMM5) with 32. lia.
  - destruct (parseLiteral_ranges (literalToken "0x100") LITERAL_TRAPVEC8
                (or_intror eq_refl)) as [Hhex _].
    specialize (Hhex eq_refl).
    change (Encoding.DecodeHex (Value (literalToken "0x100"))) with (Some 256) in Hhex.
    apply Hhex. change (2 ^ LITERAL_TRAPVEC8) with 256. lia.
Defined.

(** ** The model against the repository's tests *)

Example DecodeHex_forms :
  Encoding.DecodeHex "0xFFFF" = Some 65535 /\ Encoding.DecodeHex "x2A" = Some 42
  /\ Encoding.DecodeHex "0x10000" = None /\ Encoding.DecodeHex "1x10" = None
  /\ Encoding.DecodeHex "12" = None.
Proof. repeat split; vm_compute; reflexivity. Qed.

Example DecodeInt_forms :
  Encoding.DecodeInt "#16" = Some 16 /\ Encoding.DecodeInt "-32768" = Some (-32768)
  /\ Encoding.DecodeInt "#999999999" = None /\ Encoding.DecodeInt "32768" = None
  /\ Encoding.DecodeInt "#" = None.
Proof. repeat split; vm_compute; reflexivity. Qed.

(** [ADD R0, R1, R2], [ADD R0, R1, #16] and the forward branch. *)
Example assemble_add lib : assembled lib "ADD R0, R1, R2" [0] = Some ([0x1042], []).
Proof. vm_compute. reflexivity. Qed.

Example assemble_add_immediate lib :
  assembled lib "ADD R0, R1, #16" [0] = Some ([0x1070], []).
Proof. vm_compute. reflexivity. Qed.

Example assemble_forward_branch lib :
  assembled lib
    ("BR LABEL" ++ newline ++ " HALT" ++ newline ++ " HALT" ++ newline ++ " LABEL")%string
    [0; 1; 2]
  = Some ([0x0002; 0xF025; 0xF025], []).
Proof. vm_compute. reflexivity. Qed.

Example assemble_blkw_overflow lib :
  assembled lib ".BLKW 0xFFFF" [0] = Some ([0], [OversizedBinaryError]).
Proof. vm_compute. reflexivity. Qed.

(** One word lower the same string fits, and the size check reports
    [OversizedBinary]. *)
Example assemble_string_that_fits lib :
  assembled lib stringThatFits [0xFFFD; 0xFFFE; 0xFFFF]
  = Some ([97; 98; 0], [OversizedBinaryError]).
Proof. vm_compute. reflexivity. Qed.

(** The repository's tests "ADD SR2 Negative" and "RTI". *)
Example step_add_negative :
  match Step None addNegative with
  | Ok mc =>
      reg mc 0 = 0x8002 /\ Program (State mc) = 0x3001 /\ condition mc = FLAG_NEG
  | Panic _ => False
  end.
Proof. vm_compute. repeat split. Qed.

Example step_rti :
  match Step None rtiReturn with
  | Ok mc =>
      getPrivilege mc = false /\ Program (State mc) = 0x6000
      /\ reg mc 6 = 0xFE00 /\ Stack (State mc) = 0x2FF9
  | Panic _ => False
  end.
Proof. vm_compute. repeat split. Qed.

(** The repository's test "Read Keyboard": the first load polls KBSR,
    which takes an octet from the keyboard and fills KBDR; the second load
    reads it. *)
Example steps_keyboard_read :
  match Steps None 2 keyboardRead with
  | Ok mc =>
      reg mc 0 = 0x8000 /\ reg mc 2 = 0x0066
      /\ mem mc DEV_KBSR = 0x8000 /\ mem mc DEV_KBDR = 0x0066
      /\ Program (State mc) = 0x3002 /\ Procstat (State mc) = 0x0701
      /\ keyboardOf mc = Some {| pending := [111; 111; 98; 97; 114] |}
  | Panic _ => False
  end.
Proof. vm_compute. repeat split. Qed.

(** The repository's test "Interrupt Low Priority Process". *)
Example step_keyboard_interrupt :
  match Step None keyboardInterrupts with
  | Ok mc =>
      getPrivilege mc = true /\ getPriority mc = 4
      /\ Program (State mc) = 0x6000 /\ reg mc 6 = 0x2FFD
      /\ Stack (State mc) = 0xFDFC
      /\ mem mc 0xFDFE = 0x0100 /\ mem mc 0xFDFC = 0x3001
  | Panic _ => False
  end.
Proof. vm_compute. repeat split. Qed.

(** ** Byte order and sign extension *)

Lemma lor_disjoint v k n :
  0 <= n -> 0 <= v < 2 ^ n -> Z.lor v (k * 2 ^ n) = v + k * 2 ^ n.
Proof.
  intros Hn Hv.
  rewrite <- (Z.add_lor_land v (k * 2 ^ n)).
  assert (Z.land v (k * 2 ^ n) = 0) as ->; [|lia].
  apply Z.bits_inj'. intros m Hm.
  rewrite Z.land_spec, Z.bits_0.
  destruct (Z.lt_ge_cases m n) as [Hlt|Hge].
  - rewrite Z.mul_pow2_bits_low; [|exact Hlt]. apply andb_false_r.
  - assert (Z.testbit v m = false) as ->; [|reflexivity].
    destruct (Z.eq_dec v 0) as [->|Hne]; [apply Z.bits_0|].
    apply Z.bits_above_log2; [lia|].
    assert (Z.log2 v < n); [|lia].
    apply Z.log2_lt_pow2; lia.
Qed.

Lemma SwapEndian_bytes v :
  word v -> Encoding.SwapEndian v = (v mod 256) * 256 + v / 256.
Proof.
  unfold word, Encoding.SwapEndian, wrap16. intros Hv.
  rewrite Z.shiftr_div_pow2, Z.shiftl_mul_pow2; [|lia..].
  change (2 ^ 8) with 256.
  assert ((v * 256) mod 65536 = (v mod 256) * 2 ^ 8) as ->.
  { change (2 ^ 8) with 256. change 65536 with (256 * 256).
    rewrite Z.mul_mod_distr_r; lia. }
  rewrite lor_disjoint; [change (2 ^ 8) with 256; lia|lia|].
  change (2 ^ 8) with 256.
  split; [apply Z.div_pos; lia|apply Z.div_lt_upper_bound; lia].
Qed.

(** X1.  [SwapEndian] exchanges the two octets of a word, and is its own
    inverse on words. *)
Theorem SwapEndian_involutive v :
  word v ->
  Encoding.SwapEndian v = (v mod 256) * 256 + v / 256
  /\ word (Encoding.SwapEndian v)
  /\ Encoding.SwapEndian (Encoding.SwapEndian v) = v.
Proof.
  intros Hv.
  assert (0 <= v / 256 < 256) as Hh.
  { unfold word in Hv. split; [apply Z.div_pos; lia|apply Z.div_lt_upper_bound; lia]. }
  assert (0 <= v mod 256 < 256) as Hl by (apply Z.mod_pos_bound; lia).
  assert (word (Encoding.SwapEndian v)) as Hw.
  { rewrite SwapEndian_bytes; [|exact Hv]. unfold word. lia. }
  split; [apply SwapEndian_bytes; exact Hv|].
  split; [exact Hw|].
  rewrite (SwapEndian_bytes (Encoding.SwapEndian v)); [|exact Hw].
  rewrite SwapEndian_bytes; [|exact Hv].
  assert (((v mod 256) * 256 + v / 256) mod 256 = v / 256) as ->.
  { rewrite Z.add_comm, Z.mod_add; [|lia]. apply Z.mod_small. lia. }
  assert (((v mod 256) * 256 + v / 256) / 256 = v mod 256) as ->.
  { rewrite Z.add_comm, Z.div_add; [|lia]. rewrite Z.div_small; lia. }
  pose proof (Z.div_mod v 256). lia.
Qed.

Lemma SwapEndian_involutive_witness :
  Encoding.SwapEndian 0x1234 = (0x1234 mod 256) * 256 + 0x1234 / 256
  /\ word (Encoding.SwapEndian 0x1234)
  /\ Encoding.SwapEndian (Encoding.SwapEndian 0x1234) = 0x1234.
Proof. apply (SwapEndian_involutive 0x1234). unfold word. lia. Defined.

Lemma sign_bit v n :
  1 <= n -> 0 <= v < 2 ^ n ->
  (Z.land (Z.shiftr v (n - 1)) 1 =? 1) = negb (v <? 2 ^ (n - 1)).
Proof.
  intros Hn Hv.
  rewrite Z.shiftr_div_pow2; [|lia].
  change 1 with (Z.ones 1) at 2. rewrite Z.land_ones; [|lia].
  change (2 ^ 1) with 2.
  assert (2 ^ n = 2 * 2 ^ (n - 1)) as Hp.
  { rewrite <- Z.pow_succ_r; [|lia]. f_equal. lia. }
  assert (0 < 2 ^ (n - 1)) as Hpos by (apply Z.pow_pos_nonneg; lia).
  destruct (Z.ltb_spec v (2 ^ (n - 1))) as [Hlt|Hge]; cbn [negb].
  - rewrite Z.div_small; [reflexivity|lia].
  - assert (v / 2 ^ (n - 1) = 1) as ->; [|reflexivity].
    symmetry. apply (Z.div_unique v (2 ^ (n - 1)) 1 (v - 2 ^ (n - 1))); lia.
Qed.

Lemma SignExtend_signed v n :
  1 <= n <= 16 -> 0 <= v < 2 ^ n ->
  Encoding.SignExtend v n
  = wrap16 (if v <? 2 ^ (n - 1) then v else v - 2 ^ n).
Proof.
  intros Hn Hv. unfold Encoding.SignExtend.
  rewrite (wrap16_small (n - 1)); [|unfold word; lia].
  rewrite sign_bit; [|lia|exact Hv].
  assert (2 ^ n <= 2 ^ 16) as Hle by (apply Z.pow_le_mono_r; lia).
  change (2 ^ 16) with 65536 in Hle.
  destruct (Z.ltb_spec v (2 ^ (n - 1))) as [Hlt|Hge]; cbn [negb].
  - symmetry. apply wrap16_small. unfold word. lia.
  - assert (wrap16 (Z.shiftl 0xFFFF n) = (2 ^ (16 - n) - 1) * 2 ^ n) as ->.
    { unfold wrap16. rewrite Z.shiftl_mul_pow2; [|lia].
      assert (2 ^ 16 = 2 ^ (16 - n) * 2 ^ n) as Hsplit.
      { rewrite <- Z.pow_add_r; [|lia..]. f_equal. lia. }
      change (2 ^ 16) with 65536 in Hsplit.
      assert (0 < 2 ^ (16 - n)) by (apply Z.pow_pos_nonneg; lia).
      symmetry.
      apply (Z.mod_unique_pos _ _ (2 ^ n - 1)); nia. }
    rewrite lor_disjoint; [|lia|exact Hv].
    assert (2 ^ 16 = 2 ^ (16 - n) * 2 ^ n) as Hsplit.
    { rewrite <- Z.pow_add_r; [|lia..]. f_equal. lia. }
    change (2 ^ 16) with 65536 in Hsplit.
    unfold wrap16.
    apply (Z.mod_unique_pos _ _ (-1)); nia.
Qed.

(** X2.  [SignExtend] of an n-bit field is the 16-bit two's complement
    encoding of the number that the field denotes; added to an address in
    16-bit arithmetic it moves the address by that number. *)
Theorem SignExtend_twos_complement v n :
  1 <= n <= 16 -> 0 <= v < 2 ^ n ->
  let signed := if v <? 2 ^ (n - 1) then v else v - 2 ^ n in
  Encoding.SignExtend v n = wrap16 signed
  /\ word (Encoding.SignExtend v n)
  /\ forall base, wrap16 (base + Encoding.SignExtend v n) = wrap16 (base + signed).
Proof.
  intros Hn Hv signed. subst signed.
  rewrite (SignExtend_signed v n Hn Hv).
  split; [reflexivity|]. split; [apply wrap16_word|].
  intros base. unfold wrap16. apply Zplus_mod_idemp_r.
Qed.

Lemma SignExtend_twos_complement_witness :
  let signed := if 0x1FD <? 2 ^ (9 - 1) then 0x1FD else 0x1FD - 2 ^ 9 in
  Encoding.SignExtend 0x1FD 9 = wrap16 signed
  /\ word (Encoding.SignExtend 0x1FD 9)
  /\ forall base, wrap16 (base + Encoding.SignExtend 0x1FD 9) = wrap16 (base + signed).
Proof. apply (SignExtend_twos_complement 0x1FD 9); lia. Defined.

(** ** Short binary images *)

Lemma loadLoop_short m : forall reader index memory,
  0 <= index -> index + Z.of_nat m < 65535 ->
  (length reader = 2 * m \/ length reader = 2 * m + 1)%nat ->
  snd (loadLoop reader index memory)
  = (if Nat.even (length reader) then None else Some "Error reading binary")
  /\ (forall k, 0 <= k < Z.of_nat m ->
        fst (loadLoop reader index memory) (index + k)
        = nth (Z.to_nat (2 * k)) reader 0 * 256
          + nth (Z.to_nat (2 * k + 1)) reader 0)
  /\ (forall a, a < index \/ index + Z.of_nat m <= a ->
        fst (loadLoop reader index memory) a = memory a).
Proof.
  induction m as [|m IH]; intros reader index memory Hindex Hfit Hlen.
  - assert ((index <? 65535) = true) as Hlt by (apply Z.ltb_lt; lia).
    destruct reader as [|b0 [|b1 rest]]; cbn [length] in Hlen; try lia;
      cbn [loadLoop]; rewrite Hlt; cbn [fst snd length Nat.even];
      (split; [reflexivity|split; [intros; lia|reflexivity]]).
  - destruct reader as [|b0 [|b1 rest]]; cbn [length] in Hlen; try lia.
    rewrite loadLoop_pair.
    assert ((index <? 65535) = true) as -> by (apply Z.ltb_lt; lia).
    destruct (IH rest (index + 1) (upd memory index (b0 * 256 + b1))
                ltac:(lia) ltac:(lia) ltac:(lia)) as (Herr & Hword & Hrest).
    split; [|split].
    + rewrite Herr. reflexivity.
    + intros k Hk. destruct (Z.eq_dec k 0) as [->|Hne].
      * rewrite Z.add_0_r, Hrest by lia. rewrite upd_same. reflexivity.
      * replace (index + k) with (index + 1 + (k - 1)) by lia.
        rewrite Hword by lia.
        replace (Z.to_nat (2 * k)) with (S (S (Z.to_nat (2 * (k - 1))))) by lia.
        replace (Z.to_nat (2 * k + 1))
          with (S (S (Z.to_nat (2 * (k - 1) + 1)))) by lia.
        reflexivity.
    + intros a Ha. rewrite Hrest by lia. apply upd_other. lia.
Qed.

(** X3.  A binary image shorter than the memory: [LoadBin] resets the
    machine, stores the complete words of the stream from address 0 on,
    leaves every other cell zero, reports nothing for an even number of
    octets and "Error reading binary" for an odd one (the words before
    the stray octet stay loaded). *)
Theorem LoadBin_short_stream mc stream m :
  (length stream = 2 * m \/ length stream = 2 * m + 1)%nat ->
  Z.of_nat m < 65535 ->
  let mc' := fst (LoadBin mc stream) in
  snd (LoadBin mc stream)
  = (if Nat.even (length stream) then None else Some "Error reading binary")
  /\ (forall i, 0 <= i < Z.of_nat m -> mem mc' i = wordAt stream i)
  /\ (forall a, a < 0 \/ Z.of_nat m <= a -> mem mc' a = 0)
  /\ Program (State mc') = MEMSPACE_SUPERVISOR
  /\ Procstat (State mc') = 0x8000
  /\ reg mc' 6 = MEMSPACE_USER
  /\ (forall r, r <> 6 -> reg mc' r = 0)
  /\ Stack (State mc') = MEMSPACE_DEVICES
  /\ Devices mc' = Devices mc.
Proof.
  intros Hlen Hm. unfold LoadBin.
  destruct (loadLoop_short m stream 0 (Memory (Reset (State mc)))
              (Z.le_refl 0) ltac:(lia) Hlen) as (Herr & Hword & Hrest).
  destruct (loadLoop stream 0 (Memory (Reset (State mc)))) as [memory err].
  cbn [fst snd] in *. unfold reg, mem. cbn [State Memory Registers Program Procstat Stack Devices Reset].
  split; [exact Herr|]. split; [|split].
  - intros i Hi. specialize (Hword i Hi). rewrite Z.add_0_l in Hword.
    unfold wordAt. exact Hword.
  - intros a Ha. rewrite Hrest by lia. reflexivity.
  - split; [reflexivity|]. split; [reflexivity|].
    split; [apply upd_same|].
    split; [intros r Hr; rewrite upd_other by exact Hr; reflexivity|].
    split; reflexivity.
Qed.

Lemma LoadBin_short_stream_witness :
  let mc' := fst (LoadBin rtiViolation truncatedImage) in
  snd (LoadBin rtiViolation truncatedImage)
  = (if Nat.even (length truncatedImage) then None else Some "Error reading binary")
  /\ (forall i, 0 <= i < Z.of_nat 3 -> mem mc' i = wordAt truncatedImage i)
  /\ (forall a, a < 0 \/ Z.of_nat 3 <= a -> mem mc' a = 0)
  /\ Program (State mc') = MEMSPACE_SUPERVISOR
  /\ Procstat (State mc') = 0x8000
  /\ reg mc' 6 = MEMSPACE_USER
  /\ (forall r, r <> 6 -> reg mc' r = 0)
  /\ Stack (State mc') = MEMSPACE_DEVICES
  /\ Devices mc' = Devices rtiViolation.
Proof.
  apply (LoadBin_short_stream rtiViolation truncatedImage 3).
  - right. reflexivity.
  - lia.
Defined.

(** ** The processor status word *)

Lemma high_bit p : word p -> Z.shiftr p 15 = 0 \/ Z.shiftr p 15 = 1.
Proof.
  unfold word. intros Hp. rewrite Z.shiftr_div_pow2 by lia.
  change (2 ^ 15) with 32768.
  assert (0 <= p / 32768 < 2); [|lia].
  split; [apply Z.div_pos; lia|apply Z.div_lt_upper_bound; lia].
Qed.

Lemma privilege_bit_set p : word p -> Z.shiftr (Z.lor p 0x8000) 15 = 1.
Proof.
  intros Hp. rewrite Z.shiftr_lor. change (Z.shiftr 32768 15) with 1.
  destruct (high_bit p Hp) as [-> | ->]; reflexivity.
Qed.

Lemma privilege_bit_clear p : Z.shiftr (Z.land p 0x7FFF) 15 = 0.
Proof.
  rewrite Z.shiftr_land. change (Z.shiftr 32767 15) with 0. apply Z.land_0_r.
Qed.

Lemma priority_kept_lor p : Z.land (Z.shiftr (Z.lor p 0x8000) 8) 7 = Z.land (Z.shiftr p 8) 7.
Proof.
  rewrite Z.shiftr_lor, Z.land_lor_distr_l.
  change (Z.land (Z.shiftr 32768 8) 7) with 0. apply Z.lor_0_r.
Qed.

Lemma priority_kept_land p : Z.land (Z.shiftr (Z.land p 0x7FFF) 8) 7 = Z.land (Z.shiftr p 8) 7.
Proof.
  rewrite Z.shiftr_land, <- Z.land_assoc. reflexivity.
Qed.

Lemma privilege_bit_restore p :
  word p -> Z.shiftr p 15 = 1 -> Z.lor (Z.land p 0x7FFF) 0x8000 = p.
Proof.
  unfold word. intros Hp Hhigh.
  rewrite Z.shiftr_div_pow2 in Hhigh by lia.
  change 0x7FFF with (Z.ones 15). rewrite Z.land_ones by lia.
  change 0x8000 with (1 * 2 ^ 15).
  rewrite lor_disjoint; [|lia|apply Z.mod_pos_bound; lia].
  pose proof (Z.div_mod p (2 ^ 15)). lia.
Qed.

Lemma privilege_bit_remove p :
  word p -> Z.shiftr p 15 = 0 -> Z.land (Z.lor p 0x8000) 0x7FFF = p.
Proof.
  unfold word. intros Hp Hhigh.
  rewrite Z.shiftr_div_pow2 in Hhigh by lia.
  assert (p < 2 ^ 15) as Hlt.
  { pose proof (Z.div_mod p (2 ^ 15)). pose proof (Z.mod_pos_bound p (2 ^ 15)). lia. }
  change 0x8000 with (1 * 2 ^ 15).
  rewrite lor_disjoint by lia.
  change 0x7FFF with (Z.ones 15). rewrite Z.land_ones by lia.
  rewrite Z.mod_add by lia. apply Z.mod_small. lia.
Qed.

Lemma setPrivilege_effect mc privileged :
  word (Procstat (State mc)) ->
  let mc' := setPrivilege mc privileged in
  getPrivilege mc' = privileged
  /\ getPriority mc' = getPriority mc
  /\ (forall r, r <> 6 -> reg mc' r = reg mc r)
  /\ (privileged = getPrivilege mc ->
      reg mc' 6 = reg mc 6 /\ Stack (State mc') = Stack (State mc)
      /\ Procstat (State mc') = Procstat (State mc))
  /\ (privileged <> getPrivilege mc ->
      reg mc' 6 = Stack (State mc) /\ Stack (State mc') = reg mc 6)
  /\ Procstat (State mc')
     = (if privileged then Z.lor (Procstat (State mc)) 0x8000
        else Z.land (Procstat (State mc)) 0x7FFF)
  /\ Program (State mc') = Program (State mc)
  /\ Memory (State mc') = Memory (State mc)
  /\ Devices mc' = Devices mc.
Proof.
  intros Hp. cbv zeta.
  split; [|split; [|split; [|split; [|split]]]].
  - unfold setPrivilege, getPrivilege.
    destruct (negb _); destruct privileged; mc_simpl;
      rewrite ?privilege_bit_set, ?privilege_bit_clear by exact Hp; reflexivity.
  - unfold setPrivilege, getPriority.
    destruct (negb _); destruct privileged; mc_simpl;
      rewrite ?priority_kept_lor, ?priority_kept_land; reflexivity.
  - intros r Hr. unfold setPrivilege.
    destruct (negb _); destruct privileged; mc_simpl;
      rewrite ?upd_other by exact Hr; reflexivity.
  - intros ->. unfold setPrivilege. rewrite eqb_reflx. cbn [negb].
    unfold getPrivilege.
    destruct (Z.eqb_spec (Z.shiftr (Procstat (State mc)) 15) 1) as [Hhigh|Hlow];
      mc_simpl; (split; [reflexivity|split; [reflexivity|]]).
    + rewrite <- (privilege_bit_restore _ Hp Hhigh) at 2.
      rewrite <- (privilege_bit_restore _ Hp Hhigh) at 1.
      rewrite <- Z.lor_assoc. reflexivity.
    + destruct (high_bit _ Hp) as [Hzero|Hone]; [|contradiction].
      rewrite <- (privilege_bit_remove _ Hp Hzero) at 2.
      rewrite <- (privilege_bit_remove _ Hp Hzero) at 1.
      rewrite <- Z.land_assoc. reflexivity.
  - intros Hne. unfold setPrivilege.
    assert (Bool.eqb privileged (getPrivilege mc) = false) as ->.
    { apply eqb_false_iff. exact Hne. }
    cbn [negb]. destruct privileged; mc_simpl; rewrite upd_same; split; reflexivity.
  - unfold setPrivilege.
    destruct (negb _); destruct privileged; mc_simpl; repeat split.
Qed.

Lemma word_setPrivilege mc privileged :
  word (Procstat (State mc)) -> word (Procstat (State (setPrivilege mc privileged))).
Proof.
  intros Hp.
  destruct (setPrivilege_effect mc privileged Hp) as (_ & _ & _ & _ & _ & -> & _).
  destruct privileged.
  - apply word_of_log2.
    + apply Z.lor_nonneg. unfold word in Hp. lia.
    + rewrite Z.log2_lor by (unfold word in Hp; lia).
      pose proof (log2_word _ Hp). change (Z.log2 32768) with 15. lia.
  - apply word_land; [exact Hp|lia].
Qed.

(** X4.  [setPrivilege] sets the privilege bit and nothing else of the
    processor status word; it exchanges R6 with the saved stack pointer
    exactly when the privilege changes; and going back to the former
    privilege restores R6, the saved stack pointer and the status word. *)
Theorem setPrivilege_exchanges_stacks mc privileged :
  word (Procstat (State mc)) ->
  let mc' := setPrivilege mc privileged in
  getPrivilege mc' = privileged
  /\ getPriority mc' = getPriority mc
  /\ condition mc' = condition mc
  /\ (forall r, r <> 6 -> reg mc' r = reg mc r)
  /\ (privileged = getPrivilege mc ->
      reg mc' 6 = reg mc 6 /\ Stack (State mc') = Stack (State mc)
      /\ Procstat (State mc') = Procstat (State mc))
  /\ (privileged <> getPrivilege mc ->
      reg mc' 6 = Stack (State mc) /\ Stack (State mc') = reg mc 6)
  /\ (let back := setPrivilege mc' (getPrivilege mc) in
      (forall r, reg back r = reg mc r)
      /\ Stack (State back) = Stack (State mc)
      /\ Procstat (State back) = Procstat (State mc)
      /\ Program (State back) = Program (State mc)
      /\ Memory (State back) = Memory (State mc)
      /\ Devices back = Devices mc).
Proof.
  intros Hp. cbv zeta.
  destruct (setPrivilege_effect mc privileged Hp)
    as (Hpriv & Hprio & Hregs & Hsame & Hflip & Hps & Hpc & Hmem & Hdev).
  pose proof (word_setPrivilege mc privileged Hp) as Hp'.
  destruct (setPrivilege_effect (setPrivilege mc privileged) (getPrivilege mc) Hp')
    as (Hpriv' & _ & Hregs' & Hsame' & Hflip' & Hps' & Hpc' & Hmem' & Hdev').
  split; [exact Hpriv|]. split; [exact Hprio|].
  split; [apply condition_setPrivilege|]. split; [exact Hregs|].
  split; [exact Hsame|]. split; [exact Hflip|].
  rewrite Hpc', Hmem', Hdev'.
  split; [|split; [|split; [|repeat split; assumption]]].
  - intros r. destruct (Z.eq_dec r 6) as [->|Hr].
    + destruct (bool_decide (privileged = getPrivilege mc)) eqn:Hd.
      * apply bool_decide_eq_true in Hd.
        destruct (Hsame Hd) as (H6 & _).
        destruct (Hsame' ltac:(rewrite Hpriv; symmetry; exact Hd)) as (-> & _).
        exact H6.
      * apply bool_decide_eq_false in Hd.
        destruct (Hflip Hd) as (_ & Hst).
        destruct (Hflip' ltac:(rewrite Hpriv; intros E; apply Hd; symmetry; exact E))
          as (-> & _).
        exact Hst.
    + rewrite Hregs' by exact Hr. apply Hregs. exact Hr.
  - destruct (bool_decide (privileged = getPrivilege mc)) eqn:Hd.
    + apply bool_decide_eq_true in Hd.
      destruct (Hsame Hd) as (_ & Hst & _).
      destruct (Hsame' ltac:(rewrite Hpriv; symmetry; exact Hd)) as (_ & -> & _).
      exact Hst.
    + apply bool_decide_eq_false in Hd.
      destruct (Hflip Hd) as (H6 & _).
      destruct (Hflip' ltac:(rewrite Hpriv; intros E; apply Hd; symmetry; exact E))
        as (_ & ->).
      exact H6.
  - rewrite Hps', Hps. unfold getPrivilege.
    destruct (high_bit _ Hp) as [Hzero|Hone].
    + rewrite Hzero. change (0 =? 1) with false.
      destruct privileged.
      * apply privilege_bit_remove; assumption.
      * rewrite <- Z.land_assoc. change (Z.land 32767 32767) with 32767.
        rewrite <- (privilege_bit_remove _ Hp Hzero) at 2.
        rewrite <- (privilege_bit_remove _ Hp Hzero) at 1.
        rewrite <- Z.land_assoc. reflexivity.
    + rewrite Hone. change (1 =? 1) with true.
      destruct privileged.
      * rewrite <- Z.lor_assoc. change (Z.lor 32768 32768) with 32768.
        rewrite <- (privilege_bit_restore _ Hp Hone) at 2.
        rewrite <- (privilege_bit_restore _ Hp Hone) at 1.
        rewrite <- Z.lor_assoc. reflexivity.
      * apply privilege_bit_restore; assumption.
Qed.

Lemma setPrivilege_exchanges_stacks_witness :
  let mc' := setPrivilege rtiViolation true in
  getPrivilege mc' = true
  /\ getPriority mc' = getPriority rtiViolation
  /\ condition mc' = condition rtiViolation
  /\ (forall r, r <> 6 -> reg mc' r = reg rtiViolation r)
  /\ (true = getPrivilege rtiViolation ->
      reg mc' 6 = reg rtiViolation 6 /\ Stack (State mc') = Stack (State rtiViolation)
      /\ Procstat (State mc') = Procstat (State rtiViolation))
  /\ (true <> getPrivilege rtiViolation ->
      reg mc' 6 = Stack (State rtiViolation) /\ Stack (State mc') = reg rtiViolation 6)
  /\ (let back := setPrivilege mc' (getPrivilege rtiViolation) in
      (forall r, reg back r = reg rtiViolation r)
      /\ Stack (State back) = Stack (State rtiViolation)
      /\ Procstat (State back) = Procstat (State rtiViolation)
      /\ Program (State back) = Program (State rtiViolation)
      /\ Memory (State back) = Memory (State rtiViolation)
      /\ Devices back = Devices rtiViolation).
Proof.
  apply (setPrivilege_exchanges_stacks rtiViolation true). vm_compute. split; [discriminate|reflexivity].
Defined.

Lemma setPriority_effect mc value :
  word (Procstat (State mc)) -> 0 <= value <= 7 ->
  exists mc',
    setPriority mc value = Ok mc'
    /\ getPriority mc' = value
    /\ getPrivilege mc' = getPrivilege mc
    /\ condition mc' = condition mc
    /\ word (Procstat (State mc'))
    /\ Registers (State mc') = Registers (State mc)
    /\ Stack (State mc') = Stack (State mc)
    /\ Program (State mc') = Program (State mc)
    /\ Memory (State mc') = Memory (State mc)
    /\ Devices mc' = Devices mc.
Proof.
  intros Hp Hv. unfold setPriority.
  assert ((7 <? value) = false) as -> by (apply Z.ltb_ge; lia).
  eexists. split; [reflexivity|].
  assert (Hfield : exists c, wrap16 (Z.shiftl (Z.land value 7) 8) = c
                     /\ Z.land (Z.shiftr c 8) 7 = value /\ Z.shiftr c 15 = 0
                     /\ Z.land c 7 = 0 /\ 0 <= c < 65536).
  { assert (value = 0 \/ value = 1 \/ value = 2 \/ value = 3 \/ value = 4
            \/ value = 5 \/ value = 6 \/ value = 7) as Hcases by lia.
    destruct Hcases as [-> | [-> | [-> | [-> | [-> | [-> | [-> | ->]]]]]]];
      eexists; (split; [vm_compute; reflexivity|]); vm_compute;
      repeat split; discriminate. }
  destruct Hfield as (c & -> & Hprio & Hhigh & Hlow & Hc).
  unfold getPriority, getPrivilege, condition. mc_simpl.
  split; [|split; [|split; [|split; [|repeat split]]]].
  - rewrite Z.shiftr_lor, Z.land_lor_distr_l, Hprio.
    rewrite Z.shiftr_land, <- Z.land_assoc.
    change (Z.land (Z.shiftr 63743 8) 7) with 0. rewrite Z.land_0_r. reflexivity.
  - rewrite Z.shiftr_lor, Hhigh, Z.lor_0_r, Z.shiftr_land.
    change (Z.shiftr 63743 15) with 1.
    destruct (high_bit _ Hp) as [-> | ->]; reflexivity.
  - rewrite Z.land_lor_distr_l, Hlow, Z.lor_0_r, <- Z.land_assoc. reflexivity.
  - apply word_of_log2.
    + apply Z.lor_nonneg. split; [apply Z.land_nonneg; right|]; lia.
    + rewrite Z.log2_lor; [|apply Z.land_nonneg; right; lia|lia].
      assert (word (Z.land (Procstat (State mc)) 63743)) as Hw
        by (apply word_land; [exact Hp|lia]).
      pose proof (log2_word _ Hw).
      assert (word c) as Hwc by exact Hc.
      pose proof (log2_word _ Hwc). lia.
Qed.

(** X5.  [setPriority] with a level of 0 to 7 writes the level into bits
    8 to 10 of the processor status word and leaves the privilege bit, the
    condition bits and the rest of the machine alone; [getPriority] reads
    the level back.  A level above 7 panics. *)
Theorem setPriority_round_trip mc value :
  word (Procstat (State mc)) -> 0 <= value ->
  (value <= 7 ->
   exists mc',
     setPriority mc value = Ok mc'
     /\ getPriority mc' = value
     /\ getPrivilege mc' = getPrivilege mc
     /\ condition mc' = condition mc
     /\ Registers (State mc') = Registers (State mc)
     /\ Stack (State mc') = Stack (State mc)
     /\ Program (State mc') = Program (State mc)
     /\ Memory (State mc') = Memory (State mc)
     /\ Devices mc' = Devices mc)
  /\ (7 < value -> setPriority mc value = Panic "Invalid priority value").
Proof.
  intros Hp Hv. split.
  - intros Hle.
    destruct (setPriority_effect mc value Hp ltac:(lia))
      as (mc' & H & H1 & H2 & H3 & _ & H4 & H5 & H6 & H7 & H8).
    exists mc'. repeat split; assumption.
  - intros Hgt. unfold setPriority.
    assert ((7 <? value) = true) as -> by (apply Z.ltb_lt; lia).
    reflexivity.
Qed.

Lemma setPriority_round_trip_witness :
  (4 <= 7 ->
   exists mc',
     setPriority rtiViolation 4 = Ok mc'
     /\ getPriority mc' = 4
     /\ getPrivilege mc' = getPrivilege rtiViolation
     /\ condition mc' = condition rtiViolation
     /\ Registers (State mc') = Registers (State rtiViolation)
     /\ Stack (State mc') = Stack (State rtiViolation)
     /\ Program (State mc') = Program (State rtiViolation)
     /\ Memory (State mc') = Memory (State rtiViolation)
     /\ Devices mc' = Devices rtiViolation)
  /\ (7 < 4 -> setPriority rtiViolation 4 = Panic "Invalid priority value").
Proof.
  apply (setPriority_round_trip rtiViolation 4).
  - vm_compute. split; [discriminate|reflexivity].
  - lia.
Defined.

(** ** Stack round trips *)

Lemma wrap16_add_l a b : wrap16 (wrap16 a + b) = wrap16 (a + b).
Proof. unfold wrap16. apply Zplus_mod_idemp_l. Qed.

Lemma wrap16_add_r a b : wrap16 (a + wrap16 b) = wrap16 (a + b).
Proof. unfold wrap16. apply Zplus_mod_idemp_r. Qed.

Lemma wrap16_sub_l a b : wrap16 (wrap16 a - b) = wrap16 (a - b).
Proof. unfold wrap16. apply Zminus_mod_idemp_l. Qed.

(** X6.  A [push] followed by a [pop] gives the value back and restores
    every register; of the memory only the stack slot, two below R6, has
    changed.  The slot must not be a device register. *)
Theorem push_pop_round_trip mc value :
  word (reg mc 6) ->
  let slot := wrap16 (reg mc 6 - 2) in
  slot <> DEV_KBSR -> slot <> DEV_KBDR -> slot <> DEV_DSR -> slot <> DEV_DDR ->
  exists mc1 mc2,
    push None mc value = Ok mc1
    /\ pop None mc1 = Ok (value, mc2)
    /\ (forall r, reg mc2 r = reg mc r)
    /\ mem mc2 slot = value
    /\ (forall a, a <> slot -> mem mc2 a = mem mc a)
    /\ Program (State mc2) = Program (State mc)
    /\ Procstat (State mc2) = Procstat (State mc)
    /\ Stack (State mc2) = Stack (State mc)
    /\ Devices mc2 = Devices mc.
Proof.
  intros H6 slot Hkbsr Hkbdr Hdsr Hddr. subst slot.
  unfold push, pop. mc_simpl. rewrite upd_same.
  rewrite write_plain by assumption.
  eexists. eexists. split; [reflexivity|]. mc_simpl. rewrite upd_same.
  rewrite read_plain by assumption. cbn [bind]. mc_simpl. rewrite !upd_same.
  split; [reflexivity|]. mc_simpl.
  split; [|split; [apply upd_same|split; [|repeat split]]].
  - intros r. destruct (Z.eq_dec r 6) as [->|Hr].
    + rewrite upd_same, wrap16_add_l.
      replace (Registers (State mc) 6 - 2 + 2) with (Registers (State mc) 6) by lia.
      apply wrap16_small. exact H6.
    + rewrite !upd_other by exact Hr. reflexivity.
  - intros a Ha. apply upd_other. exact Ha.
Qed.

Lemma push_pop_round_trip_witness :
  let slot := wrap16 (reg rtiViolation 6 - 2) in
  exists mc1 mc2,
    push None rtiViolation 0x1234 = Ok mc1
    /\ pop None mc1 = Ok (0x1234, mc2)
    /\ (forall r, reg mc2 r = reg rtiViolation r)
    /\ mem mc2 slot = 0x1234
    /\ (forall a, a <> slot -> mem mc2 a = mem rtiViolation a)
    /\ Program (State mc2) = Program (State rtiViolation)
    /\ Procstat (State mc2) = Procstat (State rtiViolation)
    /\ Stack (State mc2) = Stack (State rtiViolation)
    /\ Devices mc2 = Devices rtiViolation.
Proof.
  apply (push_pop_round_trip rtiViolation 0x1234);
    vm_compute; try discriminate. split; [discriminate|reflexivity].
Defined.

(** ** The device registers *)

(** X7.  Polling the keyboard status register takes one octet from the
    keyboard when there is one: the status reads [0x8000], the octet is
    latched in the data register, and stores to the data register are
    ignored.  With no input the status reads 0 and the data register
    keeps its content. *)
Theorem keyboard_poll mc kbd :
  keyboardOf mc = Some kbd ->
  exists mc1,
    read None mc DEV_KBSR
    = Ok (match pending kbd with [] => 0 | _ :: _ => 0x8000 end, mc1)
    /\ keyboardOf mc1 = Some {| pending := tl (pending kbd) |}
    /\ read None mc1 DEV_KBDR
       = Ok (match pending kbd with [] => mem mc DEV_KBDR | key :: _ => key end, mc1)
    /\ (forall value, write None mc1 DEV_KBDR value = Ok mc1)
    /\ (forall a, a <> DEV_KBSR -> a <> DEV_KBDR -> mem mc1 a = mem mc a)
    /\ Registers (State mc1) = Registers (State mc)
    /\ Program (State mc1) = Program (State mc)
    /\ Procstat (State mc1) = Procstat (State mc)
    /\ displayOf mc1 = displayOf mc.
Proof.
  intros Hk. unfold read at 1. change (DEV_KBSR =? DEV_KBSR) with true.
  cbv beta iota. rewrite Hk. unfold ReadByte.
  unfold keyboardOf in Hk. destruct (Devices mc) as [dh|] eqn:Hd; [|discriminate].
  destruct kbd as [[|key rest]]; cbn [pending tl].
  - eexists. split; [reflexivity|]. unfold setKeyboard. rewrite Hd.
    unfold read, write, displayOf. change (DEV_KBDR =? DEV_KBSR) with false.
    change (DEV_KBDR =? DEV_DSR) with false. change (DEV_KBDR =? DEV_DDR) with false.
    change (DEV_KBDR =? DEV_KBDR) with true.
    cbn [negb bind]. mc_simpl. rewrite Hd. cbn [Keyboard Display].
    split; [reflexivity|]. split; [rewrite upd_other by addr_ne; reflexivity|].
    split; [reflexivity|].
    split; [intros a Ha _; apply upd_other; exact Ha|repeat split].
  - eexists. split; [reflexivity|]. unfold setKeyboard. rewrite Hd.
    unfold read, write, displayOf. change (DEV_KBDR =? DEV_KBSR) with false.
    change (DEV_KBDR =? DEV_DSR) with false. change (DEV_KBDR =? DEV_DDR) with false.
    change (DEV_KBDR =? DEV_KBDR) with true.
    cbn [negb bind]. mc_simpl. rewrite Hd. cbn [Keyboard Display].
    split; [reflexivity|]. split; [rewrite upd_same; reflexivity|].
    split; [reflexivity|].
    split; [intros a Ha Hb; rewrite !upd_other by assumption; reflexivity
           |repeat split].
Qed.

Lemma keyboard_poll_witness :
  exists mc1,
    read None keyboardRead DEV_KBSR
    = Ok (match pending {| pending := [102; 111; 111; 98; 97; 114] |} with
          | [] => 0 | _ :: _ => 0x8000 end, mc1)
    /\ keyboardOf mc1
       = Some {| pending := tl (pending {| pending := [102; 111; 111; 98; 97; 114] |}) |}
    /\ read None mc1 DEV_KBDR
       = Ok (match pending {| pending := [102; 111; 111; 98; 97; 114] |} with
             | [] => mem keyboardRead DEV_KBDR | key :: _ => key end, mc1)
    /\ (forall value, write None mc1 DEV_KBDR value = Ok mc1)
    /\ (forall a, a <> DEV_KBSR -> a <> DEV_KBDR -> mem mc1 a = mem keyboardRead a)
    /\ Registers (State mc1) = Registers (State keyboardRead)
    /\ Program (State mc1) = Program (State keyboardRead)
    /\ Procstat (State mc1) = Procstat (State keyboardRead)
    /\ displayOf mc1 = displayOf keyboardRead.
Proof.
  apply (keyboard_poll keyboardRead {| pending := [102; 111; 111; 98; 97; 114] |}).
  reflexivity.
Defined.

Lemma WriteByte_Flush w c :
  broken w = false ->
  match WriteByte w c with
  | Some w' => Flush w' = Some (printed w c)
  | None => False
  end.
Proof.
  intros Hb. unfold WriteByte, Flush, printed.
  destruct (Available w <=? 0).
  - destruct (buffered w) as [|b bs] eqn:Hbuf.
    + rewrite Hbuf. cbn [buffered app broken capacity flushed]. rewrite Hb.
      reflexivity.
    + rewrite Hb. cbn [buffered app broken capacity flushed].
      rewrite <- app_assoc. reflexivity.
  - cbn [buffered app broken capacity flushed]. rewrite Hb.
    destruct (buffered w ++ [c]) as [|b bs] eqn:Hbuf.
    + destruct (buffered w); discriminate.
    + reflexivity.
Qed.

Lemma WriteByte_Flush_broken w c :
  broken w = true ->
  match WriteByte w c with
  | Some w' => Flush w' = None
  | None => True
  end.
Proof.
  intros Hb. unfold WriteByte, Flush.
  destruct (Available w <=? 0).
  - destruct (buffered w) as [|b bs] eqn:Hbuf.
    + rewrite Hbuf. cbn [buffered app broken]. rewrite Hb. reflexivity.
    + rewrite Hb. exact I.
  - cbn [buffered app broken]. rewrite Hb.
    destruct (buffered w ++ [c]) as [|b bs] eqn:Hbuf.
    + destruct (buffered w); discriminate.
    + reflexivity.
Qed.

Lemma write_DDR_ready mc w value :
  displayOf mc = Some w -> broken w = false ->
  write None mc DEV_DDR value
  = Ok (setMemory (setDisplay mc (printed w (Z.land value 0xFF))) DEV_DDR value).
Proof.
  intros Hw Hb. unfold write. change (DEV_DDR =? DEV_DDR) with true.
  change (DEV_DDR =? DEV_KBDR) with false. cbv beta iota. rewrite Hw.
  pose proof (WriteByte_Flush w (Z.land value 0xFF) Hb) as H.
  destruct (WriteByte w (Z.land value 255)) as [w'|]; [|contradiction].
  rewrite H. reflexivity.
Qed.

Lemma write_DDR_broken mc w value :
  displayOf mc = Some w -> broken w = true ->
  exists why, write None mc DEV_DDR value = Panic why /\ displayFault why.
Proof.
  intros Hw Hb. unfold write. change (DEV_DDR =? DEV_DDR) with true.
  cbv beta iota. rewrite Hw.
  pose proof (WriteByte_Flush_broken w (Z.land value 0xFF) Hb) as H.
  destruct (WriteByte w (Z.land value 255)) as [w'|].
  - rewrite H. eexists. split; [reflexivity|]. right. right. reflexivity.
  - eexists. split; [reflexivity|]. right. left. reflexivity.
Qed.

Lemma displayOf_setDisplay mc w w' :
  displayOf mc = Some w -> displayOf (setDisplay mc w') = Some w'.
Proof.
  destruct mc as [[dh|] st]; [reflexivity|discriminate].
Qed.

Lemma keyboardOf_setDisplay mc w' : keyboardOf (setDisplay mc w') = keyboardOf mc.
Proof.
  destruct mc as [[dh|] st]; reflexivity.
Qed.

(** X8.  A store to the display data register sends the low octet of the
    value through the display at once: afterwards the buffer is empty and
    the sink has received what was buffered, then the octet.  The cell
    keeps the value but reads as 0.  When the sink refuses output the
    store panics. *)
Theorem display_store mc w value :
  displayOf mc = Some w ->
  (broken w = false ->
   exists mc',
     write None mc DEV_DDR value = Ok mc'
     /\ displayOf mc' = Some (printed w (Z.land value 0xFF))
     /\ mem mc' DEV_DDR = value
     /\ read None mc' DEV_DDR = Ok (0, mc')
     /\ (forall a, a <> DEV_DDR -> mem mc' a = mem mc a)
     /\ keyboardOf mc' = keyboardOf mc
     /\ Registers (State mc') = Registers (State mc)
     /\ Program (State mc') = Program (State mc)
     /\ Procstat (State mc') = Procstat (State mc))
  /\ (broken w = true ->
      exists why, write None mc DEV_DDR value = Panic why /\ displayFault why).
Proof.
  intros Hw. split; intros Hb.
  - rewrite (write_DDR_ready mc w value Hw Hb). eexists. split; [reflexivity|].
    split; [|split; [|split; [|split; [|split]]]].
    + apply (displayOf_setDisplay mc w). exact Hw.
    + unfold mem. cbn [setMemory State Memory]. apply upd_same.
    + unfold read. change (DEV_DDR =? DEV_KBSR) with false.
      change (DEV_DDR =? DEV_DSR) with false. change (DEV_DDR =? DEV_DDR) with true.
      reflexivity.
    + intros a Ha. unfold mem. cbn [setMemory State Memory].
      rewrite upd_other by exact Ha.
      destruct mc as [[dh|] st]; reflexivity.
    + apply (keyboardOf_setDisplay mc).
    + destruct mc as [[dh|] st]; repeat split.
  - apply (write_DDR_broken mc w value Hw Hb).
Qed.

Lemma display_store_witness :
  (broken {| capacity := 16; buffered := []; flushed := []; broken := false |} = false ->
   exists mc',
     write None withConsole DEV_DDR 0x0141 = Ok mc'
     /\ displayOf mc'
        = Some (printed {| capacity := 16; buffered := []; flushed := []; broken := false |}
                  (Z.land 0x0141 0xFF))
     /\ mem mc' DEV_DDR = 0x0141
     /\ read None mc' DEV_DDR = Ok (0, mc')
     /\ (forall a, a <> DEV_DDR -> mem mc' a = mem withConsole a)
     /\ keyboardOf mc' = keyboardOf withConsole
     /\ Registers (State mc') = Registers (State withConsole)
     /\ Program (State mc') = Program (State withConsole)
     /\ Procstat (State mc') = Procstat (State withConsole))
  /\ (broken {| capacity := 16; buffered := []; flushed := []; broken := false |} = true ->
      exists why, write None withConsole DEV_DDR 0x0141 = Panic why /\ displayFault why).
Proof.
  apply (display_store withConsole
           {| capacity := 16; buffered := []; flushed := []; broken := false |} 0x0141).
  reflexivity.
Defined.

(** ** The panics of the machine *)





















(** ** Exceptions, interrupts and the way back *)

Lemma vector_address vector :
  0 <= vector < 256 -> Z.lor MEMSPACE_INT_TABLE vector = 0x0100 + vector.
Proof.
  intros Hv. rewrite Z.lor_comm. change MEMSPACE_INT_TABLE with (1 * 2 ^ 8).
  rewrite lor_disjoint; [|lia|change (2 ^ 8) with 256; lia].
  change (1 * 2 ^ 8) with 256. lia.
Qed.

Lemma slots_differ r : wrap16 (r - 2) <> wrap16 (r - 4).
Proof.
  unfold wrap16. intros H.
  pose proof (Z.div_mod (r - 2) 65536 ltac:(lia)) as H2.
  pose proof (Z.div_mod (r - 4) 65536 ltac:(lia)) as H4.
  rewrite H in H2. lia.
Qed.

Lemma raiseException_effect mc vector priority :
  word (Procstat (State mc)) ->
  0 <= priority <= 7 -> 0 <= vector < 256 ->
  let below := wrap16 (reg mc 6 - 2) in
  let top := wrap16 (reg mc 6 - 4) in
  plain below -> plain top ->
  exists mc1,
    raiseException None mc vector priority = Ok mc1
    /\ getPrivilege mc1 = true
    /\ getPriority mc1 = priority
    /\ condition mc1 = condition mc
    /\ word (Procstat (State mc1))
    /\ (getPrivilege mc = false -> reg mc1 6 = Stack (State mc) /\ Stack (State mc1) = top)
    /\ (getPrivilege mc = true -> reg mc1 6 = top /\ Stack (State mc1) = Stack (State mc))
    /\ (forall r, r <> 6 -> reg mc1 r = reg mc r)
    /\ mem mc1 below = Procstat (State mc)
    /\ mem mc1 top = Program (State mc)
    /\ (forall a, a <> below -> a <> top -> mem mc1 a = mem mc a)
    /\ Program (State mc1) = mem mc1 (0x0100 + vector)
    /\ Devices mc1 = Devices mc.
Proof.
  intros Hp Hprio Hvec below top (_ & Hb1 & _ & Hb2) (_ & Ht1 & _ & Ht2).
  subst below top.
  unfold raiseException, push. mc_simpl. rewrite upd_same.
  rewrite write_plain by assumption. cbn [bind]. mc_simpl. rewrite upd_same.
  rewrite wrap16_sub_l.
  replace (Registers (State mc) 6 - 2 - 2) with (Registers (State mc) 6 - 4) by lia.
  rewrite write_plain by assumption. cbn [bind].
  match goal with
  | |- context [setPriority ?m priority] =>
      destruct (setPriority_effect m priority Hp Hprio)
        as (mc3 & -> & Hprio3 & Hpriv3 & Hcond3 & Hp3 & Hregs3 & Hst3 & Hpc3
            & Hmem3 & Hdev3)
  end.
  cbn [bind].
  destruct (setPrivilege_effect mc3 true Hp3)
    as (Hpriv4 & Hprio4 & Hregs4 & Hsame4 & Hflip4 & Hps4 & Hpc4 & Hmem4 & Hdev4).
  rewrite vector_address by exact Hvec.
  rewrite read_plain by addr_ne. cbn [bind].
  eexists. split; [reflexivity|]. mc_simpl.
  unfold getPrivilege, getPriority, condition in *. mc_simpl.
  split; [exact Hpriv4|]. split; [congruence|].
  split; [rewrite <- Hcond3; apply (condition_setPrivilege mc3 true)|].
  split; [apply (word_setPrivilege mc3 true Hp3)|].
  rewrite Hmem4, Hmem3. mc_simpl.
  split; [|split; [|split; [|split; [|split; [|split; [|split]]]]]].
  - intros Hu. rewrite Hu in Hpriv3.
    destruct (Hflip4 ltac:(rewrite Hpriv3; discriminate)) as (H6 & Hs).
    rewrite H6, Hs, Hst3, Hregs3. mc_simpl. rewrite upd_same. split; reflexivity.
  - intros Hs. rewrite Hs in Hpriv3.
    destruct (Hsame4 ltac:(symmetry; exact Hpriv3)) as (H6 & Hs' & _).
    rewrite H6, Hs', Hst3, Hregs3. mc_simpl. rewrite upd_same. split; reflexivity.
  - intros r Hr. rewrite Hregs4 by exact Hr. rewrite Hregs3. mc_simpl.
    rewrite !upd_other by exact Hr. reflexivity.
  - rewrite upd_other by apply slots_differ. apply upd_same.
  - apply upd_same.
  - intros a Ha1 Ha2. rewrite !upd_other by assumption. reflexivity.
  - reflexivity.
  - rewrite Hdev4, Hdev3. reflexivity.
Qed.

Lemma execute_RTI_effect mc :
  word (Procstat (State mc)) -> getPrivilege mc = true ->
  let top := Stack (State mc) in
  let below := wrap16 (top + 2) in
  plain top -> plain below ->
  exists mc2,
    execute None 0x8000 mc = Ok mc2
    /\ Program (State mc2) = mem mc top
    /\ Procstat (State mc2) = mem mc below
    /\ reg mc2 6 = wrap16 (below + 2)
    /\ Stack (State mc2) = reg mc 6
    /\ (forall r, r <> 6 -> reg mc2 r = reg mc r)
    /\ Memory (State mc2) = Memory (State mc)
    /\ Devices mc2 = Devices mc.
Proof.
  intros Hp Hs top below (Ht1 & _ & Ht2 & Ht3) (Hb1 & _ & Hb2 & Hb3).
  subst top below.
  rewrite execute_RTI, Hs.
  destruct (setPrivilege_effect mc false Hp)
    as (_ & _ & Hregs & _ & Hflip & _ & Hpc & Hmem & Hdev).
  destruct (Hflip ltac:(rewrite Hs; discriminate)) as (H6 & Hst).
  unfold pop at 1. rewrite H6. rewrite read_plain by assumption.
  cbn [bind fst snd]. unfold pop. mc_simpl. rewrite upd_same.
  unfold reg in H6. rewrite H6.
  rewrite read_plain by assumption. cbn [bind fst snd].
  eexists. split; [reflexivity|]. mc_simpl. rewrite Hmem.
  split; [reflexivity|]. split; [reflexivity|]. split; [apply upd_same|].
  split; [exact Hst|]. split; [|split; [reflexivity|exact Hdev]].
  intros r Hr. rewrite !upd_other by exact Hr. apply Hregs. exact Hr.
Qed.

(** X10.  An exception raised in user mode and the RTI of its handler:
    the exception saves the processor status word and the program counter
    on the user stack, enters supervisor mode at the given priority with
    R6 on the supervisor stack and jumps through the vector table; an RTI
    executed in that state brings back the program counter, the status
    word, every register and the saved stack pointer.  Of the memory only
    the two stack slots have changed. *)
Theorem exception_then_RTI_returns mc vector priority :
  word (Procstat (State mc)) -> word (reg mc 6) ->
  getPrivilege mc = false ->
  0 <= priority <= 7 -> 0 <= vector < 256 ->
  let below := wrap16 (reg mc 6 - 2) in
  let top := wrap16 (reg mc 6 - 4) in
  plain below -> plain top ->
  exists mc1 mc2,
    raiseException None mc vector priority = Ok mc1
    /\ getPrivilege mc1 = true
    /\ getPriority mc1 = priority
    /\ reg mc1 6 = Stack (State mc)
    /\ mem mc1 below = Procstat (State mc)
    /\ mem mc1 top = Program (State mc)
    /\ Program (State mc1) = mem mc1 (0x0100 + vector)
    /\ execute None 0x8000 mc1 = Ok mc2
    /\ Program (State mc2) = Program (State mc)
    /\ Procstat (State mc2) = Procstat (State mc)
    /\ (forall r, reg mc2 r = reg mc r)
    /\ Stack (State mc2) = Stack (State mc)
    /\ (forall a, a <> below -> a <> top -> mem mc2 a = mem mc a)
    /\ Devices mc2 = Devices mc.
Proof.
  intros Hp H6 Hu Hprio Hvec below top Hbelow Htop.
  destruct (raiseException_effect mc vector priority Hp Hprio Hvec Hbelow Htop)
    as (mc1 & Hraise & Hpriv1 & Hprio1 & _ & Hp1 & Huser & _ & Hregs1 & Hm1 & Hm2
        & Hmem1 & Hpc1 & Hdev1).
  destruct (Huser Hu) as (Hr6 & Hst1).
  fold below top in Hm1, Hm2, Hmem1, Hst1.
  assert (wrap16 (top + 2) = below) as Hup.
  { subst top below. rewrite wrap16_add_l. f_equal. lia. }
  assert (wrap16 (below + 2) = reg mc 6) as Hup'.
  { subst below. rewrite wrap16_add_l.
    replace (reg mc 6 - 2 + 2) with (reg mc 6) by lia.
    apply wrap16_small. exact H6. }
  destruct (execute_RTI_effect mc1 Hp1 Hpriv1) as
    (mc2 & Hrti & Hpc2 & Hps2 & Hr2 & Hst2 & Hregs2 & Hmem2 & Hdev2).
  { rewrite Hst1. exact Htop. }
  { rewrite Hst1, Hup. exact Hbelow. }
  rewrite Hst1 in Hpc2, Hps2, Hr2. rewrite Hup in Hps2, Hr2.
  exists mc1, mc2.
  split; [exact Hraise|]. split; [exact Hpriv1|]. split; [exact Hprio1|].
  split; [exact Hr6|]. split; [exact Hm1|]. split; [exact Hm2|].
  split; [exact Hpc1|]. split; [exact Hrti|].
  split; [congruence|]. split; [congruence|].
  split; [|split; [congruence|split; [|congruence]]].
  - intros r. destruct (Z.eq_dec r 6) as [->|Hr].
    + congruence.
    + rewrite Hregs2 by exact Hr. apply Hregs1. exact Hr.
  - intros a Ha1 Ha2. unfold mem. rewrite Hmem2. apply Hmem1; assumption.
Qed.

Lemma exception_then_RTI_returns_witness :
  let below := wrap16 (reg userProgram 6 - 2) in
  let top := wrap16 (reg userProgram 6 - 4) in
  exists mc1 mc2,
    raiseException None userProgram 0x01 1 = Ok mc1
    /\ getPrivilege mc1 = true
    /\ getPriority mc1 = 1
    /\ reg mc1 6 = Stack (State userProgram)
    /\ mem mc1 below = Procstat (State userProgram)
    /\ mem mc1 top = Program (State userProgram)
    /\ Program (State mc1) = mem mc1 (0x0100 + 0x01)
    /\ execute None 0x8000 mc1 = Ok mc2
    /\ Program (State mc2) = Program (State userProgram)
    /\ Procstat (State mc2) = Procstat (State userProgram)
    /\ (forall r, reg mc2 r = reg userProgram r)
    /\ Stack (State mc2) = Stack (State userProgram)
    /\ (forall a, a <> below -> a <> top -> mem mc2 a = mem userProgram a)
    /\ Devices mc2 = Devices userProgram.
Proof.
  apply (exception_then_RTI_returns userProgram 0x01 1); try reflexivity;
    try lia; vm_compute; repeat split; discriminate.
Defined.

Lemma trap_vector_small instruction : 0 <= Z.land instruction 0xFF < 256.
Proof.
  change 0xFF with (Z.ones 8). rewrite Z.land_ones by lia.
  apply Z.mod_pos_bound. lia.
Qed.

(** X11.  A system call and its return: TRAP in user mode enters
    supervisor mode on the supervisor stack, leaves the return address in
    R7 and jumps through the trap table; RTT (JMP R7 with bit 0 set)
    executed in that state goes back to the return address in user mode,
    with R6, the saved stack pointer and the status word as before the
    call.  Nothing is pushed. *)
Theorem trap_then_RTT_returns instruction mc :
  word (Procstat (State mc)) ->
  getPrivilege mc = false ->
  Z.shiftr instruction 12 = OP_TRAP ->
  exists mc1 mc2,
    execute None instruction mc = Ok mc1
    /\ getPrivilege mc1 = true
    /\ getPriority mc1 = getPriority mc
    /\ Program (State mc1) = mem mc (Z.land instruction 0xFF)
    /\ reg mc1 7 = Program (State mc)
    /\ reg mc1 6 = Stack (State mc)
    /\ Stack (State mc1) = reg mc 6
    /\ execute None 0xC1C1 mc1 = Ok mc2
    /\ getPrivilege mc2 = false
    /\ Program (State mc2) = Program (State mc)
    /\ Procstat (State mc2) = Procstat (State mc)
    /\ (forall r, r <> 7 -> reg mc2 r = reg mc r)
    /\ Stack (State mc2) = Stack (State mc)
    /\ Memory (State mc2) = Memory (State mc)
    /\ Devices mc2 = Devices mc.
Proof.
  intros Hp Hu Hop.
  pose proof (trap_vector_small instruction) as Hvec.
  destruct (setPrivilege_effect mc true Hp)
    as (Hpriv1 & Hprio1 & Hregs1 & _ & Hflip1 & Hps1 & Hpc1 & Hmem1 & Hdev1).
  destruct (Hflip1 ltac:(rewrite Hu; discriminate)) as (H6 & Hst1).
  pose proof (word_setPrivilege mc true Hp) as Hp1.
  assert (exists mc1, execute None instruction mc = Ok mc1
            /\ mc1 = setProgram
                       (setRegister (setPrivilege mc true) 7
                          (Program (State (setPrivilege mc true))))
                       (mem (setPrivilege mc true) (Z.land instruction 0xFF)))
    as (mc1 & -> & Hmc1).
  { unfold execute at 1. rewrite Hop. opcodes. eval_Z.
    rewrite ZeroExtend_is_identity.
    rewrite read_plain by addr_ne. cbn [bind].
    eexists. split; reflexivity. }
  exists mc1, (setPrivilege (setProgram mc1 (reg mc1 7)) false).
  split; [reflexivity|].
  assert (Hp1' : word (Procstat (State mc1))) by (subst mc1; exact Hp1).
  assert (Hpriv1' : getPrivilege mc1 = true) by (subst mc1; exact Hpriv1).
  destruct (setPrivilege_effect (setProgram mc1 (reg mc1 7)) false Hp1')
    as (Hpriv2 & _ & Hregs2 & _ & Hflip2 & Hps2 & Hpc2 & Hmem2 & Hdev2).
  destruct (Hflip2 ltac:(change (false <> getPrivilege mc1);
                         rewrite Hpriv1'; discriminate)) as (H6' & Hst2).
  split; [exact Hpriv1'|]. split; [subst mc1; exact Hprio1|].
  split; [subst mc1; mc_simpl; rewrite Hmem1; reflexivity|].
  split; [subst mc1; mc_simpl; rewrite upd_same; exact Hpc1|].
  split; [subst mc1; mc_simpl; rewrite upd_other by lia; exact H6|].
  split; [subst mc1; exact Hst1|].
  assert (execute None 0xC1C1 mc1
          = Ok (setPrivilege (setProgram mc1 (reg mc1 7)) false)) as ->.
  { unfold execute. opcodes. eval_Z.
    change (getPrivilege (setProgram mc1 (reg mc1 7))) with (getPrivilege mc1).
    rewrite Hpriv1'. reflexivity. }
  split; [reflexivity|]. split; [exact Hpriv2|].
  split; [rewrite Hpc2; subst mc1; mc_simpl; rewrite upd_same; exact Hpc1|].
  split.
  { rewrite Hps2. subst mc1.
    change (Procstat (State (setProgram _ _)))
      with (Procstat (State (setPrivilege mc true))).
    rewrite Hps1. apply privilege_bit_remove; [exact Hp|].
    unfold getPrivilege in Hu. destruct (high_bit _ Hp) as [H|H]; [exact H|].
    rewrite H in Hu. discriminate Hu. }
  split.
  { intros r Hr. destruct (Z.eq_dec r 6) as [->|Hr6].
    - rewrite H6'. subst mc1. exact Hst1.
    - rewrite Hregs2 by exact Hr6. subst mc1. mc_simpl.
      rewrite upd_other by exact Hr. apply Hregs1. exact Hr6. }
  split.
  { rewrite Hst2. subst mc1. mc_simpl. rewrite upd_other by lia. exact H6. }
  split; [rewrite Hmem2; subst mc1; exact Hmem1|].
  rewrite Hdev2. subst mc1. exact Hdev1.
Qed.

Lemma trap_then_RTT_returns_witness :
  exists mc1 mc2,
    execute None 0xF025 userProgram = Ok mc1
    /\ getPrivilege mc1 = true
    /\ getPriority mc1 = getPriority userProgram
    /\ Program (State mc1) = mem userProgram (Z.land 0xF025 0xFF)
    /\ reg mc1 7 = Program (State userProgram)
    /\ reg mc1 6 = Stack (State userProgram)
    /\ Stack (State mc1) = reg userProgram 6
    /\ execute None 0xC1C1 mc1 = Ok mc2
    /\ getPrivilege mc2 = false
    /\ Program (State mc2) = Program (State userProgram)
    /\ Procstat (State mc2) = Procstat (State userProgram)
    /\ (forall r, r <> 7 -> reg mc2 r = reg userProgram r)
    /\ Stack (State mc2) = Stack (State userProgram)
    /\ Memory (State mc2) = Memory (State userProgram)
    /\ Devices mc2 = Devices userProgram.
Proof.
  apply (trap_then_RTT_returns 0xF025 userProgram); try reflexivity.
  vm_compute. split; [discriminate|reflexivity].
Defined.

(** X12.  The keyboard interrupt is raised exactly when the keyboard has
    input waiting and the priority is below 4.  It goes through vector
    0x80 at priority 4, saves the status word and the program counter on
    the stack, does not take the octet from the keyboard, and is not
    raised again in the state it leaves. *)
Theorem keyboard_interrupt_raised mc kbd :
  keyboardOf mc = Some kbd ->
  word (Procstat (State mc)) ->
  let below := wrap16 (reg mc 6 - 2) in
  let top := wrap16 (reg mc 6 - 4) in
  plain below -> plain top ->
  (pending kbd <> [] -> getPriority mc < 4 ->
   exists mc1,
     keyboardInterrupt None mc = Ok mc1
     /\ getPrivilege mc1 = true
     /\ getPriority mc1 = 4
     /\ Program (State mc1) = mem mc1 0x0180
     /\ mem mc1 below = Procstat (State mc)
     /\ mem mc1 top = Program (State mc)
     /\ keyboardOf mc1 = Some kbd
     /\ keyboardInterrupt None mc1 = Ok mc1)
  /\ (pending kbd = [] \/ 4 <= getPriority mc -> keyboardInterrupt None mc = Ok mc).
Proof.
  intros Hk Hp below top Hbelow Htop. split.
  - intros Hin Hlow. unfold keyboardInterrupt at 1. rewrite Hk.
    assert (Peek1 kbd = true) as ->.
    { unfold Peek1. destruct (pending kbd); [contradiction|reflexivity]. }
    assert ((getPriority mc <? 4) = true) as -> by (apply Z.ltb_lt; exact Hlow).
    cbn [andb].
    destruct (raiseException_effect mc 0x80 4 Hp ltac:(lia) ltac:(lia) Hbelow Htop)
      as (mc1 & -> & Hpriv1 & Hprio1 & _ & _ & _ & _ & _ & Hm1 & Hm2 & _ & Hpc1
          & Hdev1).
    exists mc1. split; [reflexivity|]. split; [exact Hpriv1|].
    split; [exact Hprio1|]. split; [exact Hpc1|]. split; [exact Hm1|].
    split; [exact Hm2|].
    split; [unfold keyboardOf in *; rewrite Hdev1; exact Hk|].
    apply keyboardInterrupt_masked. rewrite Hprio1. reflexivity.
  - intros [Hempty|Hhigh].
    + unfold keyboardInterrupt. rewrite Hk. unfold Peek1. rewrite Hempty.
      reflexivity.
    + apply keyboardInterrupt_masked. apply Z.ltb_ge. exact Hhigh.
Qed.

Lemma keyboard_interrupt_raised_witness :
  let kbd := {| pending := [102; 111; 111; 98; 97; 114] |} in
  let below := wrap16 (reg keyboardInterrupts 6 - 2) in
  let top := wrap16 (reg keyboardInterrupts 6 - 4) in
  (pending kbd <> [] -> getPriority keyboardInterrupts < 4 ->
   exists mc1,
     keyboardInterrupt None keyboardInterrupts = Ok mc1
     /\ getPrivilege mc1 = true
     /\ getPriority mc1 = 4
     /\ Program (State mc1) = mem mc1 0x0180
     /\ mem mc1 below = Procstat (State keyboardInterrupts)
     /\ mem mc1 top = Program (State keyboardInterrupts)
     /\ keyboardOf mc1 = Some kbd
     /\ keyboardInterrupt None mc1 = Ok mc1)
  /\ (pending kbd = [] \/ 4 <= getPriority keyboardInterrupts ->
      keyboardInterrupt None keyboardInterrupts = Ok keyboardInterrupts).
Proof.
  apply (keyboard_interrupt_raised keyboardInterrupts
           {| pending := [102; 111; 111; 98; 97; 114] |}); try reflexivity;
    vm_compute; repeat split; discriminate.
Defined.

(** ** PC-relative references from the assembler to the machine *)

Lemma wrap16_idem x : wrap16 (wrap16 x) = wrap16 x.
Proof. unfold wrap16. apply Z.mod_mod. lia. Qed.

Lemma signed_field offset size :
  1 <= size <= 16 ->
  - 2 ^ (size - 1) <= offset < 2 ^ (size - 1) ->
  wrap16 (Encoding.SignExtend (offset mod 2 ^ size) size) = wrap16 offset.
Proof.
  intros Hs Ho.
  assert (2 ^ size = 2 * 2 ^ (size - 1)) as Hp.
  { rewrite <- Z.pow_succ_r by lia. f_equal. lia. }
  assert (0 < 2 ^ (size - 1)) as Hpos by (apply Z.pow_pos_nonneg; lia).
  rewrite SignExtend_signed;
    [|exact Hs|apply Z.mod_pos_bound; lia].
  rewrite wrap16_idem. f_equal.
  destruct (Z_lt_le_dec offset 0) as [Hneg|Hnn].
  - assert (offset mod 2 ^ size = offset + 2 ^ size) as ->.
    { symmetry. apply (Z.mod_unique_pos _ _ (-1)); lia. }
    assert ((offset + 2 ^ size <? 2 ^ (size - 1)) = false) as ->
      by (apply Z.ltb_ge; lia).
    lia.
  - rewrite Z.mod_small by lia.
    assert ((offset <? 2 ^ (size - 1)) = true) as -> by (apply Z.ltb_lt; lia).
    reflexivity.
Qed.

Lemma field_of_resolved w offset size :
  0 <= size -> 0 <= w -> Z.land w (Z.ones size) = 0 ->
  Z.land (Z.lor w (offset mod 2 ^ size)) (Z.ones size) = offset mod 2 ^ size
  /\ Z.shiftr (Z.lor w (offset mod 2 ^ size)) size = Z.shiftr w size.
Proof.
  intros Hs Hw Hlow.
  assert (0 < 2 ^ size) as Hpos by (apply Z.pow_pos_nonneg; lia).
  pose proof (Z.mod_pos_bound offset (2 ^ size) Hpos) as Hm.
  split.
  - rewrite Z.land_lor_distr_l, Hlow, Z.lor_0_l.
    rewrite Z.land_ones by exact Hs. apply Z.mod_small. exact Hm.
  - rewrite Z.shiftr_lor.
    rewrite (Z.shiftr_div_pow2 (offset mod 2 ^ size)) by exact Hs.
    rewrite Z.div_small by exact Hm. apply Z.lor_0_r.
Qed.

Lemma resolveLabelRef_in_range labels ref image errs target :
  labels !! refLabel ref = Some target ->
  refSize ref = LITERAL_PCOFFSET9 \/ refSize ref = LITERAL_PCOFFSET11 ->
  - 2 ^ (refSize ref - 1) <= target - (refAddr ref + 1) < 2 ^ (refSize ref - 1) ->
  resolveLabelRef labels (image, errs) ref
  = (upd image (refAddr ref)
       (Z.lor (image (refAddr ref))
          ((target - (refAddr ref + 1)) mod 2 ^ refSize ref)), errs).
Proof.
  intros Hl Hsize Hrange. unfold resolveLabelRef. rewrite Hl.
  rewrite Z.shiftl_1_l.
  replace (target - refAddr ref - 1) with (target - (refAddr ref + 1)) by lia.
  assert ((target - (refAddr ref + 1) <? - 2 ^ (refSize ref - 1)) = false) as ->
    by (apply Z.ltb_ge; lia).
  assert ((2 ^ (refSize ref - 1) <=? target - (refAddr ref + 1)) = false) as ->
    by (apply Z.leb_gt; lia).
  cbn [orb]. rewrite low_bits by exact Hsize. reflexivity.
Qed.

(** X13.  The assembler and the machine agree on PC-relative label
    references.  When the post-pass resolves a reference of 9 or 11 bits
    whose field in the image word is still empty and whose label is in
    range, it reports nothing and keeps the bits above the field; the
    address that the machine computes from the word, the incremented
    program counter plus the sign-extended field, is the address of the
    label.  So a resolved JSR jumps to its label, leaving the return
    address in R7, and a resolved LEA loads the address of its label. *)
Theorem label_reference_reaches_label labels ref image errs target :
  labels !! refLabel ref = Some target ->
  refSize ref = LITERAL_PCOFFSET9 \/ refSize ref = LITERAL_PCOFFSET11 ->
  word target ->
  - 2 ^ (refSize ref - 1) <= target - (refAddr ref + 1) < 2 ^ (refSize ref - 1) ->
  0 <= image (refAddr ref) ->
  Z.land (image (refAddr ref)) (Z.ones (refSize ref)) = 0 ->
  let instruction := fst (resolveLabelRef labels (image, errs) ref) (refAddr ref) in
  snd (resolveLabelRef labels (image, errs) ref) = errs
  /\ Z.shiftr instruction (refSize ref) = Z.shiftr (image (refAddr ref)) (refSize ref)
  /\ wrap16 (wrap16 (refAddr ref + 1)
             + Encoding.SignExtend (Z.land instruction (Z.ones (refSize ref)))
                 (refSize ref)) = target
  /\ (forall mc,
        Program (State mc) = wrap16 (refAddr ref + 1) ->
        refSize ref = LITERAL_PCOFFSET11 ->
        opcodeOf instruction = OP_JSR ->
        Z.land (Z.shiftr instruction 11) 1 = 1 ->
        exists mc',
          execute None instruction mc = Ok mc'
          /\ Program (State mc') = target
          /\ reg mc' 7 = wrap16 (refAddr ref + 1))
  /\ (forall mc,
        Program (State mc) = wrap16 (refAddr ref + 1) ->
        refSize ref = LITERAL_PCOFFSET9 ->
        opcodeOf instruction = OP_LEA ->
        exists mc',
          execute None instruction mc = Ok mc'
          /\ reg mc' (destOf instruction) = target
          /\ Program (State mc') = wrap16 (refAddr ref + 1)).
Proof.
  intros Hl Hsize Ht Hrange Hnn Hlow. cbv zeta.
  rewrite (resolveLabelRef_in_range labels ref image errs target Hl Hsize Hrange).
  cbn [fst snd]. rewrite upd_same.
  assert (1 <= refSize ref <= 16) as Hs.
  { destruct Hsize as [-> | ->]; unfold LITERAL_PCOFFSET9, LITERAL_PCOFFSET11; lia. }
  destruct (field_of_resolved (image (refAddr ref)) (target - (refAddr ref + 1))
              (refSize ref) ltac:(lia) Hnn Hlow) as (Hfield & Hhigh).
  assert (Haddr : wrap16 (wrap16 (refAddr ref + 1)
             + Encoding.SignExtend
                 (Z.land (Z.lor (image (refAddr ref))
                            ((target - (refAddr ref + 1)) mod 2 ^ refSize ref))
                    (Z.ones (refSize ref)))
                 (refSize ref)) = target).
  { rewrite Hfield, wrap16_add_l, <- wrap16_add_r.
    rewrite signed_field by assumption.
    rewrite wrap16_add_r.
    replace (refAddr ref + 1 + (target - (refAddr ref + 1))) with target by lia.
    apply wrap16_small. exact Ht. }
  split; [reflexivity|]. split; [exact Hhigh|]. split; [exact Haddr|].
  split.
  - intros mc Hpc H11 Hop Hbit. rewrite H11 in Haddr, Hop, Hbit |- *.
    unfold opcodeOf in Hop. unfold execute. rewrite Hop. opcodes. eval_Z.
    rewrite Hbit. eval_Z. eexists. split; [reflexivity|].
    mc_simpl. rewrite upd_same, Hpc. split; [exact Haddr|reflexivity].
  - intros mc Hpc H9 Hop. rewrite H9 in Haddr, Hop |- *.
    unfold opcodeOf in Hop. unfold execute. rewrite Hop. opcodes. eval_Z.
    eexists. split; [reflexivity|].
    unfold destOf.
    assert (forall m v, Registers (State (setFlags m v)) = Registers (State m)
                        /\ Program (State (setFlags m v)) = Program (State m)) as Hf.
    { intros m v. unfold setFlags.
      destruct (v =? 0); [|destruct (Z.shiftr v 15 =? 1)]; split; reflexivity. }
    unfold reg.
    match goal with
    | |- context [setFlags ?m ?v] => destruct (Hf m v) as (-> & ->)
    end.
    mc_simpl. rewrite upd_same, Hpc. split; [exact Haddr|reflexivity].
Qed.

Lemma label_reference_reaches_label_witness :
  let instruction := fst (resolveLabelRef callLabels (callImage, []) callRef)
                       (refAddr callRef) in
  snd (resolveLabelRef callLabels (callImage, []) callRef) = []
  /\ Z.shiftr instruction (refSize callRef)
     = Z.shiftr (callImage (refAddr callRef)) (refSize callRef)
  /\ wrap16 (wrap16 (refAddr callRef + 1)
             + Encoding.SignExtend (Z.land instruction (Z.ones (refSize callRef)))
                 (refSize callRef)) = 0x2FF0
  /\ (forall mc,
        Program (State mc) = wrap16 (refAddr callRef + 1) ->
        refSize callRef = LITERAL_PCOFFSET11 ->
        opcodeOf instruction = OP_JSR ->
        Z.land (Z.shiftr instruction 11) 1 = 1 ->
        exists mc',
          execute None instruction mc = Ok mc'
          /\ Program (State mc') = 0x2FF0
          /\ reg mc' 7 = wrap16 (refAddr callRef + 1))
  /\ (forall mc,
        Program (State mc) = wrap16 (refAddr callRef + 1) ->
        refSize callRef = LITERAL_PCOFFSET9 ->
        opcodeOf instruction = OP_LEA ->
        exists mc',
          execute None instruction mc = Ok mc'
          /\ reg mc' (destOf instruction) = 0x2FF0
          /\ Program (State mc') = wrap16 (refAddr callRef + 1)).
Proof.
  apply (label_reference_reaches_label callLabels callRef callImage [] 0x2FF0).
  - reflexivity.
  - right. reflexivity.
  - unfold word. lia.
  - vm_compute. split; [intros H; discriminate H|reflexivity].
  - vm_compute. intros H; discriminate H.
  - reflexivity.
Defined.

(** ** Strings in the image *)

Lemma wrap32_small x : 0 <= x < 4294967296 -> wrap32 x = x.
Proof. intros H. unfold wrap32. apply Z.mod_small. exact H. Qed.

Lemma store_inside image program value :
  0 <= program < 65536 -> store image program value = Ok (upd image program value).
Proof.
  intros H. unfold store.
  assert ((0 <=? program) = true) as -> by (apply Z.leb_le; lia).
  assert ((program <? 65536) = true) as -> by (apply Z.ltb_lt; lia).
  reflexivity.
Qed.

Lemma store_outside image program value :
  65536 <= program -> store image program value = Panic "index out of range".
Proof.
  intros H. unfold store.
  assert ((program <? 65536) = false) as -> by (apply Z.ltb_ge; lia).
  rewrite andb_false_r. reflexivity.
Qed.

Lemma storeRunes_inside rs : forall image program,
  0 <= program -> program + Z.of_nat (length rs) <= 65536 ->
  exists image',
    storeRunes image program rs = Ok (image', program + Z.of_nat (length rs))
    /\ (forall k, 0 <= k < Z.of_nat (length rs) ->
          image' (program + k) = wrap16 (nth (Z.to_nat k) rs 0))
    /\ (forall a, a < program \/ program + Z.of_nat (length rs) <= a ->
          image' a = image a).
Proof.
  induction rs as [|c rest IH]; intros image program Hp Hfit.
  - exists image. cbn [storeRunes length]. rewrite Z.add_0_r.
    split; [reflexivity|]. split; [intros k Hk; cbn in Hk; lia|reflexivity].
  - cbn [length] in Hfit. cbn [storeRunes].
    rewrite store_inside by lia. cbn [bind].
    rewrite wrap32_small by lia.
    destruct (IH (upd image program (wrap16 c)) (program + 1) ltac:(lia) ltac:(lia))
      as (image' & Hrun & Hcells & Hrest).
    exists image'. cbn [length].
    split; [rewrite Hrun; do 2 f_equal; lia|]. split.
    + intros k Hk. destruct (Z.eq_dec k 0) as [->|Hne].
      * rewrite Z.add_0_r, Hrest by lia. rewrite upd_same. reflexivity.
      * replace (program + k) with (program + 1 + (k - 1)) by lia.
        rewrite Hcells by lia.
        replace (Z.to_nat k) with (S (Z.to_nat (k - 1))) by lia. reflexivity.
    + intros a Ha. rewrite Hrest by lia. apply upd_other. lia.
Qed.

Lemma storeRunes_outside rs : forall image program,
  0 <= program <= 65536 -> 65536 < program + Z.of_nat (length rs) ->
  storeRunes image program rs = Panic "index out of range".
Proof.
  induction rs as [|c rest IH]; intros image program Hp Hout.
  - cbn [length] in Hout. lia.
  - cbn [length] in Hout. cbn [storeRunes].
    destruct (Z_lt_le_dec program 65536) as [Hlt|Hge].
    + rewrite store_inside by lia. cbn [bind].
      rewrite wrap32_small by lia. apply IH; lia.
    + rewrite store_outside by exact Hge. reflexivity.
Qed.

(** X14.  The layout and the limit of [.STRINGZ]: with one string operand
    the directive stores the runes of the string, each cut to 16 bits, at
    consecutive addresses from the program cursor on, then a zero word,
    and moves the cursor behind it; nothing else in the image changes.  A
    text that [Unquote] rejects counts as the empty string and is
    reported.  The directive returns exactly when the string and its
    terminator end inside the image; otherwise it panics. *)
Theorem stringz_layout lib lbls keyword op program0 image0 errs0 fills :
  TType op = TOKEN_STRING ->
  0 <= program0 <= 65536 ->
  let rs := match GoText.Unquote lib (Value op) with
            | Some s => Utf8.runes (bytesZ s)
            | None => []
            end in
  let errs' := match GoText.Unquote lib (Value op) with
               | Some _ => errs0
               | None => errs0 ++ [InvalidStringError (Position op)]
               end in
  let n := Z.of_nat (length rs) in
  (program0 + n < 65536 ->
   exists image',
     assembleDirective lib lbls keyword [op] DIRECTIVE_STRINGZ program0 image0
       errs0 fills
     = Ok (program0 + n + 1, image', errs', fills)
     /\ (forall k, 0 <= k < n ->
           image' (program0 + k) = wrap16 (nth (Z.to_nat k) rs 0))
     /\ image' (program0 + n) = 0
     /\ (forall a, a < program0 \/ program0 + n < a -> image' a = image0 a))
  /\ (65536 <= program0 + n ->
      assembleDirective lib lbls keyword [op] DIRECTIVE_STRINGZ program0 image0
        errs0 fills
      = Panic "index out of range").
Proof.
  intros Hty Hp rs errs' n.
  assert (Hdir : assembleDirective lib lbls keyword [op] DIRECTIVE_STRINGZ program0
                   image0 errs0 fills
                 = bind (storeRunes image0 program0 rs) (fun stored =>
                     bind (store (fst stored) (snd stored) 0) (fun image' =>
                       Ok (wrap32 (snd stored + 1), image', errs', fills)))).
  { unfold assembleDirective. cbn [count length operand nth_error bind].
    change (Z.of_nat 1 =? 1) with true. cbn [negb]. rewrite Hty.
    cbn [tokenType_eqb negb]. subst rs errs'.
    destruct (GoText.Unquote lib (Value op)) as [s|].
    - destruct (storeRunes image0 program0 (Utf8.runes (bytesZ s))) as [[i p]|];
        reflexivity.
    - cbn [bytesZ Utf8.runes Utf8.rangeString map storeRunes bind fst snd].
      reflexivity. }
  rewrite Hdir. split.
  - intros Hfit.
    destruct (storeRunes_inside rs image0 program0 ltac:(lia) ltac:(fold n; lia))
      as (image1 & -> & Hcells & Hrest).
    fold n in Hcells, Hrest |- *. cbn [bind fst snd].
    rewrite store_inside by lia. cbn [bind].
    rewrite wrap32_small by lia.
    exists (upd image1 (program0 + n) 0). split; [reflexivity|].
    split; [|split].
    + intros k Hk. rewrite upd_other by lia. apply Hcells. exact Hk.
    + apply upd_same.
    + intros a Ha. rewrite upd_other by lia. apply Hrest. lia.
  - intros Hout. destruct (Z.eq_dec (program0 + n) 65536) as [Heq|Hne].
    + destruct (storeRunes_inside rs image0 program0 ltac:(lia) ltac:(fold n; lia))
        as (image1 & -> & _).
      fold n. cbn [bind fst snd]. rewrite store_outside by lia. reflexivity.
    + rewrite storeRunes_outside; [reflexivity|lia|fold n; lia].
Qed.

Lemma stringz_layout_witness :
  let rs := match GoText.Unquote latin1Library (Value stringToken) with
            | Some s => Utf8.runes (bytesZ s)
            | None => []
            end in
  let errs' := match GoText.Unquote latin1Library (Value stringToken) with
               | Some _ => []
               | None => [] ++ [InvalidStringError (Position stringToken)]
               end in
  let n := Z.of_nat (length rs) in
  (0xFFFD + n < 65536 ->
   exists image',
     assembleDirective latin1Library ∅ None [stringToken] DIRECTIVE_STRINGZ 0xFFFD
       (fun _ => 0) [] []
     = Ok (0xFFFD + n + 1, image', errs', [])
     /\ (forall k, 0 <= k < n ->
           image' (0xFFFD + k) = wrap16 (nth (Z.to_nat k) rs 0))
     /\ image' (0xFFFD + n) = 0
     /\ (forall a, a < 0xFFFD \/ 0xFFFD + n < a -> image' a = 0))
  /\ (65536 <= 0xFFFD + n ->
      assembleDirective latin1Library ∅ None [stringToken] DIRECTIVE_STRINGZ 0xFFFD
        (fun _ => 0) [] []
      = Panic "index out of range").
Proof.
  apply (stringz_layout latin1Library ∅ None stringToken 0xFFFD (fun _ => 0) [] []).
  - reflexivity.
  - lia.
Defined.

(** ** The passes over the deferred references *)

Lemma resolveLabelRef_step lbls image errs ref :
  (resolvable lbls ref /\ snd (resolveLabelRef lbls (image, errs) ref) = errs
   \/ ~ resolvable lbls ref
      /\ exists e, snd (resolveLabelRef lbls (image, errs) ref) = errs ++ [e])
  /\ (forall a, a <> refAddr ref ->
        fst (resolveLabelRef lbls (image, errs) ref) a = image a).
Proof.
  unfold resolveLabelRef, resolvable.
  destruct (lbls !! refLabel ref) as [target|] eqn:Hl.
  - destruct (target - refAddr ref - 1 <? - Z.shiftl 1 (refSize ref - 1)) eqn:Hlo;
      [|destruct (Z.shiftl 1 (refSize ref - 1) <=? target - refAddr ref - 1) eqn:Hhi];
      cbn [orb fst snd].
    + split; [|reflexivity]. right. split; [|eexists; reflexivity].
      intros (t & Ht & Hr). injection Ht as <-. apply Z.ltb_lt in Hlo. lia.
    + split; [|reflexivity]. right. split; [|eexists; reflexivity].
      intros (t & Ht & Hr). injection Ht as <-. apply Z.leb_le in Hhi. lia.
    + split.
      * left. split; [|reflexivity]. exists target. split; [reflexivity|].
        apply Z.ltb_ge in Hlo. apply Z.leb_gt in Hhi. lia.
      * intros a Ha. apply upd_other. exact Ha.
  - cbn [fst snd]. split; [|reflexivity]. right. split; [|eexists; reflexivity].
    intros (t & Ht & _). discriminate Ht.
Qed.

Lemma resolveFillRef_step lbls image errs ref :
  (fillable lbls ref /\ snd (resolveFillRef lbls (image, errs) ref) = errs
   \/ ~ fillable lbls ref
      /\ exists e, snd (resolveFillRef lbls (image, errs) ref) = errs ++ [e])
  /\ (forall a, a <> fillAddr ref ->
        fst (resolveFillRef lbls (image, errs) ref) a = image a).
Proof.
  unfold resolveFillRef, fillable.
  destruct (lbls !! fillLabel ref) as [target|] eqn:Hl; cbn [fst snd].
  - split; [left; split; [eexists; reflexivity|reflexivity]|].
    intros a Ha. apply upd_other. exact Ha.
  - split; [|reflexivity]. right. split; [|eexists; reflexivity].
    intros (t & Ht). discriminate Ht.
Qed.

(** A fold whose steps append at most one error and write at most one
    cell. *)
Lemma pass_frame {R : Type} (ok : R -> Prop) (addr : R -> Z)
    (step : (Z -> Z) * list error -> R -> (Z -> Z) * list error) :
  (forall image errs ref,
      (ok ref /\ snd (step (image, errs) ref) = errs
       \/ ~ ok ref /\ exists e, snd (step (image, errs) ref) = errs ++ [e])
      /\ (forall a, a <> addr ref -> fst (step (image, errs) ref) a = image a)) ->
  forall refs image errs,
    (exists more,
        snd (fold_left step refs (image, errs)) = errs ++ more
        /\ (length more <= length refs)%nat
        /\ (more = [] <-> Forall ok refs))
    /\ (forall a, ~ In a (map addr refs) ->
          fst (fold_left step refs (image, errs)) a = image a).
Proof.
  intros Hstep refs. induction refs as [|ref rest IH]; intros image errs.
  - cbn [fold_left fst snd map length]. split.
    + exists []. rewrite app_nil_r. split; [reflexivity|].
      split; [cbn [length]; lia|].
      split; [intros _; constructor|reflexivity].
    + reflexivity.
  - cbn [fold_left map length].
    destruct (Hstep image errs ref) as (Herr & Hcell).
    destruct (step (image, errs) ref) as [image1 errs1] eqn:Hs. cbn [fst snd] in *.
    destruct (IH image1 errs1) as ((more & Hmore & Hlen & Hiff) & Hframe).
    split.
    + destruct Herr as [(Hok & ->) | (Hbad & e & ->)].
      * exists more. split; [exact Hmore|]. split; [lia|]. split.
        -- intros H. constructor; [exact Hok|apply Hiff; exact H].
        -- intros H. apply Hiff. inversion H; assumption.
      * exists (e :: more). split; [rewrite Hmore, <- app_assoc; reflexivity|].
        split; [cbn [length]; lia|]. split.
        -- intros H. discriminate H.
        -- intros H. inversion H; contradiction.
    + intros a Ha. rewrite Hframe.
      * apply Hcell. intros ->. apply Ha. left. reflexivity.
      * intros Hin. apply Ha. right. exact Hin.
Qed.

(** X15.  The two passes over the deferred references, one after the
    other: they only append to the errors, at most one error for each
    reference; they report nothing exactly when every label reference can
    be resolved and every deferred [.FILL] names a declared label; and
    they leave every image word alone that no reference points at. *)
Theorem post_passes_frame lbls lrefs frefs image0 errs0 :
  let afterLabels := resolveLabelRefs lbls lrefs image0 errs0 in
  let afterFills :=
    resolveFillRefs lbls frefs (fst afterLabels) (snd afterLabels) in
  (exists more,
      snd afterFills = errs0 ++ more
      /\ (length more <= length lrefs + length frefs)%nat
      /\ (more = [] <-> Forall (resolvable lbls) lrefs /\ Forall (fillable lbls) frefs))
  /\ (forall a, ~ In a (map refAddr lrefs) -> ~ In a (map fillAddr frefs) ->
        fst afterFills a = image0 a).
Proof.
  cbv zeta. unfold resolveLabelRefs, resolveFillRefs.
  destruct (pass_frame (resolvable lbls) refAddr (resolveLabelRef lbls)
              (resolveLabelRef_step lbls) lrefs image0 errs0)
    as ((more1 & Hm1 & Hl1 & Hiff1) & Hf1).
  destruct (fold_left (resolveLabelRef lbls) lrefs (image0, errs0))
    as [image1 errs1]. cbn [fst snd] in *.
  destruct (pass_frame (fillable lbls) fillAddr (resolveFillRef lbls)
              (resolveFillRef_step lbls) frefs image1 errs1)
    as ((more2 & Hm2 & Hl2 & Hiff2) & Hf2).
  split.
  - exists (more1 ++ more2).
    split; [rewrite Hm2, Hm1, <- app_assoc; reflexivity|].
    split; [rewrite length_app; lia|]. split.
    + intros H. apply app_eq_nil in H as (H1 & H2).
      split; [apply Hiff1; exact H1|apply Hiff2; exact H2].
    + intros (H1 & H2). apply Hiff1 in H1. apply Hiff2 in H2. subst.
      reflexivity.
  - intros a Ha1 Ha2. rewrite Hf2 by exact Ha2. apply Hf1. exact Ha1.
Qed.

(** ** From the assembler's output file to the machine's memory *)

Lemma flat_map_pairs (hi lo : Z -> Z) l : forall k,
  (k < length l)%nat ->
  nth (2 * k) (flat_map (fun i => [hi i; lo i]) l) 0 = hi (nth k l 0)
  /\ nth (2 * k + 1) (flat_map (fun i => [hi i; lo i]) l) 0 = lo (nth k l 0).
Proof.
  induction l as [|x rest IH]; intros k Hk; cbn [length] in Hk; [lia|].
  destruct k as [|k].
  - split; reflexivity.
  - replace (2 * S k)%nat with (S (S (2 * k))) by lia.
    replace (S (S (2 * k)) + 1)%nat with (S (S (2 * k + 1))) by lia.
    cbn [flat_map app nth]. apply IH. lia.
Qed.

Lemma flat_map_pairs_length (f : Z -> list Z) l :
  (forall i, length (f i) = 2%nat) -> length (flat_map f l) = (2 * length l)%nat.
Proof.
  intros Hf. induction l as [|x rest IH]; [reflexivity|].
  cbn [flat_map length]. rewrite length_app, Hf, IH. lia.
Qed.

Lemma word_octets v :
  word v -> Z.land (Z.shiftr v 8) 0xFF * 256 + Z.land v 0xFF = v.
Proof.
  unfold word. intros Hv.
  change 0xFF with (Z.ones 8). rewrite !Z.land_ones by lia.
  rewrite Z.shiftr_div_pow2 by lia. change (2 ^ 8) with 256.
  rewrite (Z.mod_small (v / 256)).
  - pose proof (Z.div_mod v 256). lia.
  - split; [apply Z.div_pos; lia|apply Z.div_lt_upper_bound; lia].
Qed.

(** X16.  What [golc3-asm] writes, [golc3] loads, up to the last word:
    for an image of 16-bit words [LoadBin] of the output file reports no
    error and brings every word to its address, except that address 65535
    is left zero. *)
Theorem image_file_round_trip mc image0 :
  (forall a, word (image0 a)) ->
  length (writeImage image0) = Z.to_nat 131072
  /\ snd (LoadBin mc (writeImage image0)) = None
  /\ (forall i, 0 <= i < 65535 ->
        mem (fst (LoadBin mc (writeImage image0))) i = image0 i)
  /\ mem (fst (LoadBin mc (writeImage image0))) 65535 = 0.
Proof.
  intros Hw.
  assert (Hlen : length (writeImage image0) = Z.to_nat 131072).
  { unfold writeImage. rewrite flat_map_pairs_length by reflexivity.
    rewrite length_map, length_seq. lia. }
  destruct (LoadBin_image mc (writeImage image0) Hlen) as (Herr & Hword & Hlast).
  split; [exact Hlen|]. split; [exact Herr|]. split; [|exact Hlast].
  intros i Hi. rewrite Hword by exact Hi. unfold wordAt, writeImage.
  destruct (flat_map_pairs (fun i => Z.land (Z.shiftr (image0 i) 8) 0xFF)
              (fun i => Z.land (image0 i) 0xFF)
              (map Z.of_nat (seq 0 (Z.to_nat 65536))) (Z.to_nat i))
    as (Hhi & Hlo).
  { rewrite length_map, length_seq. lia. }
  replace (Z.to_nat (2 * i)) with (2 * Z.to_nat i)%nat by lia.
  replace (Z.to_nat (2 * i + 1)) with (2 * Z.to_nat i + 1)%nat by lia.
  rewrite Hhi, Hlo.
  assert (nth (Z.to_nat i) (map Z.of_nat (seq 0 (Z.to_nat 65536))) 0 = i) as ->.
  { change (nth (Z.to_nat i) (map Z.of_nat (seq 0 (Z.to_nat 65536))) (Z.of_nat 0) = i).
    rewrite map_nth, seq_nth by lia.
    rewrite Nat.add_0_l. apply Z2Nat.id. lia. }
  apply word_octets. apply Hw.
Qed.

Lemma image_file_round_trip_witness :
  length (writeImage callImage) = Z.to_nat 131072
  /\ snd (LoadBin rtiViolation (writeImage callImage)) = None
  /\ (forall i, 0 <= i < 65535 ->
        mem (fst (LoadBin rtiViolation (writeImage callImage))) i = callImage i)
  /\ mem (fst (LoadBin rtiViolation (writeImage callImage))) 65535 = 0.
Proof.
  apply (image_file_round_trip rtiViolation callImage).
  intros a. unfold callImage, upd, word. destruct (a =? 12288); lia.
Defined.

(** ** The assembler: what a line can do *)


Ltac split_on x :=
  lazymatch x with
  | context [if ?y then _ else _] => split_on y
  | context [match ?y with _ => _ end] => split_on y
  | _ => destruct x eqn:?
  end.

Ltac split_match :=
  match goal with
  | |- context [if ?x then _ else _] => split_on x
  | |- context [match ?x with _ => _ end] => split_on x
  end.

Ltac split_matches := repeat split_match.

Ltac appended :=
  solve [ repeat first [ reflexivity | assumption | apply prefix_app_r ]
        | etrans; [eassumption|];
          repeat first [ reflexivity | assumption | apply prefix_app_r ]
        | etrans; [eassumption|]; etrans; [eassumption|];
          repeat first [ reflexivity | assumption | apply prefix_app_r ] ].

Lemma registerOperand_appends op scratch errs :
  errs `prefix_of` snd (registerOperand op (scratch, errs)).
Proof.
  unfold registerOperand. repeat split_match; cbn [snd]; appended.
Qed.

Ltac register_operands :=
  repeat match goal with
         | |- context [registerOperand ?op (?s, ?e)] =>
             pose proof (registerOperand_appends op s e);
             destruct (registerOperand op (s, e)) as [? ?]; cbn [snd] in *
         end.

Lemma count_eqb ops k :
  0 <= k -> (count ops =? k) = (length ops =? Z.to_nat k)%nat.
Proof.
  intros Hk. unfold count.
  destruct (Z.eqb_spec (Z.of_nat (length ops)) k) as [H|H];
    destruct (Nat.eqb_spec (length ops) (Z.to_nat k)) as [H'|H'];
    try reflexivity; lia.
Qed.

Lemma assembleInstruction_total kw operands program instruction errs refs :
  exists scratch errs' refs',
    assembleInstruction (Some kw) operands program instruction errs refs
    = Ok (scratch, errs', refs')
    /\ errs `prefix_of` errs' /\ refs `prefix_of` refs'.
Proof.
  unfold assembleInstruction, wrongCount, keywordPosition.
  destruct instruction; cbn [andb negb];
    rewrite ?count_eqb by lia;
    change (Z.to_nat 0) with 0%nat; change (Z.to_nat 1) with 1%nat;
    change (Z.to_nat 2) with 2%nat; change (Z.to_nat 3) with 3%nat;
    destruct operands as [|a [|b [|c [|d rest]]]];
    cbn [length Nat.eqb negb andb operand nth_error bind];
    register_operands;
    repeat (eval_Z; cbn [length Nat.eqb negb andb operand nth_error bind];
            split_match);
    eval_Z; cbn [length Nat.eqb negb andb operand nth_error bind];
    (eexists _, _, _; split; [reflexivity|split; appended]).
Qed.


Lemma parseLiteral_word_nonneg token : 0 <= fst (parseLiteral token LITERAL_WORD).
Proof.
  unfold parseLiteral. change (LITERAL_WORD <? 16) with false. cbv iota.
  destruct (Strconv.containsAny_xX (bytesZ (Value token))).
  - destruct (Encoding.DecodeHex (Value token)) as [v|] eqn:Hv; cbn [fst]; [|lia].
    apply DecodeHex_word in Hv. unfold word in Hv. lia.
  - destruct (Encoding.DecodeInt (Value token)) as [v|]; cbn [fst]; [|lia].
    pose proof (wrap16_word v) as H. unfold word in H. lia.
Qed.

Lemma wrap32_nonneg x : 0 <= wrap32 x.
Proof. unfold wrap32. apply Z.mod_pos_bound. lia. Qed.


Lemma assembleDirective_total lib lbls keyword operands directive program0 image0
    errs0 fills :
  0 <= program0 < 65536 ->
  (directive_valid directive = true -> keyword <> None) ->
  Forall (fun t => TType t <> TOKEN_STRING) operands ->
  exists program' image' errs' fills',
    assembleDirective lib lbls keyword operands directive program0 image0 errs0 fills
    = Ok (program', image', errs', fills')
    /\ 0 <= program'.
Proof.
  intros Hp Hk Hops.
  destruct directive; try (eexists _, _, _, _; split; [reflexivity|lia]).
  all: destruct keyword as [kw|]; [|exfalso; apply Hk; reflexivity].
  all: unfold assembleDirective, keywordPosition.
  all: rewrite ?count_eqb by lia; change (Z.to_nat 1) with 1%nat.
  all: destruct operands as [|a [|b rest]];
       cbn [length Nat.eqb negb operand nth_error bind];
       try (eexists _, _, _, _; split; [reflexivity|lia]).
  - pose proof (parseLiteral_word_nonneg a) as Hlit.
    destruct (negb (tokenType_eqb (TType a) TOKEN_LITERAL));
      [eexists _, _, _, _; split; [reflexivity|lia]|].
    destruct (parseLiteral a LITERAL_WORD) as [literal err]. cbn [fst] in Hlit.
    eexists _, _, _, _. split; [reflexivity|exact Hlit].
  - destruct (TType a).
    all: try (eexists _, _, _, _; split; [reflexivity|apply wrap32_nonneg]).
    + destruct (lbls !! Value a) as [addr|].
      * rewrite store_inside by exact Hp. cbn [bind].
        eexists _, _, _, _. split; [reflexivity|apply wrap32_nonneg].
      * eexists _, _, _, _. split; [reflexivity|apply wrap32_nonneg].
    + destruct (parseLiteral a LITERAL_WORD) as [literal err].
      rewrite store_inside by exact Hp. cbn [bind].
      eexists _, _, _, _. split; [reflexivity|apply wrap32_nonneg].
  - destruct (negb (tokenType_eqb (TType a) TOKEN_LITERAL));
      [eexists _, _, _, _; split; [reflexivity|lia]|].
    destruct (parseLiteral a LITERAL_WORD) as [literal err].
    eexists _, _, _, _. split; [reflexivity|apply wrap32_nonneg].
  - inversion Hops as [|? ? Ha _]; subst.
    assert (tokenType_eqb (TType a) TOKEN_STRING = false) as ->.
    { destruct (TType a); try reflexivity. contradiction. }
    cbn [negb]. eexists _, _, _, _. split; [reflexivity|lia].
Qed.







(** ** Sources without a string never stop the assembler *)

Lemma classifyRune_no_string lib cursor t char :
  char <> 34 -> t <> TOKEN_STRING ->
  dType (classifyRune lib cursor t char) <> TOKEN_STRING.
Proof.
  intros Hc Ht. unfold classifyRune.
  assert ((char =? 34) = false) as -> by (apply Z.eqb_neq; exact Hc).
  destruct t; try contradiction;
    cbn [isNone isString tokenType_eqb negb andb];
    repeat split_match; cbn [dType decide_none decide_flush decide_errs];
    discriminate.
Qed.

Lemma lexRune_no_string lib lineLen st column char :
  char <> 34 ->
  tokenType st <> TOKEN_STRING ->
  Forall (fun t => TType t <> TOKEN_STRING) (tokens st) ->
  tokenType (fst (lexRune lib lineLen st column char)) <> TOKEN_STRING
  /\ Forall (fun t => TType t <> TOKEN_STRING)
       (tokens (fst (lexRune lib lineLen st column char))).
Proof.
  intros Hc Ht Hts. unfold lexRune.
  pose proof (classifyRune_no_string lib
                (withColumn (lexCursor st) (column + 1)) (tokenType st) char Hc Ht)
    as Hd.
  destruct (dSkipRest _); cbn [fst tokenType tokens]; [split; assumption|].
  repeat split_match; cbn [fst tokenType tokens];
    (split; [first [assumption | discriminate]|]);
    try assumption;
    apply Forall_app; (split; [assumption|]);
    repeat constructor; assumption.
Qed.

Lemma lexRunes_no_string lib lineLen rs : forall st,
  Forall (fun r => snd r <> 34) rs ->
  tokenType st <> TOKEN_STRING ->
  Forall (fun t => TType t <> TOKEN_STRING) (tokens st) ->
  Forall (fun t => TType t <> TOKEN_STRING) (tokens (lexRunes lib lineLen st rs)).
Proof.
  induction rs as [|[column char] rest IH]; intros st Hrs Ht Hts.
  - exact Hts.
  - cbn [lexRunes]. inversion Hrs as [|? ? Hc Hrest]; subst. cbn [snd] in Hc.
    destruct (lexRune_no_string lib lineLen st column char Hc Ht Hts) as (Ht' & Hts').
    destruct (lexRune lib lineLen st column char) as [st1 stop]. cbn [fst] in *.
    destruct stop; [exact Hts'|]. apply IH; assumption.
Qed.

Lemma shiftl_6_zero x : 0 <= x -> Z.shiftl x 6 = 0 -> x = 0.
Proof.
  intros Hx H. rewrite Z.shiftl_mul_pow2 in H by lia.
  change (2 ^ 6) with 64 in H. lia.
Qed.

Lemma low_bits_nonzero b k lo :
  0 <= k -> lo <= b < lo + 2 ^ k -> lo mod 2 ^ k = 0 -> b <> lo ->
  Z.land b (Z.ones k) <> 0.
Proof.
  intros Hk Hb Hlo Hne. rewrite Z.land_ones by exact Hk.
  assert (0 < 2 ^ k) as Hpos by (apply Z.pow_pos_nonneg; lia).
  pose proof (Z.div_mod lo (2 ^ k) ltac:(lia)) as Hdiv. rewrite Hlo in Hdiv.
  assert (b mod 2 ^ k = b - lo) as ->; [|lia].
  symmetry. apply (Z.mod_unique_pos _ _ (lo / 2 ^ k)); lia.
Qed.

Lemma two_octets_not_quote b0 b1 :
  0xC2 <= b0 < 0xE0 ->
  Z.lor (Z.shiftl (Z.land b0 0x1F) 6) (Z.land b1 0x3F) <> 34.
Proof.
  intros Hb0 H.
  assert (Z.shiftr (Z.lor (Z.shiftl (Z.land b0 0x1F) 6) (Z.land b1 0x3F)) 6 = 0)
    as Hs by (rewrite H; reflexivity).
  rewrite Z.shiftr_lor, Z.shiftr_shiftl_l, Z.sub_diag, Z.shiftl_0_r in Hs by lia.
  apply Z.lor_eq_0_iff in Hs as (Hs & _).
  revert Hs. change 0x1F with (Z.ones 5).
  apply (low_bits_nonzero b0 5 0xC0); [lia|change (2 ^ 5) with 32; lia|reflexivity|lia].
Qed.

Lemma three_octets_not_quote b0 b1 b2 :
  0xE0 <= b0 < 0xF0 ->
  (if b0 =? 0xE0 then 0xA0 else 0x80) <= b1 <= 0xBF ->
  Z.lor (Z.shiftl (Z.land b0 0x0F) 12)
    (Z.lor (Z.shiftl (Z.land b1 0x3F) 6) (Z.land b2 0x3F)) <> 34.
Proof.
  intros Hb0 Hb1 H.
  match type of H with
  | ?r = 34 => assert (Z.shiftr r 6 = 0) as Hs by (rewrite H; reflexivity)
  end.
  rewrite !Z.shiftr_lor in Hs.
  rewrite (Z.shiftr_shiftl_l (Z.land b0 15) 12 6) in Hs by lia.
  rewrite (Z.shiftr_shiftl_l (Z.land b1 63) 6 6) in Hs by lia.
  change (12 - 6) with 6 in Hs. rewrite Z.sub_diag, Z.shiftl_0_r in Hs.
  apply Z.lor_eq_0_iff in Hs as (Hs0 & Hs1).
  apply Z.lor_eq_0_iff in Hs1 as (Hs1 & _).
  apply shiftl_6_zero in Hs0; [|apply Z.land_nonneg; right; lia].
  destruct (Z.eqb_spec b0 0xE0) as [->|Hne].
  - revert Hs1. change 0x3F with (Z.ones 6).
    destruct (Z.eq_dec b1 0x80) as [->|Hb]; [lia|].
    apply (low_bits_nonzero b1 6 0x80);
      [lia|change (2 ^ 6) with 64; lia|reflexivity|exact Hb].
  - revert Hs0. change 0x0F with (Z.ones 4).
    apply (low_bits_nonzero b0 4 0xE0);
      [lia|change (2 ^ 4) with 16; lia|reflexivity|exact Hne].
Qed.

Lemma four_octets_not_quote b0 b1 b2 b3 :
  0xF0 <= b0 < 0xF5 ->
  (if b0 =? 0xF0 then 0x90 else 0x80) <= b1 <= 0xBF ->
  Z.lor (Z.shiftl (Z.land b0 0x07) 18)
    (Z.lor (Z.shiftl (Z.land b1 0x3F) 12)
       (Z.lor (Z.shiftl (Z.land b2 0x3F) 6) (Z.land b3 0x3F))) <> 34.
Proof.
  intros Hb0 Hb1 H.
  match type of H with
  | ?r = 34 => assert (Z.shiftr r 12 = 0) as Hs by (rewrite H; reflexivity)
  end.
  rewrite !Z.shiftr_lor in Hs.
  rewrite (Z.shiftr_shiftl_l (Z.land b0 7) 18 12) in Hs by lia.
  rewrite (Z.shiftr_shiftl_l (Z.land b1 63) 12 12) in Hs by lia.
  change (18 - 12) with 6 in Hs. rewrite Z.sub_diag, Z.shiftl_0_r in Hs.
  apply Z.lor_eq_0_iff in Hs as (Hs0 & Hs1).
  apply Z.lor_eq_0_iff in Hs1 as (Hs1 & _).
  apply shiftl_6_zero in Hs0; [|apply Z.land_nonneg; right; lia].
  destruct (Z.eqb_spec b0 0xF0) as [->|Hne].
  - revert Hs1. change 0x3F with (Z.ones 6).
    destruct (Z.eq_dec b1 0x80) as [->|Hb]; [lia|].
    apply (low_bits_nonzero b1 6 0x80);
      [lia|change (2 ^ 6) with 64; lia|reflexivity|exact Hb].
  - revert Hs0. change 0x07 with (Z.ones 3).
    apply (low_bits_nonzero b0 3 0xF0);
      [lia|change (2 ^ 3) with 8; lia|reflexivity|exact Hne].
Qed.

Lemma decodeRune_not_quote s :
  Forall (fun b => b <> 34) s -> fst (Utf8.decodeRune s) <> 34.
Proof.
  intros Hs. unfold Utf8.decodeRune, Utf8.RuneError, Utf8.continuation.
  destruct s as [|b0 rest]; [cbn [fst]; lia|].
  inversion Hs as [|? ? Hb0 _]; subst.
  destruct (Z.ltb_spec b0 0x80); [exact Hb0|].
  destruct (Z.ltb_spec b0 0xC2); [cbn [fst]; lia|].
  destruct (Z.ltb_spec b0 0xE0).
  { destruct rest as [|b1 ?]; [cbn [fst]; lia|].
    destruct (_ && _); cbn [fst]; [|lia].
    apply two_octets_not_quote. lia. }
  destruct (Z.ltb_spec b0 0xF0).
  { destruct rest as [|b1 [|b2 ?]]; try (cbn [fst]; lia).
    destruct (Z.leb_spec (if b0 =? 224 then 160 else 128) b1);
      [|cbn [andb fst]; lia].
    destruct (Z.leb_spec b1 (if b0 =? 237 then 159 else 191));
      [|cbn [andb fst]; lia].
    cbn [andb]. destruct (_ && _); cbn [fst]; [|lia].
    apply three_octets_not_quote; [lia|].
    destruct (b0 =? 237); lia. }
  destruct (Z.ltb_spec b0 0xF5); [|cbn [fst]; lia].
  destruct rest as [|b1 [|b2 [|b3 ?]]]; try (cbn [fst]; lia).
  destruct (Z.leb_spec (if b0 =? 240 then 144 else 128) b1);
    [|cbn [andb fst]; lia].
  destruct (Z.leb_spec b1 (if b0 =? 244 then 143 else 191));
    [|cbn [andb fst]; lia].
  cbn [andb]. destruct (_ && _); cbn [fst]; [|lia].
  apply four_octets_not_quote; [lia|].
  destruct (b0 =? 244); lia.
Qed.

Lemma rangeString_not_quote s : forall skip i,
  Forall (fun b => b <> 34) s ->
  Forall (fun r => snd r <> 34) (Utf8.rangeString s skip i).
Proof.
  induction s as [|b rest IH]; intros skip i Hs; cbn [Utf8.rangeString].
  - constructor.
  - pose proof (decodeRune_not_quote (b :: rest) Hs) as Hd.
    inversion Hs as [|? ? _ Hrest]; subst.
    destruct skip as [|k]; [|apply IH; exact Hrest].
    destruct (Utf8.decodeRune (b :: rest)) as [r size]. cbn [fst] in Hd.
    constructor; [exact Hd|apply IH; exact Hrest].
Qed.

Lemma lexLine_no_string lib cursor text line :
  Forall (fun b => b <> 34) line ->
  Forall (fun t => TType t <> TOKEN_STRING) (tokens (lexLine lib cursor text line)).
Proof.
  intros Hline. unfold lexLine. apply lexRunes_no_string.
  - apply rangeString_not_quote. exact Hline.
  - discriminate.
  - constructor.
Qed.

Lemma keywordAt_spec toks :
  let '(instruction, directive, keyword, operands) := keywordAt toks in
  (keyword = None ->
   instruction = INSTRUCTION_INVALID /\ directive = DIRECTIVE_INVALID)
  /\ (instruction_valid instruction = true ->
      directive = DIRECTIVE_INVALID /\ keyword <> None)
  /\ (directive_valid directive = true -> keyword <> None)
  /\ (forall P : Token -> Prop, Forall P toks -> Forall P operands).
Proof.
  unfold keywordAt. destruct toks as [|t rest].
  - repeat split; try discriminate. intros P H. exact H.
  - destruct (instruction_valid (parseInstruction (Value t))) eqn:Hi.
    + repeat split; try discriminate.
      intros P H. inversion H; assumption.
    + destruct (directive_valid (parseDirective (Value t))) eqn:Hd.
      * repeat split; try discriminate.
        intros P H. inversion H; assumption.
      * repeat split; try discriminate. intros P H. constructor.
Qed.

(** The statement of a line, once its keyword is known. *)
Lemma encode_total lib lbls keyword operands instruction directive st
    (lexed : LexState) lineLen errs0 :
  0 <= program st < 65535 ->
  (keyword = None ->
   instruction = INSTRUCTION_INVALID /\ directive = DIRECTIVE_INVALID) ->
  (instruction_valid instruction = true ->
   directive = DIRECTIVE_INVALID /\ keyword <> None) ->
  (directive_valid directive = true -> keyword <> None) ->
  Forall (fun t => TType t <> TOKEN_STRING) operands ->
  exists st' flow,
    match directive with
    | DIRECTIVE_END =>
        do errs' <-
          (if negb (count operands =? 0) then
             do pos <- keywordPosition keyword;
             Ok (errs0 ++ [InvalidNumArgumentsError pos 0 (count operands)])
           else Ok errs0);
        Ok ({| labels := lbls; labelRefs := labelRefs st;
               fillRefs := fillRefs st; program := program st;
               image := image st; errs := errs';
               cursor := lexCursor lexed; text := builder lexed |},
            EndDirective)
    | _ =>
        do '(program', image', errs', fills') <-
          assembleDirective lib lbls keyword operands directive
            (program st) (image st) errs0 (fillRefs st);
        do '(scratch, errs', refs') <-
          assembleInstruction keyword operands program' instruction
            errs' (labelRefs st);
        do '(image', program') <-
          (if instruction_valid instruction then
             do image' <- store image' program' scratch;
             Ok (image', wrap32 (program' + 1))
           else Ok (image', program'));
        if 65535 <=? program' then
          Ok ({| labels := lbls; labelRefs := refs'; fillRefs := fills';
                 program := program'; image := image';
                 errs := errs' ++ [OversizedBinaryError];
                 cursor := lexCursor lexed; text := builder lexed |},
              Returned)
        else
          Ok ({| labels := lbls; labelRefs := refs'; fillRefs := fills';
                 program := program'; image := image'; errs := errs';
                 cursor := advance (lexCursor lexed) lineLen;
                 text := builder lexed |}, NextLine)
    end = Ok (st', flow)
    /\ 0 <= program st'
    /\ (flow = NextLine -> program st' < 65535).
Proof.
  intros Hp Hnone Hinstr Hdir Hops.
  assert (Hend : directive = DIRECTIVE_END ->
            exists errs',
              (if negb (count operands =? 0) then
                 do pos <- keywordPosition keyword;
                 Ok (errs0 ++ [InvalidNumArgumentsError pos 0 (count operands)])
               else Ok errs0) = Ok errs').
  { intros ->. destruct keyword as [kw|]; [|exfalso; apply Hdir; reflexivity].
    destruct (negb _); eexists; reflexivity. }
  assert (Hrest : directive <> DIRECTIVE_END ->
    exists st' flow,
      (do '(program', image', errs', fills') <-
          assembleDirective lib lbls keyword operands directive
            (program st) (image st) errs0 (fillRefs st);
        do '(scratch, errs', refs') <-
          assembleInstruction keyword operands program' instruction
            errs' (labelRefs st);
        do '(image', program') <-
          (if instruction_valid instruction then
             do image' <- store image' program' scratch;
             Ok (image', wrap32 (program' + 1))
           else Ok (image', program'));
        if 65535 <=? program' then
          Ok ({| labels := lbls; labelRefs := refs'; fillRefs := fills';
                 program := program'; image := image';
                 errs := errs' ++ [OversizedBinaryError];
                 cursor := lexCursor lexed; text := builder lexed |},
              Returned)
        else
          Ok ({| labels := lbls; labelRefs := refs'; fillRefs := fills';
                 program := program'; image := image'; errs := errs';
                 cursor := advance (lexCursor lexed) lineLen;
                 text := builder lexed |}, NextLine)) = Ok (st', flow)
      /\ 0 <= program st'
      /\ (flow = NextLine -> program st' < 65535)).
  { intros _.
    destruct (instruction_valid instruction) eqn:Hv.
    - destruct (Hinstr eq_refl) as (-> & Hk).
      destruct keyword as [kw|]; [|contradiction].
      cbn [assembleDirective bind].
      destruct (assembleInstruction_total kw operands (program st) instruction
                  errs0 (labelRefs st)) as (scratch & e & r & -> & _).
      cbn [bind]. rewrite store_inside by lia. cbn [bind].
      rewrite wrap32_small by lia.
      destruct (Z.leb_spec 65535 (program st + 1)); eexists _, _;
        (split; [reflexivity|]); cbn [program]; (split; [lia|]);
        intros Hflow; [discriminate Hflow|lia].
    - destruct (assembleDirective_total lib lbls keyword operands directive
                  (program st) (image st) errs0 (fillRefs st) ltac:(lia) Hdir Hops)
        as (p' & i' & e' & f' & -> & Hp').
      cbn [bind].
      assert (exists scratch e r,
                assembleInstruction keyword operands p' instruction e' (labelRefs st)
                = Ok (scratch, e, r)) as (scratch & e & r & ->).
      { destruct keyword as [kw|].
        - destruct (assembleInstruction_total kw operands p' instruction e'
                      (labelRefs st)) as (s & e & r & H & _).
          exists s, e, r. exact H.
        - destruct (Hnone eq_refl) as (-> & _). eexists _, _, _. reflexivity. }
      cbn [bind].
      destruct (Z.leb_spec 65535 p'); eexists _, _;
        (split; [reflexivity|]); cbn [program]; (split; [lia|]);
        intros Hflow; [discriminate Hflow|lia]. }
  destruct directive.
  all: try (apply Hrest; discriminate).
  destruct (Hend eq_refl) as (errs' & ->). cbn [bind].
  eexists _, _. split; [reflexivity|]. cbn [program].
  split; [lia|]. intros Hflow. discriminate Hflow.
Qed.

Lemma assembleLine_total lib st line :
  0 <= program st < 65535 ->
  Forall (fun b => b <> 34) line ->
  exists st' flow,
    assembleLine lib st line = Ok (st', flow)
    /\ 0 <= program st'
    /\ (flow = NextLine -> program st' < 65535).
Proof.
  intros Hp Hline. unfold assembleLine.
  pose proof (lexLine_no_string lib
                (withSize (cursor st) (Z.of_nat (length line))) (text st) line Hline)
    as Hlex.
  set (lexed := lexLine lib (withSize (cursor st) (Z.of_nat (length line)))
                  (text st) line) in *.
  destruct (tokens lexed) as [|first others] eqn:Htok.
  { eexists _, _. split; [reflexivity|]. cbn [program]. split; lia. }
  destruct (_ <? _).
  { eexists _, _. split; [reflexivity|]. cbn [program]. split; lia. }
  pose proof (keywordAt_spec (first :: others)) as Hkw.
  destruct (keywordAt (first :: others)) as [[[instruction directive] keyword] operands].
  destruct Hkw as (Hnone & Hinstr & Hdir & Hops).
  destruct keyword as [kw|].
  - apply encode_total; try assumption. apply Hops. exact Hlex.
  - destruct (match labels st !! Value first with
              | Some _ => _
              | None => _
              end) as [labels' errs'].
    destruct others as [|second others].
    { eexists _, _. split; [reflexivity|]. cbn [program]. split; lia. }
    pose proof (keywordAt_spec (second :: others)) as Hkw.
    destruct (keywordAt (second :: others))
      as [[[instruction' directive'] keyword'] operands'].
    destruct Hkw as (Hnone' & Hinstr' & Hdir' & Hops').
    apply encode_total; try assumption.
    apply Hops'. inversion Hlex; assumption.
Qed.

Lemma dropCR_Forall (P : Z -> Prop) line : Forall P line -> Forall P (GoText.dropCR line).
Proof.
  intros H. unfold GoText.dropCR.
  destruct (rev line) as [|b init_rev] eqn:Hrev; [exact H|].
  assert (Forall P (b :: init_rev)) as Hall.
  { rewrite <- Hrev. apply Forall_rev. exact H. }
  inversion Hall; subst.
  repeat split_match; try exact H. apply Forall_rev. assumption.
Qed.

Lemma scanLines_Forall (P : Z -> Prop) input : forall current,
  Forall P input -> Forall P current ->
  Forall (Forall P) (GoText.scanLines input current).
Proof.
  induction input as [|b rest IH]; intros current Hin Hcur; cbn [GoText.scanLines].
  - destruct current as [|c current']; [constructor|].
    destruct (_ <? _); [|constructor].
    constructor; [|constructor]. apply dropCR_Forall, Forall_rev. exact Hcur.
  - inversion Hin; subst. destruct (b =? 10).
    + destruct (_ <? _); [|constructor].
      constructor; [apply dropCR_Forall, Forall_rev; exact Hcur|].
      apply IH; [assumption|constructor].
    + apply IH; [assumption|]. constructor; assumption.
Qed.

Lemma assembleLines_total lib lines : forall st,
  0 <= program st < 65535 ->
  Forall (Forall (fun b => b <> 34)) lines ->
  exists st' flow, assembleLines lib st lines = Ok (st', flow).
Proof.
  induction lines as [|line rest IH]; intros st Hp Hlines; cbn [assembleLines].
  - eexists _, _. reflexivity.
  - inversion Hlines as [|? ? Hline Hrest]; subst.
    destruct (assembleLine_total lib st line Hp Hline)
      as (st1 & flow1 & -> & Hp1 & Hnext).
    cbn [bind]. destruct flow1; try (eexists _, _; reflexivity).
    apply IH; [|exact Hrest]. split; [exact Hp1|apply Hnext; reflexivity].
Qed.

(** X18.  A source without a double quote never stops the assembler:
    [AssembleLC3Source] returns an image and a list of errors, whatever
    else the text contains. *)
Theorem assembler_total_without_strings lib input :
  Forall (fun b => b <> 34) (bytesZ input) ->
  exists image' errs', AssembleLC3Source lib input = Ok (image', errs').
Proof.
  intros Hin. unfold AssembleLC3Source.
  destruct (assembleLines_total lib (GoText.scanLines (bytesZ input) []) initialState)
    as (st & flow & ->).
  - cbn [program initialState]. lia.
  - apply scanLines_Forall; [exact Hin|constructor].
  - cbn [bind]. destruct flow; try (eexists _, _; reflexivity).
    all: destruct (resolveLabelRefs _ _ _ _) as [image1 errs1];
         destruct (resolveFillRefs _ _ _ _) as [image2 errs2];
         eexists _, _; reflexivity.
Qed.

Lemma assembler_total_without_strings_witness :
  exists image' errs', AssembleLC3Source latin1Library countdown = Ok (image', errs').
Proof.
  apply (assembler_total_without_strings latin1Library countdown).
  vm_compute. repeat (constructor; [intros H; discriminate H|]). constructor.
Defined.

(** X19.  An exception raised in supervisor mode does not come back: it
    saves the status word and the program counter on the supervisor
    stack, where R6 stays, but RTI always switches to the saved user
    stack pointer before it pops.  The RTI of the handler therefore
    resumes at the word on top of the user stack, takes the status word
    from the word below it, leaves R6 four above the user stack pointer,
    and keeps the supervisor stack pointer, with the two saved words
    still on that stack, as the saved one. *)
Theorem supervisor_exception_then_RTI mc vector priority :
  word (Procstat (State mc)) ->
  getPrivilege mc = true ->
  0 <= priority <= 7 -> 0 <= vector < 256 ->
  let below := wrap16 (reg mc 6 - 2) in
  let top := wrap16 (reg mc 6 - 4) in
  let user := Stack (State mc) in
  plain below -> plain top -> plain user -> plain (wrap16 (user + 2)) ->
  exists mc1 mc2,
    raiseException None mc vector priority = Ok mc1
    /\ reg mc1 6 = top
    /\ Stack (State mc1) = user
    /\ mem mc1 top = Program (State mc)
    /\ mem mc1 below = Procstat (State mc)
    /\ execute None 0x8000 mc1 = Ok mc2
    /\ Program (State mc2) = mem mc1 user
    /\ Procstat (State mc2) = mem mc1 (wrap16 (user + 2))
    /\ reg mc2 6 = wrap16 (wrap16 (user + 2) + 2)
    /\ Stack (State mc2) = top
    /\ (user <> below -> user <> top -> Program (State mc2) = mem mc user).
Proof.
  intros Hp Hs Hprio Hvec below top user Hbelow Htop Huser Huser2.
  destruct (raiseException_effect mc vector priority Hp Hprio Hvec Hbelow Htop)
    as (mc1 & Hraise & Hpriv1 & _ & _ & Hp1 & _ & Hsup & _ & Hm1 & Hm2
        & Hmem1 & _ & _).
  destruct (Hsup Hs) as (Hr6 & Hst1).
  fold below top in Hm1, Hm2, Hmem1, Hr6. fold user in Hst1.
  destruct (execute_RTI_effect mc1 Hp1 Hpriv1) as
    (mc2 & Hrti & Hpc2 & Hps2 & Hr2 & Hst2 & _).
  { rewrite Hst1. exact Huser. }
  { rewrite Hst1. exact Huser2. }
  rewrite Hst1 in Hpc2, Hps2, Hr2.
  exists mc1, mc2.
  split; [exact Hraise|]. split; [exact Hr6|]. split; [exact Hst1|].
  split; [exact Hm2|]. split; [exact Hm1|]. split; [exact Hrti|].
  split; [exact Hpc2|]. split; [exact Hps2|]. split; [exact Hr2|].
  split; [congruence|].
  intros Hne1 Hne2. rewrite Hpc2. apply Hmem1; assumption.
Qed.

Lemma supervisor_exception_then_RTI_witness :
  let below := wrap16 (reg trapHandler 6 - 2) in
  let top := wrap16 (reg trapHandler 6 - 4) in
  let user := Stack (State trapHandler) in
  exists mc1 mc2,
    raiseException None trapHandler 0x80 4 = Ok mc1
    /\ reg mc1 6 = top
    /\ Stack (State mc1) = user
    /\ mem mc1 top = Program (State trapHandler)
    /\ mem mc1 below = Procstat (State trapHandler)
    /\ execute None 0x8000 mc1 = Ok mc2
    /\ Program (State mc2) = mem mc1 user
    /\ Procstat (State mc2) = mem mc1 (wrap16 (user + 2))
    /\ reg mc2 6 = wrap16 (wrap16 (user + 2) + 2)
    /\ Stack (State mc2) = top
    /\ (user <> below -> user <> top ->
        Program (State mc2) = mem trapHandler user).
Proof.
  apply (supervisor_exception_then_RTI trapHandler 0x80 4); try reflexivity;
    try lia; vm_compute; repeat split; discriminate.
Defined.

(** X20.  Subroutine linkage: JSR and JSRR leave the address of the next
    instruction in R7 and change nothing else but the program counter; a
    RET (JMP R7) executed in that state continues after the call.  JSRR
    reads its base register after R7 has been written, so [JSRR R7] does
    not jump at all. *)
Theorem subroutine_call_returns instruction mc :
  Z.shiftr instruction 12 = OP_JSR ->
  exists mc1 mc2,
    execute None instruction mc = Ok mc1
    /\ reg mc1 7 = Program (State mc)
    /\ Program (State mc1)
       = (if Z.land (Z.shiftr instruction 11) 1 =? 1
          then wrap16 (Program (State mc)
                       + Encoding.SignExtend (Z.land instruction 0x7FF) 11)
          else if Z.land (Z.shiftr instruction 6) 7 =? 7
               then Program (State mc)
               else reg mc (Z.land (Z.shiftr instruction 6) 7))
    /\ (forall r, r <> 7 -> reg mc1 r = reg mc r)
    /\ execute None 0xC1C0 mc1 = Ok mc2
    /\ Program (State mc2) = Program (State mc)
    /\ Registers (State mc2) = Registers (State mc1)
    /\ Procstat (State mc2) = Procstat (State mc)
    /\ Stack (State mc2) = Stack (State mc)
    /\ Memory (State mc2) = Memory (State mc)
    /\ Devices mc2 = Devices mc.
Proof.
  intros Hop. unfold execute at 1. rewrite Hop. opcodes. eval_Z.
  destruct (Z.land (Z.shiftr instruction 11) 1 =? 1).
  - eexists _, _. split; [reflexivity|]. mc_simpl. rewrite upd_same.
    split; [reflexivity|]. split; [reflexivity|].
    split; [intros r Hr; apply upd_other; exact Hr|].
    unfold execute. opcodes. eval_Z. mc_simpl.
    split; [reflexivity|]. mc_simpl. rewrite upd_same. repeat split.
  - eexists _, _. split; [reflexivity|]. mc_simpl. rewrite upd_same.
    split; [reflexivity|]. split.
    { destruct (Z.eqb_spec (Z.land (Z.shiftr instruction 6) 7) 7) as [->|Hne].
      - apply upd_same.
      - apply upd_other. exact Hne. }
    split; [intros r Hr; apply upd_other; exact Hr|].
    unfold execute. opcodes. eval_Z. mc_simpl.
    split; [reflexivity|]. mc_simpl. rewrite upd_same. repeat split.
Qed.

Lemma subroutine_call_returns_witness :
  exists mc1 mc2,
    execute None 0x41C0 userProgram = Ok mc1
    /\ reg mc1 7 = Program (State userProgram)
    /\ Program (State mc1)
       = (if Z.land (Z.shiftr 0x41C0 11) 1 =? 1
          then wrap16 (Program (State userProgram)
                       + Encoding.SignExtend (Z.land 0x41C0 0x7FF) 11)
          else if Z.land (Z.shiftr 0x41C0 6) 7 =? 7
               then Program (State userProgram)
               else reg userProgram (Z.land (Z.shiftr 0x41C0 6) 7))
    /\ (forall r, r <> 7 -> reg mc1 r = reg userProgram r)
    /\ execute None 0xC1C0 mc1 = Ok mc2
    /\ Program (State mc2) = Program (State userProgram)
    /\ Registers (State mc2) = Registers (State mc1)
    /\ Procstat (State mc2) = Procstat (State userProgram)
    /\ Stack (State mc2) = Stack (State userProgram)
    /\ Memory (State mc2) = Memory (State userProgram)
    /\ Devices mc2 = Devices userProgram.
Proof.
  apply (subroutine_call_returns 0x41C0 userProgram). reflexivity.
Defined.

(** ** The debugger *)

(** X21.  The hooks of the debugger call their handler at most once, with
    the debugger and the machine as they are: [Step] when a break is
    pending or some breakpoint is at the program counter, [Read] when
    some watchpoint that is not write-only is at the address, [Write]
    when some watchpoint that is not read-only is at the address.
    Otherwise they do nothing. *)
Theorem debugger_hooks
    (HandleBreak : Debugger.Debugger -> Machine -> result (Debugger.Debugger * Machine))
    (HandleRead HandleWrite :
       Z -> Debugger.Debugger -> Machine -> result (Debugger.Debugger * Machine))
    dbg mc addr :
  Debugger.Step HandleBreak dbg mc
  = (if Debugger.Break dbg
        || existsb (fun b => Program (State mc) =? Debugger.Addr b)
             (Debugger.Breakpoints dbg)
     then HandleBreak dbg mc else Ok (dbg, mc))
  /\ Debugger.Read HandleRead addr dbg mc
     = (if existsb (fun w => Debugger.watchesReads w && (addr =? Debugger.WAddr w))
             (Debugger.Watchpoints dbg)
        then HandleRead addr dbg mc else Ok (dbg, mc))
  /\ Debugger.Write HandleWrite addr dbg mc
     = (if existsb (fun w => Debugger.watchesWrites w && (addr =? Debugger.WAddr w))
             (Debugger.Watchpoints dbg)
        then HandleWrite addr dbg mc else Ok (dbg, mc)).
Proof.
  split; [|split].
  - unfold Debugger.Step. destruct (Debugger.Break dbg); [reflexivity|].
    cbn [orb]. induction (Debugger.Breakpoints dbg) as [|b rest IH];
      [reflexivity|].
    cbn [Debugger.stepLoop existsb].
    destruct (Program (State mc) =? Debugger.Addr b); [reflexivity|exact IH].
  - unfold Debugger.Read. induction (Debugger.Watchpoints dbg) as [|w rest IH];
      [reflexivity|].
    cbn [Debugger.readLoop existsb]. unfold Debugger.watchesReads at 1.
    destruct (Debugger.WType w); cbn [andb orb]; try exact IH;
      destruct (addr =? Debugger.WAddr w); cbn [orb]; try reflexivity; exact IH.
  - unfold Debugger.Write. induction (Debugger.Watchpoints dbg) as [|w rest IH];
      [reflexivity|].
    cbn [Debugger.writeLoop existsb]. unfold Debugger.watchesWrites at 1.
    destruct (Debugger.WType w); cbn [andb orb]; try exact IH;
      destruct (addr =? Debugger.WAddr w); cbn [orb]; try reflexivity; exact IH.
Qed.

Lemma NoDup_insert_fresh (l : list Z) : forall i y,
  NoDup l -> y ∉ l -> NoDup (<[i := y]> l).
Proof.
  induction l as [|x rest IH]; intros i y Hl Hy; [exact Hl|].
  apply NoDup_cons in Hl as (Hx & Hrest).
  apply not_elem_of_cons in Hy as (Hyx & Hy).
  destruct i as [|i].
  - change (NoDup (y :: rest)). apply NoDup_cons. split; assumption.
  - change (NoDup (x :: <[i := y]> rest)).
    apply NoDup_cons. split; [|apply IH; assumption].
    intros Hin. apply list_elem_of_lookup in Hin as (j & Hj).
    destruct (decide (i = j)) as [->|Hne].
    + rewrite list_lookup_insert_eq in Hj.
      * injection Hj as <-. apply Hyx. reflexivity.
      * apply lookup_lt_Some in Hj. rewrite length_insert in Hj. exact Hj.
    + rewrite list_lookup_insert_ne in Hj by exact Hne.
      apply Hx. apply list_elem_of_lookup. exists j. exact Hj.
Qed.

Lemma swap_remove_NoDup (f : Debugger.Breakpoint -> Z) l i moved :
  last l = Some moved -> (i < length l)%nat ->
  NoDup (f <$> l) ->
  NoDup (f <$> take (length l - 1) (<[i := moved]> l)).
Proof.
  intros Hlast Hi Hl. apply last_Some in Hlast as (l' & ->).
  rewrite length_app in *. cbn [length] in *.
  replace (length l' + 1 - 1)%nat with (length l') by lia.
  rewrite fmap_app in Hl. apply NoDup_app in Hl as (Hl' & Hfresh & _).
  destruct (decide (i < length l')%nat) as [Hlt|Hge].
  - rewrite insert_app_l by exact Hlt.
    rewrite <- (length_insert l' i moved) at 1. rewrite take_app_length.
    rewrite list_fmap_insert. apply NoDup_insert_fresh; [exact Hl'|].
    intros Hin. apply (Hfresh _ Hin). cbn. left.
  - rewrite insert_app_r_alt by lia. rewrite take_app_length. exact Hl'.
Qed.

Lemma existsb_breakpoint addr (l : list Debugger.Breakpoint) :
  existsb (fun b => Debugger.Addr b =? addr) l = true
  <-> addr ∈ (Debugger.Addr <$> l).
Proof.
  induction l as [|b rest IH]; cbn [existsb fmap list_fmap].
  - split; [discriminate|]. intros H. apply elem_of_nil in H. contradiction.
  - rewrite orb_true_iff, IH, elem_of_cons, Z.eqb_eq.
    split; intros [H|H]; auto.
Qed.

(** X22.  The [break] command keeps the breakpoints distinct: whatever
    its arguments, when it returns, no address is in the list twice, and
    the pending break and the watchpoints are as before.  After
    [break add] with a hexadecimal address the address is a breakpoint,
    the breakpoints there were are still there, and the [Step] hook calls
    the handler when the program counter is at the address. *)
Theorem break_command_keeps_breakpoints_distinct dbg :
  NoDup (Debugger.Addr <$> Debugger.Breakpoints dbg) ->
  (forall args dbg',
      Debugger.debugBreak dbg args = Ok dbg' ->
      NoDup (Debugger.Addr <$> Debugger.Breakpoints dbg')
      /\ Debugger.Break dbg' = Debugger.Break dbg
      /\ Debugger.Watchpoints dbg' = Debugger.Watchpoints dbg)
  /\ (forall arg addr,
        Encoding.DecodeHex arg = Some addr ->
        exists dbg',
          Debugger.debugBreak dbg ["add"; arg] = Ok dbg'
          /\ addr ∈ (Debugger.Addr <$> Debugger.Breakpoints dbg')
          /\ (forall other, other ∈ (Debugger.Addr <$> Debugger.Breakpoints dbg) ->
                other ∈ (Debugger.Addr <$> Debugger.Breakpoints dbg'))
          /\ (forall HandleBreak mc,
                Program (State mc) = addr ->
                Debugger.Step HandleBreak dbg' mc = HandleBreak dbg' mc)).
Proof.
  intros Hdistinct. split.
  - intros args dbg'. unfold Debugger.debugBreak.
    destruct (match args with [] => ["l"] | _ :: _ => args end) as [|cmd rest];
      [discriminate|].
    destruct (Debugger.oneOf cmd ["a"; "add"]).
    { destruct rest as [|arg [|? ?]];
        try (intros Hres; apply Ok_inj in Hres; subst; repeat split; assumption).
      destruct (Encoding.DecodeHex arg) as [addr|];
        [|intros Hres; apply Ok_inj in Hres; subst; repeat split; assumption].
      destruct (existsb _ _) eqn:Hex;
        intros Hres; apply Ok_inj in Hres; subst; [repeat split; assumption|].
      cbn [Debugger.setBreakpoints Debugger.Breakpoints Debugger.Break
             Debugger.Watchpoints].
      split; [|split; reflexivity].
      rewrite fmap_app. apply NoDup_app. split; [exact Hdistinct|].
      split; [|apply NoDup_singleton].
      intros x Hx Hin. cbn in Hin. apply list_elem_of_singleton in Hin. subst x.
      apply existsb_breakpoint in Hx. congruence. }
    destruct (Debugger.oneOf cmd ["l"; "ls"; "list"]);
      [intros Hres; apply Ok_inj in Hres; subst; repeat split; assumption|].
    destruct (Debugger.oneOf cmd ["r"; "rm"; "remove"]).
    { destruct rest as [|arg [|? ?]];
        try (intros Hres; apply Ok_inj in Hres; subst; repeat split; assumption).
      destruct (Strconv.ParseInt (bytesZ arg) 10 64) as [i [e|]];
        [intros Hres; apply Ok_inj in Hres; subst; repeat split; assumption|].
      destruct (Z.ltb_spec i 0); cbn [orb];
        [intros Hres; apply Ok_inj in Hres; subst; repeat split; assumption|].
      destruct (Z.leb_spec (Z.of_nat (length (Debugger.Breakpoints dbg))) i);
        [intros Hres; apply Ok_inj in Hres; subst; repeat split; assumption|].
      destruct (last (Debugger.Breakpoints dbg)) as [moved|] eqn:Hlast;
        [|discriminate].
      intros Hres; apply Ok_inj in Hres; subst.
      cbn [Debugger.setBreakpoints Debugger.Breakpoints Debugger.Break
             Debugger.Watchpoints].
      split; [|split; reflexivity].
      apply swap_remove_NoDup; [exact Hlast|lia|exact Hdistinct]. }
    destruct (Debugger.oneOf cmd ["clear"]).
    { intros Hres; apply Ok_inj in Hres; subst.
      cbn [Debugger.setBreakpoints Debugger.Breakpoints Debugger.Break
             Debugger.Watchpoints].
      split; [apply NoDup_nil_2|split; reflexivity]. }
    destruct rest; [discriminate|].
    intros Hres; apply Ok_inj in Hres; subst; repeat split; assumption.
  - intros arg addr Harg. unfold Debugger.debugBreak.
    change (Debugger.oneOf "add" ["a"; "add"]) with true. cbv iota.
    rewrite Harg.
    assert (Hfire : forall dbg',
              addr ∈ (Debugger.Addr <$> Debugger.Breakpoints dbg') ->
              forall HandleBreak mc,
                Program (State mc) = addr ->
                Debugger.Step HandleBreak dbg' mc = HandleBreak dbg' mc).
    { intros dbg' Hin HandleBreak mc Hpc. unfold Debugger.Step.
      destruct (Debugger.Break dbg'); [reflexivity|].
      induction (Debugger.Breakpoints dbg') as [|b rest IH].
      - apply elem_of_nil in Hin. contradiction.
      - cbn [Debugger.stepLoop]. rewrite Hpc.
        destruct (Z.eqb_spec addr (Debugger.Addr b)) as [_|Hne]; [reflexivity|].
        apply IH. cbn [fmap list_fmap] in Hin.
        apply elem_of_cons in Hin as [Heq|Hin]; [contradiction|exact Hin]. }
    destruct (existsb _ _) eqn:Hex.
    + exists dbg. split; [reflexivity|].
      apply existsb_breakpoint in Hex.
      split; [exact Hex|]. split; [intros other H; exact H|].
      apply Hfire. exact Hex.
    + eexists. split; [reflexivity|].
      cbn [Debugger.setBreakpoints Debugger.Breakpoints].
      assert (addr ∈ (Debugger.Addr <$>
                        Debugger.Breakpoints dbg ++ [{| Debugger.Addr := addr |}]))
        as Hin.
      { rewrite fmap_app. apply elem_of_app. right. cbn. left. }
      split; [exact Hin|].
      split; [intros other H; rewrite fmap_app; apply elem_of_app; left; exact H|].
      intros HandleBreak mc Hpc.
      apply (Hfire (Debugger.setBreakpoints dbg
                      (Debugger.Breakpoints dbg ++ [{| Debugger.Addr := addr |}])));
        assumption.
Qed.

Lemma break_command_keeps_breakpoints_distinct_witness :
  (forall args dbg',
      Debugger.debugBreak twoBreakpoints args = Ok dbg' ->
      NoDup (Debugger.Addr <$> Debugger.Breakpoints dbg')
      /\ Debugger.Break dbg' = Debugger.Break twoBreakpoints
      /\ Debugger.Watchpoints dbg' = Debugger.Watchpoints twoBreakpoints)
  /\ (forall arg addr,
        Encoding.DecodeHex arg = Some addr ->
        exists dbg',
          Debugger.debugBreak twoBreakpoints ["add"; arg] = Ok dbg'
          /\ addr ∈ (Debugger.Addr <$> Debugger.Breakpoints dbg')
          /\ (forall other,
                other ∈ (Debugger.Addr <$> Debugger.Breakpoints twoBreakpoints) ->
                other ∈ (Debugger.Addr <$> Debugger.Breakpoints dbg'))
          /\ (forall HandleBreak mc,
                Program (State mc) = addr ->
                Debugger.Step HandleBreak dbg' mc = HandleBreak dbg' mc)).
Proof.
  apply (break_command_keeps_breakpoints_distinct twoBreakpoints).
  cbn. apply NoDup_cons. split; [|apply NoDup_singleton].
  intros H. apply list_elem_of_singleton in H. discriminate H.
Defined.

(** X23.  A [break] command with a sub-command that it does not know
    panics when nothing follows the sub-command: the message is built
    from the argument after it.  When something follows, the command
    returns and the debugger is as before. *)
Theorem break_command_unknown dbg cmd rest :
  Debugger.oneOf cmd Debugger.breakCommands = false ->
  Debugger.debugBreak dbg (cmd :: rest)
  = match rest with
    | [] => Panic "index out of range"
    | _ :: _ => Ok dbg
    end.
Proof.
  unfold Debugger.oneOf, Debugger.breakCommands. cbn [existsb].
  intros H. repeat (apply orb_false_elim in H as (? & H)).
  unfold Debugger.debugBreak, Debugger.oneOf. cbn [existsb].
  repeat match goal with
         | E : String.eqb cmd _ = false |- _ => rewrite E; clear E
         end.
  cbn [orb]. reflexivity.
Qed.

Lemma break_command_unknown_witness :
  Debugger.debugBreak twoBreakpoints ["delete"] = Panic "index out of range".
Proof.
  apply (break_command_unknown twoBreakpoints "delete" []). reflexivity.
Defined.

(** ** From the assembler's [ADD] to the machine's *)

Lemma numbersBelow_In n x : 0 <= x < Z.of_nat n -> In x (numbersBelow n).
Proof.
  intros Hx. unfold numbersBelow. rewrite <- (Z2Nat.id x) by lia.
  apply in_map. apply in_seq. lia.
Qed.

Lemma add_words_decode dest src1 (immediate : bool) low :
  0 <= dest <= 7 -> 0 <= src1 <= 7 ->
  0 <= low < (if immediate then 32 else 8) ->
  decodesAsAdd dest src1 immediate low = true.
Proof.
  intros Hd Hs Hl.
  assert (forallb (fun d =>
            forallb (fun s =>
              forallb (fun l => decodesAsAdd d s true l) (numbersBelow 32)
              && forallb (fun l => decodesAsAdd d s false l) (numbersBelow 8))
              (numbersBelow 8)) (numbersBelow 8) = true) as Hall by (vm_compute; reflexivity).
  rewrite forallb_forall in Hall.
  specialize (Hall dest (numbersBelow_In 8 dest ltac:(lia))).
  rewrite forallb_forall in Hall.
  specialize (Hall src1 (numbersBelow_In 8 src1 ltac:(lia))).
  apply andb_true_iff in Hall as (Himm & Hreg).
  rewrite forallb_forall in Himm, Hreg.
  destruct immediate.
  - apply Himm. apply numbersBelow_In. lia.
  - apply Hreg. apply numbersBelow_In. lia.
Qed.

Lemma parseRegister_range op r : parseRegister op = (r, true) -> 0 <= r <= 7.
Proof.
  unfold parseRegister. repeat split_match; intros H; injection H as <-; lia.
Qed.

Lemma registerOperand_register op scratch errs r :
  TType op = TOKEN_IDENT -> parseRegister op = (r, true) ->
  registerOperand op (scratch, errs)
  = (Z.lor (wrap16 (Z.shiftl scratch 3)) (Z.land r 7), errs).
Proof.
  intros Hty Hr. unfold registerOperand. rewrite Hty, Hr. reflexivity.
Qed.

Lemma parseLiteral_imm5_decimal token v :
  Strconv.containsAny_xX (bytesZ (Value token)) = false ->
  Encoding.DecodeInt (Value token) = Some v ->
  - 31 <= v <= 30 ->
  parseLiteral token LITERAL_IMM5 = (v mod 32, None).
Proof.
  intros Hx Hv Hr. unfold parseLiteral. rewrite Hx, Hv.
  change (LITERAL_IMM5 <? 16) with true. cbv iota zeta.
  change (to_int16 (to_int16 (Z.shiftl 1 LITERAL_IMM5) - 1)) with 31.
  change (to_int16 (Z.opp 31)) with (- 31).
  change (to_int16 (Z.shiftl 1 LITERAL_IMM5)) with (2 ^ 5).
  assert (((v <? - 31) || (31 <=? v)) = false) as ->.
  { apply orb_false_iff. split; [apply Z.ltb_ge|apply Z.leb_gt]; lia. }
  rewrite land_pow2 by lia.
  assert (negb (to_int16 ((if Z.testbit v 5 then 2 ^ 5 else 0) - 1) =? 0) = true)
    as -> by (destruct (Z.testbit v 5); reflexivity).
  change 31 with (Z.ones 5). rewrite Z.land_ones by lia.
  change (2 ^ 5) with 32. rewrite wrap16_small; [reflexivity|].
  unfold word. pose proof (Z.mod_pos_bound v 32). lia.
Qed.

(** X24.  [ADD] from the assembler to the machine.  With two register
    operands and a third register, the word that [assembleInstruction]
    builds makes the machine store the sum of the two source registers in
    the destination.  With a decimal third operand [v] that the assembler
    accepts for five bits ([-31 <= v <= 30]), the machine adds the number
    that the low five bits of [v] denote in two's complement: [v] itself
    from -16 to 15, but [v - 32] from 16 to 30 and [v + 32] from -31 to
    -17.  In both forms the condition bits follow the result. *)
Theorem assembled_add_executes kw op0 op1 op2 program0 errs0 refs dest src1 :
  TType op0 = TOKEN_IDENT -> parseRegister op0 = (dest, true) ->
  TType op1 = TOKEN_IDENT -> parseRegister op1 = (src1, true) ->
  (forall src2,
      TType op2 = TOKEN_IDENT -> parseRegister op2 = (src2, true) ->
      exists w,
        assembleInstruction (Some kw) [op0; op1; op2] program0 INSTRUCTION_ADD
          errs0 refs = Ok (w, errs0, refs)
        /\ forall mc,
             let mc' := setRegister mc dest (wrap16 (reg mc src1 + reg mc src2)) in
             execute None w mc = Ok (setFlags mc' (reg mc' dest)))
  /\ (forall v,
        TType op2 = TOKEN_LITERAL ->
        Strconv.containsAny_xX (bytesZ (Value op2)) = false ->
        Encoding.DecodeInt (Value op2) = Some v ->
        - 31 <= v <= 30 ->
        exists w,
          assembleInstruction (Some kw) [op0; op1; op2] program0 INSTRUCTION_ADD
            errs0 refs = Ok (w, errs0, refs)
          /\ forall mc,
               let mc' := setRegister mc dest
                            (wrap16 (reg mc src1 + ((v + 16) mod 32 - 16))) in
               execute None w mc = Ok (setFlags mc' (reg mc' dest))).
Proof.
  intros Hty0 Hr0 Hty1 Hr1.
  pose proof (parseRegister_range op0 dest Hr0) as Hd.
  pose proof (parseRegister_range op1 src1 Hr1) as Hs.
  assert (Hregs : registerOperand op1 (registerOperand op0 (1, errs0))
                  = (Z.lor (wrap16 (Z.shiftl
                                      (Z.lor (wrap16 (Z.shiftl 1 3)) (Z.land dest 7))
                                      3))
                       (Z.land src1 7), errs0)).
  { rewrite (registerOperand_register op0 1 errs0 dest Hty0 Hr0).
    apply (registerOperand_register op1 _ errs0 src1 Hty1 Hr1). }
  split.
  - intros src2 Hty2 Hr2.
    pose proof (parseRegister_range op2 src2 Hr2) as Hs2.
    exists (addWord dest src1 false (Z.land src2 7)). split.
    + unfold assembleInstruction. cbn [count length].
      change (Z.of_nat 3 =? 3) with true.
      cbn [negb operand nth_error bind]. rewrite Hregs, Hty2, Hr2.
      cbn [negb]. rewrite app_nil_r || idtac. reflexivity.
    + intros mc mc'.
      assert (Z.land src2 7 = src2) as Hlow.
      { change 7 with (Z.ones 3). rewrite Z.land_ones by lia.
        apply Z.mod_small. change (2 ^ 3) with 8. lia. }
      pose proof (add_words_decode dest src1 false (Z.land src2 7) Hd Hs
                    ltac:(rewrite Hlow; lia)) as Hdec.
      unfold decodesAsAdd in Hdec.
      apply andb_true_iff in Hdec as (Hdec & H5).
      apply andb_true_iff in Hdec as (Hdec & H4).
      apply andb_true_iff in Hdec as (Hdec & H3).
      apply andb_true_iff in Hdec as (H1 & H2).
      apply Z.eqb_eq in H1, H2, H3, H4, H5.
      unfold execute. rewrite H1, H2, H3, H4, H5.
      change (OP_ADD =? OP_ADD) with true. change (0 =? 1) with false.
      cbv iota. subst mc'. rewrite Hlow. reflexivity.
  - intros v Hty2 Hx Hv Hrange.
    pose proof (Z.mod_pos_bound v 32 ltac:(lia)) as Hm.
    exists (addWord dest src1 true (Z.land (v mod 32) 0x1F)). split.
    + unfold assembleInstruction. cbn [count length].
      change (Z.of_nat 3 =? 3) with true.
      cbn [negb operand nth_error bind]. rewrite Hregs, Hty2.
      rewrite (parseLiteral_imm5_decimal op2 v Hx Hv Hrange).
      cbn [optErr]. rewrite app_nil_r. reflexivity.
    + intros mc mc'.
      assert (Z.land (v mod 32) 0x1F = v mod 32) as Hlow.
      { change 0x1F with (Z.ones 5). rewrite Z.land_ones by lia.
        apply Z.mod_small. change (2 ^ 5) with 32. lia. }
      pose proof (add_words_decode dest src1 true (Z.land (v mod 32) 0x1F) Hd Hs
                    ltac:(rewrite Hlow; lia)) as Hdec.
      unfold decodesAsAdd in Hdec.
      apply andb_true_iff in Hdec as (Hdec & H5).
      apply andb_true_iff in Hdec as (Hdec & H4).
      apply andb_true_iff in Hdec as (Hdec & H3).
      apply andb_true_iff in Hdec as (H1 & H2).
      apply Z.eqb_eq in H1, H2, H3, H4, H5.
      unfold execute. rewrite H1, H2, H3, H4, H5.
      change (OP_ADD =? OP_ADD) with true. change (1 =? 1) with true.
      cbv iota. subst mc'. rewrite Hlow.
      assert (wrap16 (reg mc src1 + Encoding.SignExtend (v mod 32) 5)
              = wrap16 (reg mc src1 + ((v + 16) mod 32 - 16))) as ->;
        [|reflexivity].
      rewrite <- wrap16_add_r.
      rewrite SignExtend_signed by (change (2 ^ 5) with 32; lia).
      rewrite wrap16_idem, wrap16_add_r. f_equal. f_equal.
      change (2 ^ (5 - 1)) with 16. change (2 ^ 5) with 32.
      destruct (Z.ltb_spec (v mod 32) 16).
      * symmetry. assert ((v + 16) mod 32 = v mod 32 + 16); [|lia].
        symmetry. apply (Z.mod_unique_pos _ _ (v / 32)); [lia|].
        pose proof (Z.div_mod v 32). lia.
      * symmetry. assert ((v + 16) mod 32 = v mod 32 - 16); [|lia].
        symmetry. apply (Z.mod_unique_pos _ _ (v / 32 + 1)); [lia|].
        pose proof (Z.div_mod v 32). lia.
Qed.

Lemma assembled_add_executes_witness :
  (forall src2,
      TType (literalToken "#-3") = TOKEN_IDENT ->
      parseRegister (literalToken "#-3") = (src2, true) ->
      exists w,
        assembleInstruction (Some (identToken "ADD"))
          [identToken "R1"; identToken "R2"; literalToken "#-3"] 0 INSTRUCTION_ADD
          [] [] = Ok (w, [], [])
        /\ forall mc,
             let mc' := setRegister mc 1 (wrap16 (reg mc 2 + reg mc src2)) in
             execute None w mc = Ok (setFlags mc' (reg mc' 1)))
  /\ (forall v,
        TType (literalToken "#-3") = TOKEN_LITERAL ->
        Strconv.containsAny_xX (bytesZ (Value (literalToken "#-3"))) = false ->
        Encoding.DecodeInt (Value (literalToken "#-3")) = Some v ->
        - 31 <= v <= 30 ->
        exists w,
          assembleInstruction (Some (identToken "ADD"))
            [identToken "R1"; identToken "R2"; literalToken "#-3"] 0 INSTRUCTION_ADD
            [] [] = Ok (w, [], [])
          /\ forall mc,
               let mc' := setRegister mc 1
                            (wrap16 (reg mc 2 + ((v + 16) mod 32 - 16))) in
               execute None w mc = Ok (setFlags mc' (reg mc' 1))).
Proof.
  apply (assembled_add_executes (identToken "ADD") (identToken "R1")
           (identToken "R2") (literalToken "#-3") 0 [] [] 1 2);
    vm_compute; reflexivity.
Defined.

(** ** Branches *)

(** X25.  When a branch is taken.  [BR] with an empty condition field,
    which is what the assembler emits for [BR], is always taken.  With a
    condition field that is not empty the branch is taken exactly when
    the field shares a bit with the condition bits; so while no condition
    bit is set, as after [LoadBin], no such branch is taken, [BRnzp]
    included, and once one of N, Z, P is set [BRnzp] is always taken. *)
Theorem branch_taken instruction mc :
  Z.shiftr instruction 12 = OP_BR ->
  let field := Z.land (Z.shiftr instruction 9) 7 in
  let taken :=
    setProgram mc
      (wrap16 (Program (State mc)
               + Encoding.SignExtend (Z.land instruction 0x1FF) 9)) in
  (field = 0 -> execute None instruction mc = Ok taken)
  /\ (field <> 0 -> condition mc = 0 -> execute None instruction mc = Ok mc)
  /\ (field = 7 ->
      condition mc = FLAG_NEG \/ condition mc = FLAG_ZERO \/ condition mc = FLAG_POS ->
      execute None instruction mc = Ok taken)
  /\ (field <> 0 ->
      execute None instruction mc
      = Ok (if 0 <? Z.land field (condition mc) then taken else mc)).
Proof.
  intros Hop field taken. subst field taken.
  unfold execute, condition. rewrite Hop. opcodes. eval_Z.
  split; [|split; [|split]].
  - intros ->. reflexivity.
  - intros Hne ->. rewrite Z.land_0_r.
    apply Z.eqb_neq in Hne. rewrite Hne. reflexivity.
  - intros -> Hc. change (7 =? 0) with false. cbn [orb].
    unfold FLAG_NEG, FLAG_ZERO, FLAG_POS in Hc.
    destruct Hc as [-> | [-> | ->]]; reflexivity.
  - intros Hne. apply Z.eqb_neq in Hne. rewrite Hne. cbn [orb].
    destruct (0 <? _); reflexivity.
Qed.

Lemma branch_taken_witness :
  let field := Z.land (Z.shiftr 0x0E05 9) 7 in
  let taken :=
    setProgram userProgram
      (wrap16 (Program (State userProgram)
               + Encoding.SignExtend (Z.land 0x0E05 0x1FF) 9)) in
  (field = 0 -> execute None 0x0E05 userProgram = Ok taken)
  /\ (field <> 0 -> condition userProgram = 0 ->
      execute None 0x0E05 userProgram = Ok userProgram)
  /\ (field = 7 ->
      condition userProgram = FLAG_NEG \/ condition userProgram = FLAG_ZERO
      \/ condition userProgram = FLAG_POS ->
      execute None 0x0E05 userProgram = Ok taken)
  /\ (field <> 0 ->
      execute None 0x0E05 userProgram
      = Ok (if 0 <? Z.land field (condition userProgram) then taken
            else userProgram)).
Proof.
  apply (branch_taken 0x0E05 userProgram). reflexivity.
Defined.

(** ** The last column of a line *)



















(** ** The size check *)

(** X28.  The size check at the end of a statement.  The assembler goes
    on to the next line only with the program cursor below 65535.  A
    statement that leaves the cursor at 65535 or above, for instance
    any instruction placed at address 65534, ends the assembly at once:
    [OversizedBinary] is the last error, and the lines that follow are not
    read.  [.END] leaves the program cursor where it was. *)
Theorem size_check lib st line st' flow :
  assembleLine lib st line = Ok (st', flow) ->
  0 <= program st < 65535 ->
  (flow = NextLine -> program st' < 65535)
  /\ (flow = Returned ->
      65535 <= program st'
      /\ (exists before, errs st' = before ++ [OversizedBinaryError])
      /\ forall rest,
           assembleLines lib st (line :: rest) = Ok (st', Returned))
  /\ (flow = EndDirective -> program st' = program st).
Proof.
  intros Hline Hp.
  assert (Hstop : flow = Returned ->
            forall rest, assembleLines lib st (line :: rest) = Ok (st', Returned)).
  { intros -> rest. cbn [assembleLines]. rewrite Hline. reflexivity. }
  revert Hline Hstop.
  unfold assembleLine, keywordPosition, store, bind.
  repeat split_match.
  all: intros Hres Hstop; try discriminate Hres.
  all: apply Ok_inj in Hres; injection Hres as <- <-.
  all: cbn [program errs].
  all: split; [intros Hflow; try discriminate Hflow|
               split; [intros Hflow; try discriminate Hflow|
                       intros Hflow; try discriminate Hflow]].
  all: try lia.
  all: try reflexivity.
  all: try match goal with
           | H : (65535 <=? _) = false |- _ => apply Z.leb_gt in H; exact H
           end.
  all: match goal with
       | H : (65535 <=? _) = true |- _ => apply Z.leb_le in H
       end.
  all: split; [assumption|split; [eexists; reflexivity|apply Hstop; reflexivity]].
Qed.

Lemma size_check_witness :
  let outcome := assemblyOf (assembleLine latin1Library nearTheEnd (bytesZ "HALT")) in
  (snd outcome = NextLine -> program (fst outcome) < 65535)
  /\ (snd outcome = Returned ->
      65535 <= program (fst outcome)
      /\ (exists before, errs (fst outcome) = before ++ [OversizedBinaryError])
      /\ forall rest,
           assembleLines latin1Library nearTheEnd (bytesZ "HALT" :: rest)
           = Ok (fst outcome, Returned))
  /\ (snd outcome = EndDirective -> program (fst outcome) = program nearTheEnd).
Proof.
  apply (size_check latin1Library nearTheEnd (bytesZ "HALT")).
  - vm_compute. reflexivity.
  - vm_compute. split; [discriminate|reflexivity].
Defined.
